(** * get-registro-ans: a shallow embedding of the scraping pipeline

    The repository holds five Python scripts: [main.py] walks the paginated
    listing of operators, [join.py] concatenates the per-page CSV shards,
    [get_cnpj.py] fills the column CNPJ from one detail page per operator,
    [get_cnpj_cnpjbiz.py] fills seven address/phone columns from a second
    site, and [get-operadora.py] queries a JSON endpoint.

    Modelling choices.
    - A Python [str] is a [string]; one [ascii] stands for one code point
      below 256, and the character classes of [re] ([\s], [\d], [\w]) are the
      ones CPython uses on that range.
    - A pandas DataFrame is its list of column labels and its list of rows;
      a row is a finite map from column label to cell text.
    - The browser is an oracle: every call of a fetch function is answered by
      a view saying what each [driver] call returns or raises.
    - Output ([to_csv], [tqdm.write], [time.sleep], page loads) is recorded
      in a trace of events, in the order the code performs it. *)

From Stdlib Require Import Ascii String NArith ZArith Bool.
From stdpp Require Import gmap strings list fin_maps sorting.

Local Open Scope string_scope.
Local Open Scope list_scope.

(** ** Text: [re.sub(r"\s+", " ", s).strip()], [re.sub(r"\D", "", s)] *)

Module Text.

Definition code (c : ascii) : N := N_of_ascii c.

(** [\s] on a [str] pattern and the characters removed by [str.strip()]:
    U+0009..U+000D, U+001C..U+0020, U+0085 and U+00A0 below 256. *)
Definition is_space (c : ascii) : bool :=
  let n := code c in
  ((9 <=? n) && (n <=? 13) || (28 <=? n) && (n <=? 32) || (n =? 133) || (n =? 160))%N.

(** [\d]: the decimal digits; below 256 these are '0'..'9'. *)
Definition is_digit (c : ascii) : bool :=
  let n := code c in ((48 <=? n) && (n <=? 57))%N.

(** [\w]: alphanumeric code points and the underscore. *)
Definition is_word (c : ascii) : bool :=
  let n := code c in
  (is_digit c
   || (65 <=? n) && (n <=? 90) || (n =? 95) || (97 <=? n) && (n <=? 122)
   || (n =? 170) || (n =? 178) || (n =? 179) || (n =? 181) || (n =? 185)
   || (n =? 186) || (188 <=? n) && (n <=? 190)
   || (192 <=? n) && (n <=? 214) || (216 <=? n) && (n <=? 246)
   || (248 <=? n) && (n <=? 255))%N.

Definition space : ascii := " "%char.

(** [re.sub(r"\s+", " ", s)]: the scan replaces every maximal run of
    whitespace by one space; [in_run] says that the previous character
    belonged to the run being replaced. *)
Fixpoint sub_spaces (in_run : bool) (l : list ascii) : list ascii :=
  match l with
  | [] => []
  | c :: t =>
      if is_space c
      then (if in_run then sub_spaces true t else space :: sub_spaces true t)
      else c :: sub_spaces false t
  end.

(** [str.lstrip()] and [str.rstrip()] with no argument. *)
Fixpoint lstrip (l : list ascii) : list ascii :=
  match l with
  | [] => []
  | c :: t => if is_space c then lstrip t else l
  end.

Fixpoint rstrip (l : list ascii) : list ascii :=
  match l with
  | [] => []
  | c :: t =>
      match rstrip t with
      | [] => if is_space c then [] else [c]
      | r => c :: r
      end
  end.

Definition strip (l : list ascii) : list ascii := rstrip (lstrip l).

Definition clean_chars (l : list ascii) : list ascii :=
  strip (sub_spaces false l).

(** [clean] of get_cnpj_cnpjbiz.py and [_clean] of get_cnpj.py have the same
    body; [s or ""] only matters for [None], and every cell is a [str]. *)
Definition clean (s : string) : string :=
  string_of_list_ascii (clean_chars (list_ascii_of_string s)).

(** [re.sub(r"\D", "", s)] *)
Definition only_digits (s : string) : string :=
  string_of_list_ascii (filter (fun c => is_digit c = true) (list_ascii_of_string s)).

(** Truthiness of a [str]: [if s] holds for a non-empty string. *)
Definition truthy (s : string) : bool :=
  match s with EmptyString => false | String _ _ => true end.

(** A value that is empty or made of whitespace only. *)
Definition blank (s : string) : Prop :=
  Forall (fun c => is_space c = true) (list_ascii_of_string s).

(** Shape predicates used to describe a normalised string. *)
Definition no_leading_space (l : list ascii) : Prop :=
  match l with [] => True | c :: _ => is_space c = false end.

Definition no_trailing_space (l : list ascii) : Prop :=
  match last l with None => True | Some c => is_space c = false end.

Definition no_adjacent_spaces (l : list ascii) : Prop :=
  forall i a b, l !! i = Some a -> l !! (S i) = Some b ->
                ~ (is_space a = true /\ is_space b = true).

(** [spaced prev l]: every whitespace character of [l] is a single U+0020
    that does not follow another whitespace character; [prev] says whether
    the character before [l] was whitespace. *)
Fixpoint spaced (prev : bool) (l : list ascii) : bool :=
  match l with
  | [] => true
  | c :: t =>
      if is_space c
      then negb prev && Ascii.eqb c space && spaced true t
      else spaced false t
  end.

End Text.

(** ** Exceptions and results of calls that may raise *)

Inductive exn : Type :=
  | TimeoutException
  | StaleElementReferenceException
  | WebDriverException
  | KeyError
  | ValueError
  | FileNotFoundError
  | OtherError.

(** [TimeoutException] and [StaleElementReferenceException] are subclasses
    of [WebDriverException]; every class above is a subclass of
    [Exception]. *)
Definition is_WebDriverException (e : exn) : bool :=
  match e with
  | TimeoutException | StaleElementReferenceException | WebDriverException => true
  | _ => false
  end.

Definition is_Timeout_or_Stale (e : exn) : bool :=
  match e with
  | TimeoutException | StaleElementReferenceException => true
  | _ => false
  end.

Inductive outcome (A : Type) : Type :=
  | Return (a : A)
  | Raise (e : exn).
Arguments Return {A} a.
Arguments Raise {A} e.

(** ** Tables *)

Module Frame.

(** A row maps a column label to the text of its cell. *)
Abbreviation row := (gmap string string).

Record DataFrame : Type := { columns : list string; rows : list row }.

(** Cells are read after [fillna("")]: a missing cell reads as [""]. *)
Definition cell (r : row) (c : string) : string := default "" (r !! c).

(** [df.at[i, c]] as a read.  Every read of the loops below uses a row index
    taken from the pending list and a column that the load step has
    checked or created, so the [KeyError] of a missing label is not
    reachable there; outside the frame the read is given the value [""]. *)
Definition at_get (df : DataFrame) (i : nat) (c : string) : string :=
  match rows df !! i with
  | Some r => cell r c
  | None => ""
  end.

(** [df.at[i, c] = v].  A new column label is appended, as pandas does; the
    row index is one of the frame's own (pandas would append a row for a
    new index, the loops never pass one). *)
Definition at_set (df : DataFrame) (i : nat) (c v : string) : DataFrame :=
  {| columns := if decide (c ∈ columns df) then columns df else columns df ++ [c];
     rows := alter (fun r : row => <[c := v]> r) i (rows df) |}.

(** [out[c] = ""] for a column that is not there yet. *)
Definition ensure_column (c : string) (df : DataFrame) : DataFrame :=
  if decide (c ∈ columns df) then df
  else {| columns := columns df ++ [c];
          rows := (fun r : row => <[c := ""]> r) <$> rows df |}.

(** [df[c].tolist()] *)
Definition column (df : DataFrame) (c : string) : list string :=
  (fun r => cell r c) <$> rows df.

(** Column labels of the pipeline.  The labels with a letter outside ASCII
    are spelt with the code point of that letter. *)
Definition REGISTRO_ANS : string := "Registro ANS".
Definition RAZAO_SOCIAL : string :=
  String.append "Raz" (String (ascii_of_nat 227) "o Social").
Definition NOME_FANTASIA : string := "Nome Fantasia".
Definition CNPJ : string := "CNPJ".
Definition LOGRADOURO : string := "Logradouro".
Definition COMPLEMENTO : string := "Complemento".
Definition BAIRRO : string := "Bairro".
Definition CEP : string := "CEP".
Definition MUNICIPIO : string :=
  String.append "Munic" (String (ascii_of_nat 237) "pio").
Definition ESTADO : string := "Estado".
Definition TELEFONE_1 : string := "Telefone 1".

(** The registration keys of a table, in row order. *)
Definition keys (df : DataFrame) : list string := column df REGISTRO_ANS.

End Frame.
Import Frame.

(** ** Events performed by the scripts *)

Inductive event : Type :=
  | EFetch (key : string)            (* driver.get of the detail page of [key] *)
  | ESleep (ms : nat)                (* time.sleep, in milliseconds *)
  | ELog (ok : bool) (key : string)  (* tqdm.write: one line per record *)
  | ESave (df : DataFrame).          (* df_out.to_csv(OUTPUT_CSV, ...) *)

Definition is_save (e : event) : bool :=
  match e with ESave _ => true | _ => false end.

Definition is_log (e : event) : bool :=
  match e with ELog _ _ => true | _ => false end.

Definition is_fetch (e : event) : bool :=
  match e with EFetch _ => true | _ => false end.

(** The number of checkpoint writes of a trace, and for every checkpoint the
    number of records whose log line precedes it. *)
Definition saves (tr : list event) : nat := length (filter (fun e => is_save e = true) tr).

Fixpoint save_points (seen : nat) (tr : list event) : list nat :=
  match tr with
  | [] => []
  | ESave _ :: t => seen :: save_points seen t
  | ELog _ _ :: t => save_points (S seen) t
  | _ :: t => save_points seen t
  end.

Definition logs (tr : list event) : nat := length (filter (fun e => is_log e = true) tr).

(** The state of the loop of a stage's [main]: the table [df_out], the
    counter [processed_since_save], the number of calls of the stage's fetch
    function made so far and the events performed. *)
Record state : Type := {
  df : DataFrame;
  processed_since_save : nat;
  calls : nat;
  trace : list event
}.

Definition emit (e : event) (st : state) : state :=
  {| df := df st; processed_since_save := processed_since_save st;
     calls := calls st; trace := trace st ++ [e] |}.

Definition initial (df_out : DataFrame) : state :=
  {| df := df_out; processed_since_save := 0; calls := 0; trace := [] |}.

(** The cadence of a loop that adds one to the counter per record and writes
    a checkpoint, resetting the counter, when it reaches [batch]: the counter
    after one record, the counter after [len] records, and the records
    counts at which a checkpoint is written, [n] records having been logged
    before. *)
Definition next_counter (batch c : nat) : nat :=
  if decide (batch <= S c) then 0 else S c.

Fixpoint counter_after (batch c len : nat) : nat :=
  match len with
  | O => c
  | S len' => counter_after batch (next_counter batch c) len'
  end.

Fixpoint cadence (batch c n len : nat) : list nat :=
  match len with
  | O => []
  | S len' =>
      if decide (batch <= S c)
      then S n :: cadence batch 0 (S n) len'
      else cadence batch (S c) (S n) len'
  end.

(** One iteration of such a loop, from [st] to [st']: its events contain one
    log line, followed by a checkpoint exactly when the batch is full. *)
Definition paced (batch : nat) (st st' : state) : Prop :=
  exists evs,
    trace st' = trace st ++ evs /\
    logs evs = 1 /\
    (forall n, save_points n evs
               = if decide (batch <= S (processed_since_save st)) then [S n] else []) /\
    processed_since_save st' = next_counter batch (processed_since_save st).

(** ** get_cnpj.py: the CNPJ stage *)

Module GetCnpj.

Definition BATCH_SIZE : nat := 10.
Definition REQUEST_SLEEP_MS : nat := 500.

(** [CNPJ_REGEX = re.compile(r"\b\d{2}\.\d{3}\.\d{3}/\d{4}-\d{2}\b")]: between
    the two word boundaries the pattern is a fixed sequence of atoms. *)
Inductive atom : Type :=
  | Digit
  | Lit (c : ascii).

Definition CNPJ_ATOMS : list atom :=
  [Digit; Digit; Lit "."; Digit; Digit; Digit; Lit "."; Digit; Digit; Digit;
   Lit "/"; Digit; Digit; Digit; Digit; Lit "-"; Digit; Digit]%char.

Definition atom_matches (a : atom) (c : ascii) : bool :=
  match a with
  | Digit => Text.is_digit c
  | Lit x => Ascii.eqb x c
  end.

(** Matching the atoms at the head of the text: the matched characters and
    the rest of the text. *)
Fixpoint match_atoms (p : list atom) (l : list ascii) : option (list ascii * list ascii) :=
  match p with
  | [] => Some ([], l)
  | a :: p' =>
      match l with
      | [] => None
      | c :: t =>
          if atom_matches a c
          then match match_atoms p' t with
               | Some (m, rest) => Some (c :: m, rest)
               | None => None
               end
          else None
      end
  end.

Definition word (c : option ascii) : bool :=
  match c with Some x => Text.is_word x | None => false end.

(** [\b]: exactly one of the two neighbours is a word character. *)
Definition at_boundary (before after : option ascii) : bool :=
  xorb (word before) (word after).

(** A match of the whole pattern that starts at the head of [l], with
    [before] the character in front of it. *)
Definition match_here (before : option ascii) (l : list ascii) : option (list ascii) :=
  if at_boundary before (head l)
  then match match_atoms CNPJ_ATOMS l with
       | Some (m, rest) => if at_boundary (last m) (head rest) then Some m else None
       | None => None
       end
  else None.

(** [CNPJ_REGEX.search]: the leftmost position with a match. *)
Fixpoint search (before : option ascii) (l : list ascii) : option (list ascii) :=
  match match_here before l with
  | Some m => Some m
  | None =>
      match l with
      | [] => None
      | c :: t => search (Some c) t
      end
  end.

(** The text [pre ++ m ++ post] has a match [m] of the pattern right after
    [pre]: [m] follows the atoms and both ends are word boundaries. *)
Definition shaped (m : list ascii) : Prop :=
  Forall2 (fun a c => atom_matches a c = true) CNPJ_ATOMS m.

Definition occurs (pre m post : list ascii) : Prop :=
  shaped m /\
  at_boundary (last pre) (head (m ++ post)) = true /\
  at_boundary (last m) (head post) = true.

Definition extract_cnpj_text (text : string) : string :=
  match search None (list_ascii_of_string text) with
  | Some m => string_of_list_ascii m
  | None => ""
  end.

(** What the browser shows during one call of [fetch_cnpj]:
    - [get]: [driver.get(url)];
    - [by_id attempt]: the text of the element with id
      formConsulta:outCNPJ at the given attempt, or the exception of the wait
      ([TimeoutException] when the element is absent) or of reading it;
    - [by_label]: the same for the value cell next to the label CNPJ: ;
    - [page_source]: [driver.page_source]. *)
Record View : Type := {
  get : outcome unit;
  by_id : nat -> outcome string;
  by_label : outcome string;
  page_source : outcome string
}.

(** Strategy 1, lines 109-122: [for attempt in range(2)].  A refresh between
    the attempts swallows its own exceptions. [k] is the code after the
    loop. *)
Fixpoint by_id_attempts (v : View) (attempts : list nat) (k : outcome string)
  : outcome string :=
  match attempts with
  | [] => k
  | attempt :: more =>
      match by_id v attempt with
      | Return text =>
          let cnpj := extract_cnpj_text text in
          if Text.truthy cnpj then Return cnpj else by_id_attempts v more k
      | Raise e =>
          if is_Timeout_or_Stale e then by_id_attempts v more k else Raise e
      end
  end.

(** Strategy 3, lines 142-148: [except Exception] swallows everything. *)
Definition from_page_source (v : View) : outcome string :=
  match page_source v with
  | Return html =>
      let cnpj := extract_cnpj_text html in
      if Text.truthy cnpj then Return cnpj else Return ""
  | Raise _ => Return ""
  end.

(** Strategy 2, lines 125-139. *)
Definition from_label (v : View) (k : outcome string) : outcome string :=
  match by_label v with
  | Return text =>
      let cnpj := extract_cnpj_text text in
      if Text.truthy cnpj then Return cnpj else k
  | Raise e => if is_Timeout_or_Stale e then k else Raise e
  end.

Definition fetch_cnpj (v : View) : outcome string :=
  match get v with
  | Raise e => Raise e
  | Return _ => by_id_attempts v [0; 1] (from_label v (from_page_source v))
  end.

(** The three strategies on their own, as the docstring of [fetch_cnpj]
    lists them, and the first non-empty result of a chain. *)
Definition strategy1 (v : View) : string :=
  match by_id v 0 with
  | Return text =>
      if Text.truthy (extract_cnpj_text text) then extract_cnpj_text text
      else match by_id v 1 with
           | Return text' => extract_cnpj_text text'
           | Raise _ => ""
           end
  | Raise _ =>
      match by_id v 1 with
      | Return text' => extract_cnpj_text text'
      | Raise _ => ""
      end
  end.

Definition strategy2 (v : View) : string :=
  match by_label v with
  | Return text => extract_cnpj_text text
  | Raise _ => ""
  end.

Definition strategy3 (v : View) : string :=
  match page_source v with
  | Return html => extract_cnpj_text html
  | Raise _ => ""
  end.

Fixpoint first_non_empty (results : list string) : string :=
  match results with
  | [] => ""
  | r :: more => if Text.truthy r then r else first_non_empty more
  end.

(** No call of the view raises anything but the exceptions the strategies
    catch. *)
Definition quiet (v : View) : Prop :=
  get v = Return tt /\
  (forall n e, by_id v n = Raise e -> is_Timeout_or_Stale e = true) /\
  (forall e, by_label v = Raise e -> is_Timeout_or_Stale e = true).

(** [merge_with_existing], lines 66-85. [existing] is the content of
    OUTPUT_CSV when the file is there. *)
Definition agree (on : list string) (a b : row) : bool :=
  forallb (fun k => String.eqb (cell a k) (cell b k)) on.

(** [pd.merge(left, right[on + ["CNPJ"]], on=on, how="left")] followed by
    [fillna("")] on the column CNPJ: every left row, in order, once per
    matching right row, or once with an empty CNPJ when nothing matches. *)
Definition left_merge (on : list string) (left right : DataFrame) : DataFrame :=
  {| columns := columns left ++ [CNPJ];
     rows := l ← rows left;
             match filter (fun m => agree on l m = true) (rows right) with
             | [] => [<[CNPJ := ""]> l]
             | ms => (fun m : row => <[CNPJ := cell m CNPJ]> l) <$> ms
             end |}.

Definition merge_keys (df_in df_out : DataFrame) : list string :=
  match filter (fun c => c ∈ columns df_in /\ c ∈ columns df_out)
               [REGISTRO_ANS; RAZAO_SOCIAL; NOME_FANTASIA] with
  | [] => [REGISTRO_ANS]
  | ks => ks
  end.

Definition merge_with_existing (df_in : DataFrame) (existing : option DataFrame)
  : outcome DataFrame :=
  match existing with
  | None => Return (ensure_column CNPJ df_in)
  | Some old =>
      let df_out := ensure_column CNPJ old in
      let on := merge_keys df_in df_out in
      if decide (Forall (fun k => k ∈ columns df_out) on)
      then if decide (CNPJ ∈ columns df_in)
           then Raise KeyError   (* the merge names the columns CNPJ_x, CNPJ_y *)
           else Return (left_merge on df_in df_out)
      else Raise KeyError
  end.

(** [load_inputs], lines 57-63. *)
Definition load_inputs (input : option DataFrame) : outcome DataFrame :=
  match input with
  | None => Raise FileNotFoundError
  | Some df => if decide (REGISTRO_ANS ∈ columns df) then Return df else Raise ValueError
  end.

(** Line 165: [[i for i, v in enumerate(...) if not _clean(v)]]. *)
Definition pick (iv : nat * string) : list nat :=
  if Text.truthy (Text.clean iv.2) then [] else [iv.1].

Definition pending_idx (df_out : DataFrame) : list nat :=
  imap (fun i v => (i, v)) (column df_out CNPJ) ≫= pick.

(** One call [fetch_cnpj(driver, reg)], answered by the next view. *)
Definition call_fetch (web : nat -> View) (reg : string) (st : state)
  : outcome string * state :=
  (fetch_cnpj (web (calls st)),
   {| df := df st; processed_since_save := processed_since_save st;
      calls := S (calls st); trace := trace st ++ [EFetch reg] |}).

(** Lines 180-187: a second call when the first returns nothing; any
    exception of either call leaves [cnpj = ""]. *)
Definition try_fetch (web : nat -> View) (reg : string) (st : state) : string * state :=
  match call_fetch web reg st with
  | (Return cnpj, st1) =>
      if Text.truthy cnpj then (cnpj, st1)
      else match call_fetch web reg (emit (ESleep 1000) st1) with
           | (Return cnpj2, st2) => (cnpj2, st2)
           | (Raise _, st2) => ("", st2)
           end
  | (Raise _, st1) => ("", st1)
  end.

(** Lines 198-200. *)
Definition save_batch (st : state) : state :=
  if decide (BATCH_SIZE <= processed_since_save st)
  then {| df := df st; processed_since_save := 0; calls := calls st;
          trace := trace st ++ [ESave (df st)] |}
  else st.

(** Lines 177-202: the body of the loop for the row index [i]. *)
Definition step (web : nat -> View) (st : state) (i : nat) : state :=
  let reg := Text.clean (at_get (df st) i REGISTRO_ANS) in
  let '(cnpj, st1) := try_fetch web reg st in
  let st2 := {| df := at_set (df st1) i CNPJ cnpj;
                processed_since_save := S (processed_since_save st1);
                calls := calls st1;
                trace := trace st1 ++ [ELog (Text.truthy cnpj) reg] |} in
  emit (ESleep REQUEST_SLEEP_MS) (save_batch st2).

(** Lines 204-207. *)
Definition final_flush (st : state) : state :=
  if decide (0 < processed_since_save st)
  then emit (ESleep (REQUEST_SLEEP_MS * 3)) (emit (ESave (df st)) st)
  else st.

Definition run_loop (web : nat -> View) (df_out : DataFrame) (pending : list nat) : state :=
  final_flush (fold_left (step web) pending (initial df_out)).

(** [main], lines 156-211, in a run whose call of [make_driver] (line 174)
    returns; [GetCnpjRun.main] below has that call and its exception.
    [existing] is OUTPUT_CSV when present. When it is absent the table is
    written once before the loop. *)
Definition main (input existing : option DataFrame) (web : nat -> View)
  : outcome (DataFrame * list event) :=
  match load_inputs input with
  | Raise e => Raise e
  | Return df_base =>
      match merge_with_existing df_base existing with
      | Raise e => Raise e
      | Return df_out =>
          let first := match existing with None => [ESave df_out] | Some _ => [] end in
          match pending_idx df_out with
          | [] => Return (df_out, first)
          | pending =>
              let st := run_loop web df_out pending in
              Return (df st, first ++ trace st)
          end
      end
  end.

End GetCnpj.

(** ** get_cnpj_cnpjbiz.py: the address and phone stage *)

Module CnpjBiz.

Definition BATCH_SIZE : nat := 10.
Definition REQUEST_SLEEP_MS : nat := 1000.

Definition target_cols : list string :=
  [LOGRADOURO; COMPLEMENTO; BAIRRO; CEP; MUNICIPIO; ESTADO; TELEFONE_1].

(** The dictionary [out] that [parse_location_and_phone] returns: it is
    created with the seven keys below (lines 117-120) and only their values
    are ever assigned. *)
Record parsed : Type := {
  logradouro : string;
  complemento : string;
  bairro : string;
  cep : string;
  municipio : string;
  estado : string;
  telefone_1 : string
}.

(** [data.items()], in insertion order. *)
Definition items (p : parsed) : list (string * string) :=
  [(LOGRADOURO, logradouro p); (COMPLEMENTO, complemento p); (BAIRRO, bairro p);
   (CEP, cep p); (MUNICIPIO, municipio p); (ESTADO, estado p);
   (TELEFONE_1, telefone_1 p)].

(** Line 238: [{k: "" for k in [...]}]. *)
Definition empty_patch : list (string * string) :=
  (fun k => (k, "")) <$> target_cols.

(** What the browser shows during one call of [fetch_from_cnpjbiz]:
    [get] is [driver.get(url)], [ready] the wait for one of the three
    anchors, [page] the result of parsing [driver.page_source]. *)
Record View : Type := {
  get : outcome unit;
  ready : outcome unit;
  page : outcome parsed
}.

(** Lines 164-186: only the [TimeoutException] of the wait is caught. *)
Definition fetch_from_cnpjbiz (v : View) : outcome (list (string * string)) :=
  match get v with
  | Raise e => Raise e
  | Return _ =>
      let parse := match page v with
                   | Return p => Return (items p)
                   | Raise e => Raise e
                   end in
      match ready v with
      | Return _ => parse
      | Raise TimeoutException => parse
      | Raise e => Raise e
      end
  end.

(** Lines 206-208. *)
Definition is_pending (r : row) : bool :=
  existsb (fun c => negb (Text.truthy (Text.clean (cell r c)))) target_cols.

Definition pending_idx (df_out : DataFrame) : list nat :=
  filter (fun i => is_pending (default ∅ (rows df_out !! i)) = true)
         (seq 0 (length (rows df_out))).

Definition call_fetch (web : nat -> View) (cnpj_digits : string) (st : state)
  : outcome (list (string * string)) * state :=
  (fetch_from_cnpjbiz (web (calls st)),
   {| df := df st; processed_since_save := processed_since_save st;
      calls := S (calls st); trace := trace st ++ [EFetch cnpj_digits] |}).

(** Lines 230-238: one retry after a [TimeoutException] or
    [WebDriverException]; the retry turns any exception into the empty
    patch; another exception of the first call leaves the loop. *)
Definition try_fetch (web : nat -> View) (cnpj_digits : string) (st : state)
  : outcome (list (string * string)) * state :=
  match call_fetch web cnpj_digits st with
  | (Return data, st1) => (Return data, st1)
  | (Raise e, st1) =>
      if is_WebDriverException e
      then match call_fetch web cnpj_digits (emit (ESleep 1200) st1) with
           | (Return data, st2) => (Return data, st2)
           | (Raise _, st2) => (Return empty_patch, st2)
           end
      else (Raise e, st1)
  end.

(** Lines 241-242: [for k, v in data.items(): df_out.at[i, k] = clean(v)]. *)
Definition write_back (d : DataFrame) (i : nat) (data : list (string * string))
  : DataFrame :=
  fold_left (fun acc kv => at_set acc i kv.1 (Text.clean kv.2)) data d.

(** The counter update shared by both branches: lines 224-227 and
    249-252. *)
Definition count_and_save (st : state) : state :=
  let n := S (processed_since_save st) in
  if decide (BATCH_SIZE <= n)
  then {| df := df st; processed_since_save := 0; calls := calls st;
          trace := trace st ++ [ESave (df st)] |}
  else {| df := df st; processed_since_save := n; calls := calls st;
          trace := trace st |}.

(** Line 221: [not cnpj_digits or len(cnpj_digits) != 14]. *)
Definition invalid_cnpj (cnpj_digits : string) : bool :=
  negb (Text.truthy cnpj_digits) || negb (Nat.eqb (String.length cnpj_digits) 14).

(** Lines 218-254: the body of the loop for the row index [i]; [Some e] when
    the exception [e] leaves the loop. *)
Definition step (web : nat -> View) (st : state) (i : nat) : option exn * state :=
  let cnpj_masked := Text.clean (at_get (df st) i CNPJ) in
  let cnpj_digits := Text.only_digits cnpj_masked in
  if invalid_cnpj cnpj_digits
  then (None, count_and_save (emit (ELog false cnpj_masked) st))
  else match try_fetch web cnpj_digits st with
       | (Raise e, st1) => (Some e, st1)
       | (Return data, st1) =>
           let st2 := {| df := write_back (df st1) i data;
                         processed_since_save := processed_since_save st1;
                         calls := calls st1;
                         trace := trace st1 ++ [ELog true cnpj_digits] |} in
           (None, emit (ESleep REQUEST_SLEEP_MS) (count_and_save st2))
       end.

Fixpoint loop (web : nat -> View) (st : state) (pending : list nat)
  : option exn * state :=
  match pending with
  | [] => (None, st)
  | i :: more =>
      match step web st i with
      | (None, st') => loop web st' more
      | (Some e, st') => (Some e, st')
      end
  end.

(** Lines 256-258. *)
Definition final_flush (st : state) : state :=
  if decide (0 < processed_since_save st) then emit (ESave (df st)) st else st.

(** Lines 214-264: an exception skips the final write. *)
Definition run_loop (web : nat -> View) (df_out : DataFrame) (pending : list nat)
  : option exn * state :=
  match loop web (initial df_out) pending with
  | (None, st) => (None, final_flush st)
  | (Some e, st) => (Some e, st)
  end.

End CnpjBiz.

(** ** main.py: the pagination crawl *)

Module Crawler.

(** What the browser shows during one iteration of the loop of [main]:
    - [indicator]: the result of [get_current_and_total], [(None, None)]
      being [None];
    - [table]: the rows of [extract_page_data], or the exception of waiting
      for the table;
    - [next]: the result of [click_next_and_wait(driver, current + 1)]. *)
Record observation : Type := {
  indicator : option (Z * Z);
  table : outcome (list row);
  next : outcome bool
}.

Inductive stop : Type :=
  | Finished            (* line 158: total is None or current >= total *)
  | NextUnavailable     (* line 164: the button is disabled *)
  | Crashed (e : exn)   (* an exception left the loop *)
  | Running.            (* the iterations allowed did not end the loop *)

(** Line 158. *)
Definition last_page (current : Z) (total : option Z) : bool :=
  match total with
  | None => true
  | Some t => (t <=? current)%Z
  end.

(** Lines 145-166, at most [fuel] iterations, the first one being the
    iteration number [k]; the pages written, each with the index of its file
    name, and how the loop ended. *)
Fixpoint crawl (fuel : nat) (env : nat -> observation) (k : nat)
  : list (Z * list row) * stop :=
  match fuel with
  | O => ([], Running)
  | S fuel' =>
      let current := match indicator (env k) with Some (c, _) => c | None => 1%Z end in
      let total := snd <$> indicator (env k) in
      match table (env k) with
      | Raise e => ([], Crashed e)
      | Return data =>
          if last_page current total then ([(current, data)], Finished)
          else match next (env k) with
               | Raise e => ([(current, data)], Crashed e)
               | Return false => ([(current, data)], NextUnavailable)
               | Return true =>
                   let '(pages, s) := crawl fuel' env (S k) in
                   ((current, data) :: pages, s)
               end
      end
  end.

Definition current_of (o : observation) : Z :=
  match indicator o with Some (c, _) => c | None => 1%Z end.

End Crawler.

(** ** join.py: concatenation of the page shards *)

Module Join.

(** One CSV file of the directory: [page_index] is
    [int(os.path.basename(x).split("-")[0])], which raises [ValueError] when
    the prefix is not a number. *)
Record csv_file : Type := {
  page_index : outcome Z;
  content : DataFrame
}.

(** [arquivos.sort(key=...)]: the sort is stable. *)
Fixpoint insert_by_index (x : Z * DataFrame) (l : list (Z * DataFrame))
  : list (Z * DataFrame) :=
  match l with
  | [] => [x]
  | y :: t => if (y.1 <? x.1)%Z then y :: insert_by_index x t else x :: l
  end.

Definition sort_by_index (l : list (Z * DataFrame)) : list (Z * DataFrame) :=
  foldr insert_by_index [] l.

Fixpoint indexed (files : list csv_file) : outcome (list (Z * DataFrame)) :=
  match files with
  | [] => Return []
  | f :: more =>
      match page_index f with
      | Raise e => Raise e
      | Return n =>
          match indexed more with
          | Raise e => Raise e
          | Return l => Return ((n, content f) :: l)
          end
      end
  end.

(** [pd.concat(dfs, ignore_index=True)]: the union of the column labels in
    order of appearance, and the rows of every frame in order. *)
Definition concat (dfs : list DataFrame) : DataFrame :=
  {| columns := fold_left (fun acc d => acc ++ filter (fun c => c ∉ acc) (columns d))
                          dfs [];
     rows := d ← dfs; rows d |}.

(** Lines 8-19; [pd.concat] raises [ValueError] on an empty list. *)
Definition join (files : list csv_file) : outcome DataFrame :=
  match indexed files with
  | Raise e => Raise e
  | Return l =>
      match sort_by_index l with
      | [] => Raise ValueError
      | sorted => Return (concat (snd <$> sorted))
      end
  end.

End Join.

(** ** Concrete pages and tables used in the examples below *)

Module Examples.

Definition FORMATTED : string := "12.345.678/0001-90".

(** A detail page without the element formConsulta:outCNPJ, whose labelled
    cell holds the CNPJ. *)
Definition label_only_view : GetCnpj.View :=
  {| GetCnpj.get := Return tt;
     GetCnpj.by_id := fun _ => Raise TimeoutException;
     GetCnpj.by_label := Return FORMATTED;
     GetCnpj.page_source := Return "<td><label>CNPJ:</label></td><td><label>12.345.678/0001-90</label></td>" |}.

(** A page with neither anchor, the CNPJ standing in running text. *)
Definition text_only_view : GetCnpj.View :=
  {| GetCnpj.get := Return tt;
     GetCnpj.by_id := fun _ => Raise TimeoutException;
     GetCnpj.by_label := Raise TimeoutException;
     GetCnpj.page_source := Return "cadastro 12.345.678/0001-90 ativo" |}.

(** A page whose element formConsulta:outCNPJ holds another CNPJ than the
    labelled cell. *)
Definition other_id_view : GetCnpj.View :=
  {| GetCnpj.get := Return tt;
     GetCnpj.by_id := fun _ => Return "99.999.999/0001-99";
     GetCnpj.by_label := Return FORMATTED;
     GetCnpj.page_source := Return "" |}.

(** A browser whose page load fails. *)
Definition broken_view : GetCnpj.View :=
  {| GetCnpj.get := Raise WebDriverException;
     GetCnpj.by_id := fun _ => Raise TimeoutException;
     GetCnpj.by_label := Raise TimeoutException;
     GetCnpj.page_source := Return "" |}.

(** The table [[{key: "12345", name: "ACME"}]] after the load step. *)
Definition acme_row : row :=
  <[REGISTRO_ANS := "12345"]> (<[RAZAO_SOCIAL := "ACME"]> (<[CNPJ := ""]> ∅)).

Definition acme : DataFrame :=
  {| columns := [REGISTRO_ANS; RAZAO_SOCIAL; CNPJ]; rows := [acme_row] |}.

(** A site that cannot be reached, and a page of the second site. *)
Definition down_view : CnpjBiz.View :=
  {| CnpjBiz.get := Raise TimeoutException;
     CnpjBiz.ready := Raise TimeoutException;
     CnpjBiz.page := Raise OtherError |}.

Definition rua_a : CnpjBiz.parsed :=
  {| CnpjBiz.logradouro := "Rua A"; CnpjBiz.complemento := "";
     CnpjBiz.bairro := "Centro"; CnpjBiz.cep := "01000-000";
     CnpjBiz.municipio := "Sao Paulo"; CnpjBiz.estado := "SP";
     CnpjBiz.telefone_1 := "" |}.

Definition rua_a_view : CnpjBiz.View :=
  {| CnpjBiz.get := Return tt;
     CnpjBiz.ready := Return tt;
     CnpjBiz.page := Return rua_a |}.



(** A record with its address collected and its phone still missing. *)
Definition partly_filled_row : row :=
  <[REGISTRO_ANS := "12345"]>
    (<[CNPJ := FORMATTED]> (<[LOGRADOURO := "Rua A"]> (<[TELEFONE_1 := ""]> ∅))).

Definition partly_filled : DataFrame :=
  {| columns := REGISTRO_ANS :: CNPJ :: CnpjBiz.target_cols;
     rows := [partly_filled_row] |}.

(** Twenty-five pending records for either stage. *)
Definition acme25 : DataFrame :=
  {| columns := columns acme; rows := replicate 25 acme_row |}.




(** A listing of three pages that advances by one page per click. *)
Definition three_pages (k : nat) : Crawler.observation :=
  {| Crawler.indicator := Some (Z.of_nat k + 1, 3)%Z;
     Crawler.table := Return [acme_row];
     Crawler.next := Return true |}.

(** Two page files that list the same operator, and a checkpoint that holds
    a record twice. *)
Definition base : DataFrame :=
  {| columns := [REGISTRO_ANS; RAZAO_SOCIAL]; rows := [delete CNPJ acme_row] |}.

Definition shard (n : Z) : Join.csv_file :=
  {| Join.page_index := Return n; Join.content := base |}.

Definition doubled : DataFrame :=
  {| columns := columns acme; rows := [acme_row; acme_row] |}.

End Examples.

(** Two page files with three operators, a base table of two records and a
    checkpoint that holds the CNPJ of the first. *)
Module KeyExamples.

Definition row_a : row := <[REGISTRO_ANS := "12345"]> (<[RAZAO_SOCIAL := "ACME"]> ∅).
Definition row_b : row := <[REGISTRO_ANS := "67890"]> (<[RAZAO_SOCIAL := "BETA"]> ∅).
Definition row_c : row := <[REGISTRO_ANS := "11111"]> (<[RAZAO_SOCIAL := "GAMA"]> ∅).

Definition page1 : Join.csv_file :=
  {| Join.page_index := Return 1%Z;
     Join.content := {| columns := [REGISTRO_ANS; RAZAO_SOCIAL]; rows := [row_a; row_b] |} |}.

Definition page2 : Join.csv_file :=
  {| Join.page_index := Return 2%Z;
     Join.content := {| columns := [REGISTRO_ANS; RAZAO_SOCIAL]; rows := [row_c] |} |}.

Definition two_base : DataFrame :=
  {| columns := [REGISTRO_ANS; RAZAO_SOCIAL]; rows := [row_a; row_b] |}.

Definition two_checkpoint : DataFrame :=
  {| columns := [REGISTRO_ANS; RAZAO_SOCIAL; CNPJ];
     rows := [<[CNPJ := Examples.FORMATTED]> row_a; <[CNPJ := ""]> row_b] |}.

End KeyExamples.

(** ** Observations on texts and traces *)

(** The characters of a text that are not whitespace, in order. *)
Definition inked (l : list ascii) : list ascii :=
  filter (fun c => Text.is_space c = false) l.


(** The table of the last checkpoint written, if any. *)
Definition saved (tr : list event) : list DataFrame :=
  omap (fun e => match e with ESave d => Some d | _ => None end) tr.

Definition last_saved (tr : list event) : option DataFrame := last (saved tr).

Definition fetches (tr : list event) : nat := length (filter (fun e => is_fetch e = true) tr).

(** Pacing of the page loads: [ready] says that no page was loaded since the
    last pause of at least [min] milliseconds (or at all); a page load needs
    [ready]. *)
Fixpoint rate_limited (min : nat) (ready : bool) (tr : list event) : bool :=
  match tr with
  | [] => true
  | EFetch _ :: t => ready && rate_limited min false t
  | ESleep ms :: t => rate_limited min (ready || Nat.leb min ms) t
  | _ :: t => rate_limited min ready t
  end.

Fixpoint ready_after (min : nat) (ready : bool) (tr : list event) : bool :=
  match tr with
  | [] => ready
  | EFetch _ :: t => ready_after min false t
  | ESleep ms :: t => ready_after min (ready || Nat.leb min ms) t
  | _ :: t => ready_after min ready t
  end.

(** The number of digits a pattern asks for, and the atoms that are a digit
    or a literal character that is neither whitespace nor a digit. *)
Definition is_Digit (a : GetCnpj.atom) : bool :=
  match a with GetCnpj.Digit => true | GetCnpj.Lit _ => false end.

Definition digit_atoms (p : list GetCnpj.atom) : nat :=
  length (filter (fun a => is_Digit a = true) p).

Definition plain_atom (a : GetCnpj.atom) : Prop :=
  match a with
  | GetCnpj.Digit => True
  | GetCnpj.Lit x => Text.is_space x = false /\ Text.is_digit x = false
  end.

(** A trace that respects the pacing and after which a page may be loaded. *)
Definition well_paced (min : nat) (tr : list event) : Prop :=
  rate_limited min true tr = true /\ ready_after min true tr = true.

(** A table that holds the rows of [base], in order, each with a cell CNPJ
    added: what the CNPJ stage keeps for the input [base]. *)
Definition checkpoint_of (base d : DataFrame) : Prop :=
  columns d = columns base ++ [CNPJ] /\
  exists vs, length vs = length (rows base) /\
             rows d = zip_with (fun (l : row) v => <[CNPJ := v]> l) (rows base) vs.

(** ** get_cnpj.py: [main] with the start of the browser *)

Module GetCnpjRun.

(** Lines 156-217. [make_driver] is what the call of line 174 does; it is
    made only when some record is pending, after the first write of the
    table, and outside the [try]: an exception of it leaves [main]. Inside
    the [try] the loop catches the exceptions of the fetches, and the
    [finally] clause catches those of [driver.quit()]. *)
Definition main (input existing : option DataFrame) (make_driver : outcome unit)
           (web : nat -> GetCnpj.View)
  : outcome (DataFrame * list event) :=
  match GetCnpj.load_inputs input with
  | Raise e => Raise e
  | Return df_base =>
      match GetCnpj.merge_with_existing df_base existing with
      | Raise e => Raise e
      | Return df_out =>
          let first := match existing with None => [ESave df_out] | Some _ => [] end in
          match GetCnpj.pending_idx df_out with
          | [] => Return (df_out, first)
          | pending =>
              match make_driver with
              | Raise e => Raise e
              | Return _ =>
                  let st := GetCnpj.run_loop web df_out pending in
                  Return (df st, first ++ trace st)
              end
          end
      end
  end.

End GetCnpjRun.

(** ** main.py: reading the page indicator *)

Module Paginator.

(** [int] of a run of decimal digits. *)
Definition digit_value (c : ascii) : Z := (Z.of_N (Text.code c) - 48)%Z.

Definition int_of_digits (ds : list ascii) : Z :=
  fold_left (fun acc c => (10 * acc + digit_value c)%Z) ds 0%Z.

(** The longest run of digits at the head of the text, and the rest: what a
    greedy [\d+] takes. *)
Fixpoint span_digits (l : list ascii) : list ascii * list ascii :=
  match l with
  | [] => ([], [])
  | c :: t =>
      if Text.is_digit c
      then let '(ds, rest) := span_digits t in (c :: ds, rest)
      else ([], l)
  end.

(** A match of [(\d+)\s*de\s*(\d+)] that starts at the head of the text.
    Each greedy part takes all it can: a shorter run of digits would be
    followed by a digit, a shorter run of whitespace by whitespace, and
    neither can start what comes next in the pattern. *)
Definition match_here (l : list ascii) : option (Z * Z) :=
  match span_digits l with
  | ([], _) => None
  | (d1, r1) =>
      match Text.lstrip r1 with
      | x :: y :: r2 =>
          if Ascii.eqb x "d" && Ascii.eqb y "e"
          then match span_digits (Text.lstrip r2) with
               | ([], _) => None
               | (d2, _) => Some (int_of_digits d1, int_of_digits d2)
               end
          else None
      | _ => None
      end
  end.

(** [re.search]: the leftmost position with a match. *)
Fixpoint search (l : list ascii) : option (Z * Z) :=
  match match_here l with
  | Some r => Some r
  | None =>
      match l with
      | [] => None
      | _ :: t => search t
      end
  end.

(** Lines 45-53; [(None, None)] is [None]. *)
Definition parse_current_total (texto : string) : option (Z * Z) :=
  search (list_ascii_of_string texto).

(** Lines 55-62: [span] is the text of the indicator, or the exception of
    waiting for it; only the [TimeoutException] is caught. *)
Definition get_current_and_total (span : outcome string) : outcome (option (Z * Z)) :=
  match span with
  | Return text =>
      Return (parse_current_total
                (string_of_list_ascii (Text.strip (list_ascii_of_string text))))
  | Raise TimeoutException => Return None
  | Raise e => Raise e
  end.

(** A label of the form digits, whitespace, "de", whitespace, digits between
    a text [pre] and a text [post]. *)
Definition label (pre d1 ws1 ws2 d2 post : list ascii) : list ascii :=
  pre ++ d1 ++ ws1 ++ ["d"; "e"]%char ++ ws2 ++ d2 ++ post.

Definition digits (ds : list ascii) : Prop :=
  ds <> [] /\ Forall (fun c => Text.is_digit c = true) ds.

Definition spaces (ws : list ascii) : Prop :=
  Forall (fun c => Text.is_space c = true) ws.


End Paginator.

(** ** join.py: the names of the page files *)

Module JoinDir.

(** [f.endswith(".csv")] *)
Definition ends_with_csv (name : string) : bool :=
  match rev (list_ascii_of_string name) with
  | "v"%char :: "s"%char :: "c"%char :: "."%char :: _ => true
  | _ => false
  end.

(** [name.split("-")[0]]: the name up to its first hyphen. *)
Fixpoint before_dash (l : list ascii) : list ascii :=
  match l with
  | [] => []
  | c :: t => if Ascii.eqb c "-" then [] else c :: before_dash t
  end.

(** The whitespace that [int] accepts around a number: U+0009..U+000D,
    U+0020, U+0085 and U+00A0 below 256. *)
Definition is_int_space (c : ascii) : bool :=
  let n := Text.code c in
  ((9 <=? n) && (n <=? 13) || (n =? 32) || (n =? 133) || (n =? 160))%N.

Fixpoint drop_int_space (l : list ascii) : list ascii :=
  match l with
  | [] => []
  | c :: t => if is_int_space c then drop_int_space t else l
  end.

(** The digits of a decimal literal: digits with single underscores between
    them; [after_digit] says that the previous character was a digit. The
    result is the value so far. *)
Fixpoint literal (acc : Z) (after_digit : bool) (l : list ascii) : option Z :=
  match l with
  | [] => if after_digit then Some acc else None
  | c :: t =>
      if Text.is_digit c
      then literal (10 * acc + Paginator.digit_value c)%Z true t
      else if Ascii.eqb c "_" && after_digit
           then match t with
                | d :: _ => if Text.is_digit d then literal acc false t else None
                | [] => None
                end
           else None
  end.

(** [int(s)] for a [str], base 10: whitespace around, an optional sign, the
    literal. (Names of directory entries are far shorter than the 4300
    digits above which [int] refuses a text.) *)
Definition int_of_str (l : list ascii) : outcome Z :=
  let body := rev (drop_int_space (rev (drop_int_space l))) in
  let signed :=
    match body with
    | c :: t =>
        if Ascii.eqb c "-" then (true, t)
        else if Ascii.eqb c "+" then (false, t)
        else (false, body)
    | [] => (false, body)
    end in
  match literal 0 false signed.2 with
  | Some n => Return (if signed.1 then (- n)%Z else n)
  | None => Raise ValueError
  end.

(** Line 11: [int(os.path.basename(x).split("-")[0])], for a name that
    [os.listdir] gave. *)
Definition page_index_of (name : string) : outcome Z :=
  int_of_str (before_dash (list_ascii_of_string name)).

Definition csv_file_of (entry : string * DataFrame) : Join.csv_file :=
  {| Join.page_index := page_index_of entry.1; Join.content := entry.2 |}.

(** Lines 8-19 on a directory given as its entries, each with the table that
    [pd.read_csv] reads from it. *)
Definition join_dir (dir : list (string * DataFrame)) : outcome DataFrame :=
  Join.join (csv_file_of <$> filter (fun entry => ends_with_csv entry.1 = true) dir).

(** The name of the file that join.py writes. *)
Definition OUTPUT_NAME : string := "registro-ans-unificado.csv".

(** Line 154 of main.py: the name of the file of a page, from the digits of
    its number and the date. *)
Definition page_file_name (number date : list ascii) : string :=
  string_of_list_ascii (number ++ ["-"%char] ++ date ++ list_ascii_of_string ".csv").

End JoinDir.

(** ** get_cnpj_cnpjbiz.py: the load step *)

Module CnpjBizLoad.

(** Lines 77-86. *)
Definition ensure_output_columns (d : DataFrame) : DataFrame :=
  fold_left (fun out c => ensure_column c out) CnpjBiz.target_cols d.

(** Lines 100-102: the labels among Registro ANS and CNPJ that both tables
    have; failing that, CNPJ if both have it, else the first column of
    [df_out]. *)
Definition load_keys (df_out old : DataFrame) : list string :=
  match filter (fun k => k ∈ columns df_out /\ k ∈ columns old) [REGISTRO_ANS; CNPJ] with
  | [] =>
      if decide (CNPJ ∈ columns df_out /\ CNPJ ∈ columns old) then [CNPJ]
      else take 1 (columns df_out)
  | ks => ks
  end.

(** Lines 106-109 on one merged row: [l] is the row of [df_out], [m] the
    matching row of the checkpoint, whose target columns the merge names
    with the suffix "_old"; without a match these are NaN, and [fillna]
    makes them empty. A target cell keeps its value when that is not empty
    and takes the old one otherwise. *)
Definition old_value (m : option row) (c : string) : string :=
  match m with Some r => cell r c | None => "" end.

Definition keep_or_old (l : row) (m : option row) : row :=
  fold_left
    (fun acc c => <[c := if Text.truthy (cell l c) then cell l c else old_value m c]> acc)
    CnpjBiz.target_cols l.

(** [pd.merge(df_out, old[keys + cols_to_bring], on=keys, how="left",
    suffixes=("", "_old"))] followed by the loop of lines 106-109. *)
Definition merged_rows (keys : list string) (df_out old : DataFrame) : list row :=
  l ← rows df_out;
  match filter (fun m => GetCnpj.agree keys l m = true) (rows old) with
  | [] => [keep_or_old l None]
  | ms => (fun m => keep_or_old l (Some m)) <$> ms
  end.

Definition old_label (c : string) : string := String.append c "_old".

(** Lines 88-110. pandas refuses the merge in three cases: a key that is
    not a column of the checkpoint (KeyError); a key that is also one of the
    target columns, which the selection [old[keys + cols_to_bring]] then
    holds twice (ValueError, the label is not unique); a column of [df_out]
    already named like a suffixed target column (MergeError, a subclass of
    ValueError). *)
Definition merge_with_existing (df_in : DataFrame) (existing : option DataFrame)
  : outcome DataFrame :=
  let df_out := ensure_output_columns df_in in
  match existing with
  | None => Return df_out
  | Some old0 =>
      let old := ensure_output_columns old0 in
      let keys := load_keys df_out old in
      if decide (Forall (fun k => k ∈ columns old) keys)
      then if decide (Forall (fun k => k ∉ CnpjBiz.target_cols) keys /\
                      Forall (fun c => old_label c ∉ columns df_out) CnpjBiz.target_cols)
           then Return {| columns := columns df_out;
                          rows := merged_rows keys df_out old |}
           else Raise ValueError
      else Raise KeyError
  end.

(** Lines 192-199 of [main]: [input] is INPUT_CSV when the file is there,
    [existing] OUTPUT_CSV. *)
Definition load (input existing : option DataFrame) : outcome DataFrame :=
  match input with
  | None => Raise FileNotFoundError
  | Some df_in =>
      if decide (CNPJ ∈ columns df_in) then merge_with_existing df_in existing
      else Raise ValueError
  end.

End CnpjBizLoad.

(** A checkpoint of the address and phone stage with a complete record, and
    the row of [Examples.base] once the target columns are there. *)
Module LoadExamples.

Definition complete_row : row :=
  <[REGISTRO_ANS := "12345"]>
    (<[LOGRADOURO := "Rua A"]>
       (<[COMPLEMENTO := "Sala 1"]>
          (<[BAIRRO := "Centro"]>
             (<[CEP := "01000-000"]>
                (<[MUNICIPIO := "Sao Paulo"]>
                   (<[ESTADO := "SP"]> (<[TELEFONE_1 := "(11) 1234-5678"]> ∅))))))).

Definition complete : DataFrame :=
  {| columns := REGISTRO_ANS :: CnpjBiz.target_cols; rows := [complete_row] |}.

Definition blank_row : row :=
  fold_left (fun (acc : row) c => <[c := ""]> acc) CnpjBiz.target_cols
            (delete CNPJ Examples.acme_row).

End LoadExamples.
(** ** get-operadora.py: one query of the JSON endpoint per record *)

From Stdlib Require DecimalString.

Module Operadora.

Definition ERRO : string := "erro".

(** [f"HTTP {resp.status_code}"], the status code being an [int]. *)
Definition http_message (status_code : Z) : string :=
  String.append "HTTP " (DecimalString.NilZero.string_of_int (Z.to_int status_code)).

Section Values.

(** The cells of the input table and the values of the JSON objects are
    Python values of any kind; the script builds strings only. *)
Context {V : Type} (of_str : string -> V).

(** What [resp.json()] does: it raises (the body is no JSON text; [msg] is
    [str(e)]), or returns an object, or another JSON value (a list, a
    string, a number, [null]). *)
Inductive body : Type :=
  | JsonRaises (msg : string)
  | JsonObject (o : gmap string V)
  | JsonOther.

(** What [requests.get] does: it raises an [Exception] [e] with
    [str(e) = msg], or returns a response. *)
Inductive reply : Type :=
  | GetRaises (msg : string)
  | Response (status_code : Z) (json : body).

(** A Python value that is a mapping, or one that is not. *)
Inductive value : Type :=
  | Mapping (o : gmap string V)
  | NoMapping.

(** Lines 13-22. *)
Definition fetch_ans_data (r : reply) : value :=
  match r with
  | GetRaises msg => Mapping {[ ERRO := of_str msg ]}
  | Response status_code json =>
      if (status_code =? 200)%Z
      then match json with
           | JsonRaises msg => Mapping {[ ERRO := of_str msg ]}
           | JsonObject o => Mapping o
           | JsonOther => NoMapping
           end
      else Mapping {[ ERRO := of_str (http_message status_code) ]}
  end.

Inductive event : Type :=
  | Request (registro : V)                  (* requests.get of the URL of [registro] *)
  | Sleep (ms : nat)                        (* time.sleep, in milliseconds *)
  | Save (results : list (gmap string V)).  (* pd.DataFrame(results).to_csv(OUTPUT, ...) *)

Record state : Type :=
  { results : list (gmap string V);
    calls : nat;
    trace : list event }.

Definition initial : state := {| results := []; calls := 0; trace := [] |}.

(** Lines 30-34, one iteration. [row["Registro ANS"]] raises a KeyError
    when the table has no such column; [{**row.to_dict(), **data}] raises a
    TypeError, which [exn] counts as [OtherError], when [data] is no
    mapping, and else holds the items of [row] overridden by those of
    [data]. *)
Definition step (web : nat -> reply) (row : gmap string V) (st : state)
  : state * option exn :=
  match row !! REGISTRO_ANS with
  | None => (st, Some KeyError)
  | Some registro =>
      let requested :=
        {| results := results st; calls := S (calls st);
           trace := trace st ++ [Request registro] |} in
      match fetch_ans_data (web (calls st)) with
      | NoMapping => (requested, Some OtherError)
      | Mapping data =>
          ({| results := results requested ++ [data ∪ row];
              calls := calls requested;
              trace := trace requested ++ [Sleep 800] |}, None)
      end
  end.

(** Lines 29-34. *)
Fixpoint run_loop (web : nat -> reply) (rows : list (gmap string V)) (st : state)
  : state * option exn :=
  match rows with
  | [] => (st, None)
  | row :: rest =>
      match step web row st with
      | (st', None) => run_loop web rest st'
      | failed => failed
      end
  end.

(** Lines 24-38: [input] is the table read from INPUT, when the file is
    there. The result is what the script did and the exception that ended
    it, if any. *)
Definition main (web : nat -> reply) (input : option (list (gmap string V)))
  : list event * option exn :=
  match input with
  | None => ([], Some FileNotFoundError)
  | Some rows =>
      match run_loop web rows initial with
      | (st, None) => (trace st ++ [Save (results st)], None)
      | (st, Some e) => (trace st, Some e)
      end
  end.

Definition is_save (e : event) : bool :=
  match e with Save _ => true | _ => false end.

(** One request per record, each followed by a pause of 0.8 s. *)
Definition paced_requests (rows : list (gmap string V)) : list event :=
  rows ≫= (fun row => match row !! REGISTRO_ANS with
                      | Some registro => [Request registro; Sleep 800]
                      | None => []
                      end).

End Values.

Arguments body : clear implicits.
Arguments reply : clear implicits.
Arguments value : clear implicits.
Arguments event : clear implicits.
Arguments state : clear implicits.

End Operadora.

(** An input of two records, one answered by an object and one by a status
    404. *)
Module OperadoraExamples.

Definition two_rows : list (gmap string string) :=
  [ {[ REGISTRO_ANS := "12345"; CNPJ := "12.345.678/0001-90" ]};
    {[ REGISTRO_ANS := "67890"; CNPJ := "" ]} ].

Definition answers (k : nat) : Operadora.reply string :=
  match k with
  | O => Operadora.Response 200 (Operadora.JsonObject {[ "razao_social" := "ACME" ]})
  | _ => Operadora.Response 404 Operadora.JsonOther
  end.

Definition list_answer (k : nat) : Operadora.reply string :=
  Operadora.Response 200 Operadora.JsonOther.

End OperadoraExamples.

(** ** The definitions on small inputs *)

Section Evaluation.

Example clean_collapses : Text.clean "  Rua   das Flores  " = "Rua das Flores".
Proof. reflexivity. Qed.

Example clean_tabs_and_newlines :
  Text.clean (String (ascii_of_nat 9) (String "a" (String (ascii_of_nat 10) "b"))) = "a b".
Proof. reflexivity. Qed.

Example only_digits_of_cnpj : Text.only_digits "12.345.678/0001-90" = "12345678000190".
Proof. reflexivity. Qed.

Example extract_in_text :
  GetCnpj.extract_cnpj_text "CNPJ: 12.345.678/0001-90 (matriz)" = "12.345.678/0001-90".
Proof. reflexivity. Qed.

Example extract_needs_boundary :
  GetCnpj.extract_cnpj_text "x12.345.678/0001-90" = "" /\
  GetCnpj.extract_cnpj_text "12.345.678/0001-901" = "".
Proof. split; reflexivity. Qed.

Example extract_leftmost :
  GetCnpj.extract_cnpj_text "11.111.111/0001-11 e 22.222.222/0001-22" = "11.111.111/0001-11".
Proof. reflexivity. Qed.

Example pending_of_acme :
  GetCnpj.pending_idx Examples.acme = [0] /\
  CnpjBiz.pending_idx Examples.partly_filled = [0].
Proof. by vm_compute. Qed.

Example crawl_three_pages :
  (Crawler.crawl 5 Examples.three_pages 0).1.*1 = [1; 2; 3]%Z /\
  (Crawler.crawl 5 Examples.three_pages 0).2 = Crawler.Finished.
Proof. by vm_compute. Qed.

Example cadence_of_25 :
  cadence 10 0 0 25 = [10; 20] /\ counter_after 10 0 25 = 5.
Proof. by vm_compute. Qed.

Example join_sorts_by_page :
  match Join.join [Examples.shard 2; Examples.shard 1] with
  | Return d => length (rows d) = 2
  | Raise _ => False
  end.
Proof. by vm_compute. Qed.

Example main_on_one_record :
  match GetCnpj.main (Some Examples.base) None (fun _ => Examples.label_only_view) with
  | Return (d, tr) => at_get d 0 CNPJ = "12.345.678/0001-90" /\ saves tr = 2
  | Raise _ => False
  end.
Proof. by vm_compute. Qed.

Example main_without_input :
  GetCnpj.main None None (fun _ => Examples.label_only_view) = Raise FileNotFoundError.
Proof. reflexivity. Qed.

Example skip_then_fetch :
  save_points 0 (trace (CnpjBiz.run_loop (fun _ => Examples.rua_a_view)
                                         Examples.partly_filled [0]).2) = [1].
Proof. by vm_compute. Qed.

End Evaluation.

(** * Properties *)

(** ** Whitespace normalisation *)

Section TextFacts.
Import Text.

Lemma is_space_space : is_space space = true.
Proof. reflexivity. Qed.

Lemma sub_spaces_spaced (l : list ascii) :
  forall b, spaced b (sub_spaces b l) = true.
Proof.
  induction l as [|c t IH]; intros b; simpl; [reflexivity|].
  destruct (is_space c) eqn:Hc.
  - destruct b; [apply IH|].
    change (spaced false (space :: sub_spaces true t))
      with (spaced true (sub_spaces true t)). apply IH.
  - simpl. rewrite Hc. apply IH.
Qed.

Lemma spaced_sub_spaces_id (l : list ascii) :
  forall b, spaced b l = true -> sub_spaces b l = l.
Proof.
  induction l as [|c t IH]; intros b H; simpl in *; [reflexivity|].
  destruct (is_space c) eqn:Hc.
  - apply andb_prop in H as [H Ht]. apply andb_prop in H as [Hb Heq].
    destruct b; [discriminate|].
    apply Ascii.eqb_eq in Heq. subst c. f_equal. by apply IH.
  - f_equal. by apply IH.
Qed.

Lemma spaced_weaken (l : list ascii) :
  spaced true l = true -> spaced false l = true.
Proof.
  destruct l as [|c t]; simpl; [done|].
  destruct (is_space c); [discriminate|done].
Qed.

Lemma spaced_any (b : bool) (l : list ascii) :
  spaced b l = true -> spaced false l = true.
Proof. destruct b; [apply spaced_weaken|done]. Qed.

Lemma spaced_lstrip (l : list ascii) :
  forall b, spaced b l = true -> spaced false (lstrip l) = true.
Proof.
  induction l as [|c t IH]; intros b H; simpl in *; [reflexivity|].
  destruct (is_space c) eqn:Hc.
  - apply andb_prop in H as [_ Ht]. by apply (IH true).
  - simpl. by rewrite Hc.
Qed.

Lemma spaced_rstrip (l : list ascii) :
  forall b, spaced b l = true -> spaced b (rstrip l) = true.
Proof.
  induction l as [|c t IH]; intros b H; simpl in *; [reflexivity|].
  destruct (is_space c) eqn:Hc.
  - apply andb_prop in H as [H Ht]. specialize (IH true Ht).
    destruct (rstrip t) as [|a r]; [reflexivity|].
    change (spaced b (c :: a :: r)) with
      (if is_space c then negb b && Ascii.eqb c space && spaced true (a :: r)
       else spaced false (a :: r)).
    rewrite Hc, H. exact IH.
  - specialize (IH false H).
    destruct (rstrip t) as [|a r]; simpl; rewrite Hc; [reflexivity|exact IH].
Qed.

Lemma lstrip_no_leading (l : list ascii) : no_leading_space (lstrip l).
Proof.
  induction l as [|c t IH]; simpl; [done|].
  destruct (is_space c) eqn:Hc; [exact IH|exact Hc].
Qed.

Lemma rstrip_no_trailing (l : list ascii) : no_trailing_space (rstrip l).
Proof.
  unfold no_trailing_space.
  induction l as [|c t IH]; simpl; [done|].
  destruct (rstrip t) as [|a r].
  - destruct (is_space c) eqn:Hc; simpl; [done|exact Hc].
  - exact IH.
Qed.

Lemma rstrip_keeps_no_leading (l : list ascii) :
  no_leading_space l -> no_leading_space (rstrip l).
Proof.
  destruct l as [|c t]; simpl; [done|]. intros Hc.
  destruct (rstrip t); [by rewrite Hc|exact Hc].
Qed.

Lemma lstrip_id (l : list ascii) : no_leading_space l -> lstrip l = l.
Proof. destruct l as [|c t]; simpl; [done|]. by intros ->. Qed.

Lemma rstrip_id (l : list ascii) : no_trailing_space l -> rstrip l = l.
Proof.
  unfold no_trailing_space.
  induction l as [|c t IH]; simpl; [done|].
  destruct t as [|a r].
  - simpl. by intros ->.
  - intros H. rewrite IH by exact H. reflexivity.
Qed.

Lemma spaced_no_adjacent (l : list ascii) :
  forall b, spaced b l = true -> no_adjacent_spaces l.
Proof.
  induction l as [|c t IH]; intros b H i x y Hx Hy [Sx Sy].
  - discriminate.
  - destruct i as [|i]; simpl in *.
    + injection Hx as ->. destruct t as [|d t']; [discriminate|].
      injection Hy as ->. rewrite Sx in H.
      apply andb_prop in H as [_ H]. simpl in H. rewrite Sy in H. discriminate.
    + assert (Ht : exists b', spaced b' t = true).
      { destruct (is_space c); [|by eexists].
        apply andb_prop in H as [_ H]. by eexists. }
      destruct Ht as [b' Ht]. exact (IH b' Ht i x y Hx Hy (conj Sx Sy)).
Qed.

Lemma clean_chars_spaced (l : list ascii) : spaced false (clean_chars l) = true.
Proof.
  unfold clean_chars, strip.
  apply spaced_rstrip, (spaced_lstrip _ false), sub_spaces_spaced.
Qed.

Lemma clean_chars_no_leading (l : list ascii) : no_leading_space (clean_chars l).
Proof. apply rstrip_keeps_no_leading, lstrip_no_leading. Qed.

Lemma clean_chars_no_trailing (l : list ascii) : no_trailing_space (clean_chars l).
Proof. apply rstrip_no_trailing. Qed.

Lemma clean_chars_fixed (l : list ascii) :
  spaced false l = true -> no_leading_space l -> no_trailing_space l ->
  clean_chars l = l.
Proof.
  intros Hs Hl Ht. unfold clean_chars, strip.
  rewrite (spaced_sub_spaces_id l false Hs), (lstrip_id l Hl).
  by apply rstrip_id.
Qed.

Lemma clean_chars_idempotent (l : list ascii) :
  clean_chars (clean_chars l) = clean_chars l.
Proof.
  apply clean_chars_fixed;
    [apply clean_chars_spaced|apply clean_chars_no_leading|apply clean_chars_no_trailing].
Qed.

Lemma chars_of_clean (s : string) :
  list_ascii_of_string (clean s) = clean_chars (list_ascii_of_string s).
Proof. unfold clean. apply list_ascii_of_string_of_list_ascii. Qed.

(** C10. Whitespace normalisation is idempotent, and its result has no
    whitespace at either end and no two whitespace characters in a row. *)
Theorem clean_idempotent (s : string) :
  clean (clean s) = clean s /\
  no_leading_space (list_ascii_of_string (clean s)) /\
  no_trailing_space (list_ascii_of_string (clean s)) /\
  no_adjacent_spaces (list_ascii_of_string (clean s)).
Proof.
  repeat split.
  - unfold clean at 1. rewrite chars_of_clean, clean_chars_idempotent. reflexivity.
  - rewrite chars_of_clean. apply clean_chars_no_leading.
  - rewrite chars_of_clean. apply clean_chars_no_trailing.
  - rewrite chars_of_clean. apply (spaced_no_adjacent _ false), clean_chars_spaced.
Qed.

End TextFacts.

(** ** The pending set *)

Section PendingFacts.
Import Text.

Lemma sub_spaces_blank (l : list ascii) :
  forall b, forallb is_space (sub_spaces b l) = forallb is_space l.
Proof.
  induction l as [|c t IH]; intros b; simpl; [reflexivity|].
  destruct (is_space c) eqn:Hc; simpl.
  - destruct b; simpl; rewrite ?is_space_space; apply IH.
  - by rewrite Hc.
Qed.

Lemma lstrip_blank (l : list ascii) :
  forallb is_space (lstrip l) = forallb is_space l.
Proof.
  induction l as [|c t IH]; simpl; [reflexivity|].
  destruct (is_space c) eqn:Hc; simpl; [exact IH|by rewrite Hc].
Qed.

Lemma rstrip_nil (l : list ascii) :
  rstrip l = [] <-> forallb is_space l = true.
Proof.
  induction l as [|c t IH]; simpl; [done|].
  destruct (rstrip t) as [|a r].
  - destruct (is_space c); simpl; [|split; discriminate].
    split; [intros _; by apply IH|done].
  - split; [discriminate|]. intros H. apply andb_prop in H as [_ H].
    by apply IH in H.
Qed.

Lemma clean_chars_nil (l : list ascii) :
  clean_chars l = [] <-> forallb is_space l = true.
Proof.
  unfold clean_chars, strip.
  by rewrite rstrip_nil, lstrip_blank, sub_spaces_blank.
Qed.

Lemma string_of_list_ascii_nil (l : list ascii) :
  string_of_list_ascii l = "" <-> l = [].
Proof. destruct l; simpl; split; congruence. Qed.

Lemma truthy_false (s : string) : truthy s = false <-> s = "".
Proof. destruct s; simpl; split; congruence. Qed.

(** [not clean(v)] holds exactly for the values that are empty or made of
    whitespace. *)
Lemma not_clean_blank (v : string) :
  truthy (clean v) = false <-> blank v.
Proof.
  unfold blank, clean.
  rewrite truthy_false, string_of_list_ascii_nil, clean_chars_nil.
  rewrite forallb_forall, Forall_forall.
  split; intros H x Hx; apply H; by apply list_elem_of_In.
Qed.

Lemma seq_strongly_sorted (n : nat) : forall k, StronglySorted lt (seq k n).
Proof.
  induction n as [|n IH]; intros k; simpl; constructor; [apply IH|].
  apply Forall_forall. intros x Hx. apply elem_of_seq in Hx. lia.
Qed.

Lemma filter_strongly_sorted {A} (R : relation A) (P : A -> Prop)
      `{!forall x, Decision (P x)} (l : list A) :
  StronglySorted R l -> StronglySorted R (filter P l).
Proof.
  induction 1 as [|x l Hl IH Hx]; [constructor|].
  rewrite filter_cons. destruct (decide (P x)); [|exact IH].
  constructor; [exact IH|].
  apply Forall_forall. intros y Hy. apply list_elem_of_filter in Hy as [_ Hy].
  rewrite Forall_forall in Hx. by apply Hx.
Qed.

Lemma cnpj_pending_sorted_from (l : list string) :
  forall k,
    StronglySorted lt (imap (fun i v => (k + i, v)) l ≫= GetCnpj.pick) /\
    Forall (fun i => k <= i) (imap (fun i v => (k + i, v)) l ≫= GetCnpj.pick).
Proof.
  induction l as [|x l IH]; intros k.
  - split; constructor.
  - rewrite imap_cons, bind_cons.
    rewrite (imap_ext _ (fun i v => (S k + i, v)) l)
      by (intros; simpl; f_equal; lia).
    destruct (IH (S k)) as [Hs Hf].
    assert (Hf' : Forall (fun i => k + 0 < i)
                         (imap (fun i v => (S k + i, v)) l ≫= GetCnpj.pick)).
    { eapply Forall_impl; [exact Hf|]. simpl. intros; lia. }
    unfold GetCnpj.pick at 1 3. simpl.
    destruct (truthy (clean x)); simpl.
    + split; [exact Hs|]. eapply Forall_impl; [exact Hf|]. simpl; intros; lia.
    + split; [by constructor|].
      constructor; [lia|]. eapply Forall_impl; [exact Hf|]. simpl; intros; lia.
Qed.

Lemma cnpj_pending_elem (df : DataFrame) (i : nat) :
  i ∈ GetCnpj.pending_idx df <->
  exists r, rows df !! i = Some r /\ truthy (clean (cell r CNPJ)) = false.
Proof.
  unfold GetCnpj.pending_idx. rewrite list_elem_of_bind. split.
  - intros [[j v] [Hi Hjv]]. apply elem_of_lookup_imap in Hjv as (j' & v' & Heq & Hl).
    injection Heq as -> ->. unfold GetCnpj.pick in Hi. simpl in Hi.
    destruct (truthy (clean v')) eqn:Hv; [by apply elem_of_nil in Hi|].
    apply list_elem_of_singleton in Hi as ->.
    unfold column in Hl. rewrite list_lookup_fmap in Hl.
    destruct (rows df !! j') as [r|]; [|discriminate].
    injection Hl as <-. eauto.
  - intros (r & Hr & Hv). exists (i, cell r CNPJ). unfold GetCnpj.pick. simpl.
    rewrite Hv.
    split; [by apply list_elem_of_singleton|].
    apply (elem_of_lookup_imap_2 (fun i v => (i, v))).
    unfold column. by rewrite list_lookup_fmap, Hr.
Qed.

Lemma existsb_elem_of {A} (f : A -> bool) (l : list A) :
  existsb f l = true <-> exists x, x ∈ l /\ f x = true.
Proof.
  rewrite existsb_exists. split; intros (x & H1 & H2); exists x.
  - split; [by apply list_elem_of_In|done].
  - split; [by apply list_elem_of_In|done].
Qed.

Lemma biz_pending_elem (df : DataFrame) (i : nat) :
  i ∈ CnpjBiz.pending_idx df <->
  exists r, rows df !! i = Some r /\
            exists c, c ∈ CnpjBiz.target_cols /\ truthy (clean (cell r c)) = false.
Proof.
  unfold CnpjBiz.pending_idx. rewrite list_elem_of_filter, elem_of_seq.
  unfold CnpjBiz.is_pending. rewrite existsb_elem_of. split.
  - intros [(c & Hc & Hv) [_ Hi]].
    destruct (lookup_lt_is_Some_2 (rows df) i) as [r Hr]; [lia|].
    rewrite Hr in Hv. simpl in Hv. exists r. split; [done|].
    exists c. split; [done|]. by apply negb_true_iff.
  - intros (r & Hr & c & Hc & Hv). split.
    + exists c. rewrite Hr. simpl. split; [done|]. by apply negb_true_iff.
    + apply lookup_lt_Some in Hr. lia.
Qed.

(** C7. A row index is pending for a stage exactly when one of the stage's
    columns holds an empty or whitespace-only value in that row, and the
    pending indices are listed in the order of the rows. *)
Theorem pending_set_correct (df : DataFrame) :
  (forall i, i ∈ GetCnpj.pending_idx df <->
             exists r, rows df !! i = Some r /\ blank (cell r CNPJ)) /\
  (forall i, i ∈ CnpjBiz.pending_idx df <->
             exists r, rows df !! i = Some r /\
                       exists c, c ∈ CnpjBiz.target_cols /\ blank (cell r c)) /\
  StronglySorted lt (GetCnpj.pending_idx df) /\
  StronglySorted lt (CnpjBiz.pending_idx df).
Proof.
  split; [|split; [|split]].
  - intros i. rewrite cnpj_pending_elem.
    split; intros (r & Hr & H); exists r; split; try done; by apply not_clean_blank.
  - intros i. rewrite biz_pending_elem.
    split; intros (r & Hr & c & Hc & H); exists r; (split; [done|]);
      exists c; (split; [done|]); by apply not_clean_blank.
  - unfold GetCnpj.pending_idx.
    destruct (cnpj_pending_sorted_from (column df CNPJ) 0) as [H _]. exact H.
  - apply filter_strongly_sorted, seq_strongly_sorted.
Qed.

Lemma cnpj_pending_in_range (df : DataFrame) (i : nat) :
  i ∈ GetCnpj.pending_idx df -> i < length (rows df).
Proof.
  intros H. apply cnpj_pending_elem in H as (r & Hr & _).
  by apply lookup_lt_Some in Hr.
Qed.

Lemma biz_pending_in_range (df : DataFrame) (i : nat) :
  i ∈ CnpjBiz.pending_idx df -> i < length (rows df).
Proof.
  intros H. apply biz_pending_elem in H as (r & Hr & _).
  by apply lookup_lt_Some in Hr.
Qed.

End PendingFacts.

(** ** The CNPJ pattern *)

Section RegexFacts.
Import GetCnpj.

Lemma match_atoms_sound (p : list atom) :
  forall l m rest,
    match_atoms p l = Some (m, rest) ->
    l = m ++ rest /\ Forall2 (fun a c => atom_matches a c = true) p m.
Proof.
  induction p as [|a p IH]; intros l m rest H; simpl in H.
  - injection H as <- <-. split; [reflexivity|constructor].
  - destruct l as [|c t]; [discriminate|].
    destruct (atom_matches a c) eqn:Hc; [|discriminate].
    destruct (match_atoms p t) as [[m' rest']|] eqn:Hm; [|discriminate].
    injection H as <- <-. destruct (IH _ _ _ Hm) as [-> HF].
    split; [reflexivity|by constructor].
Qed.

Lemma match_atoms_complete (p : list atom) (m rest : list ascii) :
  Forall2 (fun a c => atom_matches a c = true) p m ->
  match_atoms p (m ++ rest) = Some (m, rest).
Proof.
  induction 1 as [|a c p m Hc _ IH]; simpl; [reflexivity|].
  by rewrite Hc, IH.
Qed.

Lemma match_here_spec (before : option ascii) (l m : list ascii) :
  match_here before l = Some m <->
  exists post, l = m ++ post /\ shaped m /\
               at_boundary before (head l) = true /\
               at_boundary (last m) (head post) = true.
Proof.
  unfold match_here, shaped. split.
  - intros H. destruct (at_boundary before (head l)) eqn:Hb; [|discriminate].
    destruct (match_atoms CNPJ_ATOMS l) as [[m' rest]|] eqn:Hm; [|discriminate].
    destruct (at_boundary (last m') (head rest)) eqn:He; [|discriminate].
    injection H as <-. apply match_atoms_sound in Hm as [-> HF]. eauto.
  - intros (post & -> & HF & Hb & He).
    by rewrite Hb, (match_atoms_complete _ _ _ HF), He.
Qed.

Lemma search_unfold (before : option ascii) (l : list ascii) :
  search before l =
  match match_here before l with
  | Some m => Some m
  | None => match l with [] => None | c :: t => search (Some c) t end
  end.
Proof. destruct l; reflexivity. Qed.

Lemma search_sound (l : list ascii) :
  forall pre m,
    search (last pre) l = Some m ->
    exists p1 post, l = p1 ++ m ++ post /\ occurs (pre ++ p1) m post.
Proof.
  induction l as [|c t IH]; intros pre m H; rewrite search_unfold in H.
  - destruct (match_here (last pre) []) eqn:Hm; [|discriminate].
    injection H as ->. apply match_here_spec in Hm as (post & Hl & Hs & Hb & He).
    exists [], post. rewrite app_nil_r. repeat split; try done.
    by rewrite <- Hl.
  - destruct (match_here (last pre) (c :: t)) eqn:Hm.
    + injection H as ->. apply match_here_spec in Hm as (post & Hl & Hs & Hb & He).
      exists [], post. rewrite app_nil_r. repeat split; try done.
      by rewrite <- Hl.
    + rewrite <- (last_snoc c pre) in H.
      destruct (IH _ _ H) as (p1 & post & -> & Ho).
      exists (c :: p1), post. split; [reflexivity|].
      by rewrite <- app_assoc in Ho.
Qed.

Lemma search_complete (p1 : list ascii) :
  forall pre m post,
    occurs (pre ++ p1) m post ->
    exists m' p1' post',
      search (last pre) (p1 ++ m ++ post) = Some m' /\
      p1 ++ m ++ post = p1' ++ m' ++ post' /\
      occurs (pre ++ p1') m' post' /\
      length p1' <= length p1.
Proof.
  induction p1 as [|c p1 IH]; intros pre m post Ho; rewrite search_unfold.
  - rewrite app_nil_r in Ho. destruct Ho as (Hs & Hb & He).
    assert (Hm : match_here (last pre) ([] ++ m ++ post) = Some m).
    { apply match_here_spec. exists post. by repeat split. }
    rewrite Hm. exists m, [], post. rewrite app_nil_r. by repeat split.
  - destruct (match_here (last pre) ((c :: p1) ++ m ++ post)) as [m0|] eqn:Hm.
    + apply match_here_spec in Hm as (post0 & Hl & Hs & Hb & He).
      exists m0, [], post0. rewrite app_nil_r. repeat split; try done.
      * by rewrite <- Hl.
      * simpl. lia.
    + simpl. rewrite <- (last_snoc c pre).
      destruct (IH (pre ++ [c]) m post) as (m' & p1' & post' & Hsr & Hl & Ho' & Hlen).
      { by rewrite <- app_assoc. }
      exists m', (c :: p1'), post'. repeat split.
      * exact Hsr.
      * simpl. by rewrite Hl.
      * rewrite <- app_assoc in Ho'. apply Ho'.
      * rewrite <- app_assoc in Ho'. apply Ho'.
      * rewrite <- app_assoc in Ho'. apply Ho'.
      * simpl. lia.
Qed.

Lemma shaped_length (m : list ascii) : shaped m -> length m = 18.
Proof. intros H. apply Forall2_length in H. by rewrite <- H. Qed.

Lemma shaped_truthy (m : list ascii) :
  shaped m -> Text.truthy (string_of_list_ascii m) = true.
Proof.
  intros H. apply shaped_length in H. destruct m; [discriminate|reflexivity].
Qed.

(** A non-empty result of [extract_cnpj_text] is a match of the pattern in
    the text. *)
Lemma extract_cnpj_text_sound (text : string) :
  Text.truthy (extract_cnpj_text text) = true ->
  exists pre post,
    list_ascii_of_string text
      = pre ++ list_ascii_of_string (extract_cnpj_text text) ++ post /\
    occurs pre (list_ascii_of_string (extract_cnpj_text text)) post.
Proof.
  unfold extract_cnpj_text.
  destruct (search None (list_ascii_of_string text)) as [m|] eqn:Hs; [|discriminate].
  intros _. destruct (search_sound _ [] m Hs) as (p1 & post & Hl & Ho).
  exists p1, post. by rewrite list_ascii_of_string_of_list_ascii.
Qed.

(** When the text has a match, the result is the leftmost one. *)
Lemma extract_cnpj_text_complete (text : string) (pre m post : list ascii) :
  list_ascii_of_string text = pre ++ m ++ post ->
  occurs pre m post ->
  exists pre' m' post',
    extract_cnpj_text text = string_of_list_ascii m' /\
    Text.truthy (extract_cnpj_text text) = true /\
    list_ascii_of_string text = pre' ++ m' ++ post' /\
    occurs pre' m' post' /\
    length pre' <= length pre.
Proof.
  intros Hl Ho. unfold extract_cnpj_text. rewrite Hl.
  destruct (search_complete pre [] m post Ho) as (m' & p1' & post' & Hs & Hl' & Ho' & Hlen).
  simpl in Hs. rewrite Hs. exists p1', m', post'.
  repeat split; try done; try apply Ho'.
  apply shaped_truthy, Ho'.
Qed.

End RegexFacts.

(** ** Tables: reading back what was written *)

Section FrameFacts.

Lemma at_set_length (d : DataFrame) (i : nat) (c v : string) :
  length (rows (at_set d i c v)) = length (rows d).
Proof. unfold at_set. simpl. apply length_alter. Qed.

Lemma at_get_at_set_eq (d : DataFrame) (i : nat) (c v : string) :
  i < length (rows d) -> at_get (at_set d i c v) i c = v.
Proof.
  intros Hi. unfold at_get, at_set. simpl. rewrite list_lookup_alter_eq.
  destruct (lookup_lt_is_Some_2 (rows d) i Hi) as [r ->]. simpl.
  unfold cell. by rewrite lookup_insert_eq.
Qed.

Lemma at_get_at_set_ne (d : DataFrame) (i j : nat) (c c' v : string) :
  i <> j \/ c <> c' -> at_get (at_set d i c v) j c' = at_get d j c'.
Proof.
  intros H. unfold at_get, at_set. simpl.
  destruct (decide (i = j)) as [->|Hij].
  - destruct H as [H|H]; [done|]. rewrite list_lookup_alter_eq.
    destruct (rows d !! j) as [r|]; simpl; [|done].
    unfold cell. by rewrite lookup_insert_ne.
  - by rewrite list_lookup_alter_ne.
Qed.

End FrameFacts.

(** ** The strategies of [fetch_cnpj] *)

Section FetchCnpjFacts.
Import GetCnpj.

Lemma fetch_cnpj_chain (v : View) :
  quiet v ->
  fetch_cnpj v = Return (first_non_empty [strategy1 v; strategy2 v; strategy3 v]).
Proof.
  intros (Hg & Hid & Hl).
  unfold fetch_cnpj, strategy1, strategy2, strategy3, from_label, from_page_source.
  rewrite Hg. simpl.
  destruct (by_id v 0) as [t0|e0] eqn:H0; [|rewrite (Hid _ _ H0)];
    (destruct (by_id v 1) as [t1|e1] eqn:H1; [|rewrite (Hid _ _ H1)]);
    (destruct (by_label v) as [t2|e2] eqn:H2; [|rewrite (Hl e2 eq_refl)]);
    destruct (page_source v) as [t3|e3];
    repeat match goal with
           | |- context [Text.truthy ?x] => destruct (Text.truthy x) eqn:?
           end;
    simpl in *; congruence.
Qed.

Lemma strategy1_absent (v : View) :
  (forall n, by_id v n = Raise TimeoutException) -> strategy1 v = "".
Proof. intros H. unfold strategy1. by rewrite !H. Qed.

(** C5. The strategies of [fetch_cnpj] are tried in the order id, label,
    page source and the first non-empty result is returned; without the id
    anchor a value found next to the label is the result; without any
    anchor a match of the pattern in the page source is the result. *)
Theorem extraction_fallback_order (v : View) :
  quiet v ->
  fetch_cnpj v = Return (first_non_empty [strategy1 v; strategy2 v; strategy3 v]) /\
  ((forall n, by_id v n = Raise TimeoutException) ->
   Text.truthy (strategy2 v) = true ->
   fetch_cnpj v = Return (strategy2 v)) /\
  (forall html pre m post,
     (forall n, by_id v n = Raise TimeoutException) ->
     by_label v = Raise TimeoutException ->
     page_source v = Return html ->
     list_ascii_of_string html = pre ++ m ++ post ->
     occurs pre m post ->
     exists pre' m' post',
       fetch_cnpj v = Return (string_of_list_ascii m') /\
       list_ascii_of_string html = pre' ++ m' ++ post' /\
       occurs pre' m' post' /\
       length pre' <= length pre).
Proof.
  intros Hq. pose proof (fetch_cnpj_chain v Hq) as Hc.
  split; [exact Hc|split].
  - intros Hid H2. rewrite Hc, (strategy1_absent v Hid). simpl. by rewrite H2.
  - intros html pre m post Hid Hl Hp Hh Ho.
    destruct (extract_cnpj_text_complete html pre m post Hh Ho)
      as (pre' & m' & post' & He & Ht & Hh' & Ho' & Hlen).
    exists pre', m', post'. repeat split; try done; try apply Ho'.
    rewrite Hc, (strategy1_absent v Hid). unfold strategy2, strategy3.
    rewrite Hl, Hp. simpl. by rewrite Ht, He.
Qed.

Lemma label_only_view_quiet : quiet Examples.label_only_view.
Proof.
  split; [reflexivity|]. split.
  - intros n e H. simpl in H. by injection H as <-.
  - intros e H. discriminate H.
Qed.

Lemma text_only_view_quiet : quiet Examples.text_only_view.
Proof.
  split; [reflexivity|]. split.
  - intros n e H. simpl in H. by injection H as <-.
  - intros e H. simpl in H. by injection H as <-.
Qed.

Lemma extraction_fallback_order_witness :
  quiet Examples.label_only_view /\
  fetch_cnpj Examples.label_only_view = Return "12.345.678/0001-90" /\
  quiet Examples.text_only_view /\
  exists m, fetch_cnpj Examples.text_only_view = Return (string_of_list_ascii m) /\
            shaped m.
Proof.
  split; [exact label_only_view_quiet|]. split.
  - destruct (extraction_fallback_order Examples.label_only_view label_only_view_quiet)
      as (_ & H & _).
    rewrite H; [reflexivity|reflexivity|reflexivity].
  - split; [exact text_only_view_quiet|].
    destruct (extraction_fallback_order Examples.text_only_view text_only_view_quiet)
      as (_ & _ & H).
    destruct (H "cadastro 12.345.678/0001-90 ativo"
                (list_ascii_of_string "cadastro ")
                (list_ascii_of_string "12.345.678/0001-90")
                (list_ascii_of_string " ativo"))
      as (pre' & m' & post' & Hf & _ & Ho & _).
    + reflexivity.
    + reflexivity.
    + reflexivity.
    + reflexivity.
    + split; [|split; reflexivity]. unfold shaped. simpl. repeat constructor.
    + exists m'. split; [exact Hf|apply Ho].
Defined.

End FetchCnpjFacts.

(** ** Traces and the checkpoint cadence *)

Section TraceFacts.

Lemma logs_app (a b : list event) : logs (a ++ b) = logs a + logs b.
Proof. unfold logs. by rewrite filter_app, length_app. Qed.

Lemma save_points_app (a b : list event) :
  forall n, save_points n (a ++ b) = save_points n a ++ save_points (n + logs a) b.
Proof.
  induction a as [|e a IH]; intros n; simpl.
  - by rewrite Nat.add_0_r.
  - destruct e; simpl; rewrite ?IH; try reflexivity.
    unfold logs. rewrite filter_cons. simpl.
    by rewrite Nat.add_succ_r.
Qed.


End TraceFacts.

Section Cadence.
Variable batch : nat.
Variable body : state -> nat -> state.
Hypothesis body_paced : forall st i, paced batch st (body st i).


End Cadence.

(** ** The loop of the CNPJ stage *)

Section GetCnpjLoop.
Import GetCnpj.

Lemma try_fetch_effect (web : nat -> View) (reg : string) (st : state) :
  exists evs,
    df (try_fetch web reg st).2 = df st /\
    processed_since_save (try_fetch web reg st).2 = processed_since_save st /\
    trace (try_fetch web reg st).2 = trace st ++ evs /\
    logs evs = 0 /\ (forall n, save_points n evs = []).
Proof.
  unfold try_fetch, call_fetch.
  destruct (fetch_cnpj (web (calls st))) as [c|e]; simpl.
  - destruct (Text.truthy c); simpl.
    + exists [EFetch reg]. by repeat split.
    + destruct (fetch_cnpj (web (S (calls st)))); simpl;
        exists [EFetch reg; ESleep 1000; EFetch reg];
        rewrite <- !app_assoc; by repeat split.
  - exists [EFetch reg]. by repeat split.
Qed.

Lemma step_df (web : nat -> View) (st : state) (i : nat) :
  df (step web st i)
  = at_set (df st) i CNPJ
           (try_fetch web (Text.clean (at_get (df st) i REGISTRO_ANS)) st).1.
Proof.
  unfold step.
  destruct (try_fetch_effect web (Text.clean (at_get (df st) i REGISTRO_ANS)) st)
    as (evs & Hd & _).
  destruct (try_fetch web _ st) as [cnpj st1]. simpl in *.
  unfold save_batch. simpl. by destruct (decide _); simpl; rewrite Hd.
Qed.



End GetCnpjLoop.

(** ** The loop of the address and phone stage *)

Section CnpjBizLoop.
Import CnpjBiz.

Lemma items_keys (p : parsed) : (items p).*1 = target_cols.
Proof. reflexivity. Qed.

Lemma empty_patch_keys : empty_patch.*1 = target_cols.
Proof. reflexivity. Qed.

Lemma empty_patch_values : Forall (fun kv => kv.2 = "") empty_patch.
Proof. unfold empty_patch. simpl. repeat constructor. Qed.

Lemma target_cols_NoDup : NoDup target_cols.
Proof. apply (bool_decide_unpack (NoDup target_cols)). by vm_compute. Qed.

Lemma fetch_from_cnpjbiz_keys (v : View) (data : list (string * string)) :
  fetch_from_cnpjbiz v = Return data -> data.*1 = target_cols.
Proof.
  unfold fetch_from_cnpjbiz. intros H.
  destruct (get v); [|discriminate].
  assert (Hp : match page v with Return p => Return (items p) | Raise e => Raise e end
               = Return data).
  { destruct (ready v) as [|[]]; congruence. }
  destruct (page v); [|discriminate]. injection Hp as <-. apply items_keys.
Qed.

Lemma biz_try_fetch_effect (web : nat -> View) (digits : string) (st : state) :
  exists evs,
    df (try_fetch web digits st).2 = df st /\
    processed_since_save (try_fetch web digits st).2 = processed_since_save st /\
    trace (try_fetch web digits st).2 = trace st ++ evs /\
    logs evs = 0 /\ (forall n, save_points n evs = []).
Proof.
  unfold try_fetch, call_fetch.
  destruct (fetch_from_cnpjbiz (web (calls st))) as [data|e]; simpl.
  - exists [EFetch digits]. by repeat split.
  - destruct (is_WebDriverException e); simpl.
    + destruct (fetch_from_cnpjbiz (web (S (calls st)))); simpl;
        exists [EFetch digits; ESleep 1200; EFetch digits];
        rewrite <- !app_assoc; by repeat split.
    + exists [EFetch digits]. by repeat split.
Qed.

Lemma biz_try_fetch_keys (web : nat -> View) (digits : string) (st : state)
      (data : list (string * string)) :
  (try_fetch web digits st).1 = Return data -> data.*1 = target_cols.
Proof.
  unfold try_fetch, call_fetch.
  destruct (fetch_from_cnpjbiz (web (calls st))) as [d|e] eqn:H1; simpl.
  - intros [= <-]. by apply fetch_from_cnpjbiz_keys in H1.
  - destruct (is_WebDriverException e); simpl; [|discriminate].
    destruct (fetch_from_cnpjbiz (web (S (calls st)))) as [d|e2] eqn:H2; simpl.
    + intros [= <-]. by apply fetch_from_cnpjbiz_keys in H2.
    + intros [= <-]. apply empty_patch_keys.
Qed.

Lemma biz_try_fetch_returns (web : nat -> View) (digits : string) (st : state) :
  (forall e, fetch_from_cnpjbiz (web (calls st)) = Raise e ->
             is_WebDriverException e = true) ->
  exists data, (try_fetch web digits st).1 = Return data.
Proof.
  intros H. unfold try_fetch, call_fetch.
  destruct (fetch_from_cnpjbiz (web (calls st))) as [d|e]; simpl; [by eexists|].
  rewrite (H e eq_refl).
  destruct (fetch_from_cnpjbiz (web (S (calls st)))); simpl; by eexists.
Qed.

Lemma write_back_length (data : list (string * string)) :
  forall d i, length (rows (write_back d i data)) = length (rows d).
Proof.
  induction data as [|[k v] data IH]; intros d i; [reflexivity|].
  unfold write_back in *. simpl. by rewrite IH, at_set_length.
Qed.

Lemma write_back_other (data : list (string * string)) :
  forall d i j f,
    j <> i \/ f ∉ data.*1 ->
    at_get (write_back d i data) j f = at_get d j f.
Proof.
  induction data as [|[k v] data IH]; intros d i j f H; [reflexivity|].
  unfold write_back in *. simpl. rewrite IH.
  - apply at_get_at_set_ne.
    destruct H as [H|H]; [left; congruence|right]. intros ->. apply H. simpl. left.
  - destruct H as [H|H]; [by left|right]. intros Hin. apply H. simpl. by right.
Qed.

Lemma write_back_written (data : list (string * string)) :
  forall d i f v,
    i < length (rows d) -> NoDup data.*1 -> (f, v) ∈ data ->
    at_get (write_back d i data) i f = Text.clean v.
Proof.
  induction data as [|[k w] data IH]; intros d i f v Hi Hnd Hin.
  - by apply elem_of_nil in Hin.
  - simpl in Hnd. apply NoDup_cons in Hnd as [Hk Hnd].
    apply elem_of_cons in Hin as [Heq|Hin].
    + injection Heq as -> ->. unfold write_back. simpl.
      fold (write_back (at_set d i k (Text.clean w)) i data).
      rewrite write_back_other by (by right).
      by apply at_get_at_set_eq.
    + unfold write_back. simpl.
      fold (write_back (at_set d i k (Text.clean w)) i data).
      apply IH; [by rewrite at_set_length|done|done].
Qed.

Lemma count_and_save_paced (st : state) (ev : event) (tr : list event) :
  is_log ev = true ->
  logs tr = 0 -> (forall n, save_points n tr = []) ->
  forall st0, trace st = trace st0 ++ tr ++ [ev] ->
              processed_since_save st = processed_since_save st0 ->
              paced BATCH_SIZE st0 (count_and_save st).
Proof.
  intros Hev Hl Hs st0 Ht Hc. unfold paced, count_and_save, next_counter.
  rewrite Hc, Ht.
  assert (Hev1 : logs [ev] = 1) by (destruct ev; try discriminate; reflexivity).
  assert (Hev2 : forall k, save_points k [ev] = [])
    by (destruct ev; try discriminate; reflexivity).
  destruct (decide (BATCH_SIZE <= S (processed_since_save st0))); simpl.
  - exists (tr ++ [ev] ++ [ESave (df st)]). rewrite <- !app_assoc.
    split; [reflexivity|]. split; [rewrite !logs_app, Hl, Hev1; reflexivity|].
    split; [|reflexivity]. intros k.
    rewrite !save_points_app, Hs, Hev2, Hl, Hev1. simpl. f_equal. lia.
  - exists (tr ++ [ev]). split; [reflexivity|].
    split; [rewrite !logs_app, Hl, Hev1; reflexivity|].
    split; [|reflexivity]. intros k. by rewrite !save_points_app, Hs, Hev2.
Qed.

Lemma paced_emit_sleep (batch : nat) (st0 st : state) (ms : nat) :
  paced batch st0 st -> paced batch st0 (emit (ESleep ms) st).
Proof.
  intros (evs & Ht & Hl & Hs & Hc). exists (evs ++ [ESleep ms]). simpl.
  rewrite Ht, <- app_assoc. split; [reflexivity|].
  split; [rewrite logs_app, Hl; reflexivity|]. split; [|exact Hc].
  intros k. rewrite save_points_app, Hs. simpl. by rewrite app_nil_r.
Qed.

Lemma count_and_save_df (st : state) : df (count_and_save st) = df st.
Proof. unfold count_and_save. by destruct (decide _). Qed.

Lemma biz_step_ok (web : nat -> View) (st : state) (i : nat) :
  (forall e, fetch_from_cnpjbiz (web (calls st)) = Raise e ->
             is_WebDriverException e = true) ->
  (step web st i).1 = None /\ paced BATCH_SIZE st (step web st i).2.
Proof.
  intros Hweb. unfold step.
  set (masked := Text.clean (at_get (df st) i CNPJ)).
  set (digits := Text.only_digits masked).
  destruct (invalid_cnpj digits); simpl.
  - split; [reflexivity|].
    by apply (count_and_save_paced _ (ELog false masked) []).
  -
    destruct (biz_try_fetch_returns web digits st Hweb) as [data Hr].
    destruct (biz_try_fetch_effect web digits st) as (evs & Hd & Hc & Ht & Hl & Hs).
    destruct (try_fetch web digits st) as [r st1]. simpl in *. subst r.
    split; [reflexivity|]. apply paced_emit_sleep.
    apply (count_and_save_paced _ (ELog true digits) evs); simpl; try done.
    by rewrite Ht, <- app_assoc.
Qed.








End CnpjBizLoop.

(** ** Write-back, retry, cadence and skip *)

Section StageClaims.




(** C9. A pending record whose CNPJ has no digits or not exactly 14 digits
    is skipped: no fetch is made, no cell of the table is written, and the
    counter advances by one (a full batch being written and the counter
    reset as for any other record). *)
Theorem invalid_cnpj_skip (web : nat -> CnpjBiz.View) (st : state) (i : nat) :
  let masked := Text.clean (at_get (df st) i CNPJ) in
  let digits := Text.only_digits masked in
  digits = "" \/ String.length digits <> 14 ->
  let r := CnpjBiz.step web st i in
  r.1 = None /\
  df r.2 = df st /\
  calls r.2 = calls st /\
  processed_since_save r.2
  = next_counter CnpjBiz.BATCH_SIZE (processed_since_save st) /\
  trace r.2
  = trace st ++ ELog false masked
      :: (if decide (CnpjBiz.BATCH_SIZE <= S (processed_since_save st))
          then [ESave (df st)] else []).
Proof.
  intros masked digits H. unfold CnpjBiz.step. fold masked. fold digits.
  assert (Hinv : CnpjBiz.invalid_cnpj digits = true).
  { unfold CnpjBiz.invalid_cnpj. destruct H as [->|H]; [reflexivity|].
    apply orb_true_iff. right. apply negb_true_iff. by apply Nat.eqb_neq. }
  rewrite Hinv. simpl. unfold CnpjBiz.count_and_save, next_counter. simpl.
  destruct (decide (CnpjBiz.BATCH_SIZE <= S (processed_since_save st))); simpl;
    rewrite <- ?app_assoc; by repeat split.
Qed.

Lemma invalid_cnpj_skip_witness :
  df (CnpjBiz.step (fun _ => Examples.rua_a_view) (initial Examples.acme) 0).2
  = Examples.acme.
Proof.
  refine (proj1 (proj2 (invalid_cnpj_skip (fun _ => Examples.rua_a_view)
                                          (initial Examples.acme) 0 _))).
  left. by vm_compute.
Defined.

End StageClaims.

Section WriteBackClaims.

(** C1 as stated fails: a filled address is blanked when both fetches of
    the record fail and the patch is empty. *)
Lemma write_back_counterexample :
  at_get Examples.partly_filled 0 LOGRADOURO = "Rua A" /\
  (CnpjBiz.try_fetch (fun _ => Examples.down_view) "12345678000190"
                     (initial Examples.partly_filled)).1
  = Return CnpjBiz.empty_patch /\
  at_get (df (CnpjBiz.step (fun _ => Examples.down_view)
                           (initial Examples.partly_filled) 0).2) 0 LOGRADOURO = "".
Proof. by vm_compute. Qed.

(** C1, amended. The write-back assigns: after it every field of the patch
    holds the normalised patch value, empty or not, whatever it held before;
    a patch names exactly the seven target columns; the cells of other
    columns and of other rows keep their value. In the CNPJ stage the cell
    CNPJ of the row receives the fetched value, and nothing else changes. *)
Theorem write_back_overwrites
        (web : nat -> CnpjBiz.View) (st st1 : state) (i : nat)
        (data : list (string * string))
        (web' : nat -> GetCnpj.View) (st' : state) (i' : nat) :
  let digits := Text.only_digits (Text.clean (at_get (df st) i CNPJ)) in
  let reg := Text.clean (at_get (df st') i' REGISTRO_ANS) in
  i < length (rows (df st)) ->
  CnpjBiz.invalid_cnpj digits = false ->
  CnpjBiz.try_fetch web digits st = (Return data, st1) ->
  i' < length (rows (df st')) ->
  data.*1 = CnpjBiz.target_cols /\
  (forall f v, (f, v) ∈ data ->
               at_get (df (CnpjBiz.step web st i).2) i f = Text.clean v) /\
  (forall j f, j <> i \/ f ∉ CnpjBiz.target_cols ->
               at_get (df (CnpjBiz.step web st i).2) j f = at_get (df st) j f) /\
  at_get (df (GetCnpj.step web' st' i')) i' CNPJ = (GetCnpj.try_fetch web' reg st').1 /\
  (forall j f, j <> i' \/ f <> CNPJ ->
               at_get (df (GetCnpj.step web' st' i')) j f = at_get (df st') j f).
Proof.
  intros digits reg Hi Hv Hf Hi'.
  assert (Hk : data.*1 = CnpjBiz.target_cols).
  { apply (biz_try_fetch_keys web digits st). by rewrite Hf. }
  assert (Hd : df (CnpjBiz.step web st i).2 = CnpjBiz.write_back (df st) i data).
  { unfold CnpjBiz.step. fold digits. rewrite Hv.
    destruct (biz_try_fetch_effect web digits st) as (evs & Hdf & _).
    rewrite Hf in *. simpl in *. by rewrite count_and_save_df, <- Hdf. }
  split; [exact Hk|]. rewrite Hd. split; [|split; [|split]].
  - intros f v Hin. apply write_back_written; try done.
    rewrite Hk. apply target_cols_NoDup.
  - intros j f H. apply write_back_other. by rewrite Hk.
  - rewrite step_df. by apply at_get_at_set_eq.
  - intros j f H. rewrite step_df. apply at_get_at_set_ne.
    destruct H as [H|H]; [left|right]; congruence.
Qed.

Lemma write_back_overwrites_witness :
  at_get (df (CnpjBiz.step (fun _ => Examples.rua_a_view)
                           (initial Examples.partly_filled) 0).2) 0 BAIRRO
  = Text.clean "Centro".
Proof.
  refine (proj1 (proj2 (write_back_overwrites
                          (fun _ => Examples.rua_a_view)
                          (initial Examples.partly_filled)
                          {| df := Examples.partly_filled; processed_since_save := 0;
                             calls := 1; trace := [EFetch "12345678000190"] |}
                          0 (CnpjBiz.items Examples.rua_a)
                          (fun _ => Examples.label_only_view)
                          (initial Examples.acme) 0 _ _ _ _)) BAIRRO "Centro" _).
  - simpl. lia.
  - by vm_compute.
  - by vm_compute.
  - simpl. lia.
  - unfold CnpjBiz.items. simpl. repeat constructor.
Defined.

(** C4 as stated fails for the CNPJ stage: a fetch that raises is not
    retried, the trace of the record shows a single page load. *)
Lemma retry_once_counterexample :
  GetCnpj.fetch_cnpj Examples.broken_view = Raise WebDriverException /\
  trace (GetCnpj.step (fun _ => Examples.broken_view) (initial Examples.acme) 0)
  = [EFetch "12345"; ELog false "12345"; ESleep 500].
Proof. by vm_compute. Qed.

(** C4, amended. In the address and phone stage a first fetch that raises a
    [TimeoutException] or [WebDriverException] is followed by a pause and
    exactly one more fetch; when that one raises too the patch is the empty
    one; the body of the loop ends normally. In the CNPJ stage a fetch that
    raises is not repeated: the value is empty and the loop goes on. *)
Theorem retry_once_absorbed
        (web : nat -> CnpjBiz.View) (st : state) (i : nat) (e : exn)
        (web' : nat -> GetCnpj.View) (st' : state) (reg : string) (e' : exn) :
  let digits := Text.only_digits (Text.clean (at_get (df st) i CNPJ)) in
  CnpjBiz.invalid_cnpj digits = false ->
  CnpjBiz.fetch_from_cnpjbiz (web (calls st)) = Raise e ->
  is_WebDriverException e = true ->
  GetCnpj.fetch_cnpj (web' (calls st')) = Raise e' ->
  (exists data,
      (CnpjBiz.try_fetch web digits st).1 = Return data /\
      data.*1 = CnpjBiz.target_cols /\
      (forall e2, CnpjBiz.fetch_from_cnpjbiz (web (S (calls st))) = Raise e2 ->
                  data = CnpjBiz.empty_patch)) /\
  trace (CnpjBiz.try_fetch web digits st).2
  = trace st ++ [EFetch digits; ESleep 1200; EFetch digits] /\
  calls (CnpjBiz.try_fetch web digits st).2 = S (S (calls st)) /\
  Forall (fun kv => kv.2 = "") CnpjBiz.empty_patch /\
  (CnpjBiz.step web st i).1 = None /\
  (GetCnpj.try_fetch web' reg st').1 = "" /\
  trace (GetCnpj.try_fetch web' reg st').2 = trace st' ++ [EFetch reg] /\
  calls (GetCnpj.try_fetch web' reg st').2 = S (calls st').
Proof.
  intros digits Hv H1 He H1'.
  assert (Hstep : (CnpjBiz.step web st i).1 = None).
  { apply biz_step_ok. intros e0 H0. congruence. }
  unfold CnpjBiz.try_fetch, CnpjBiz.call_fetch, GetCnpj.try_fetch, GetCnpj.call_fetch.
  rewrite H1, He, H1'. simpl.
  destruct (CnpjBiz.fetch_from_cnpjbiz (web (S (calls st)))) as [d|e2] eqn:H2; simpl.
  - repeat split; try done; try (by rewrite <- !app_assoc); try apply empty_patch_values.
    exists d. split; [reflexivity|]. split; [by apply fetch_from_cnpjbiz_keys in H2|].
    intros e2 [=].
  - repeat split; try done; try (by rewrite <- !app_assoc); try apply empty_patch_values.
    exists CnpjBiz.empty_patch. by repeat split.
Qed.

Lemma retry_once_absorbed_witness :
  trace (CnpjBiz.try_fetch (fun _ => Examples.down_view) "12345678000190"
                           (initial Examples.partly_filled)).2
  = [EFetch "12345678000190"; ESleep 1200; EFetch "12345678000190"].
Proof.
  refine (proj1 (proj2 (retry_once_absorbed
                          (fun _ => Examples.down_view) (initial Examples.partly_filled) 0
                          TimeoutException
                          (fun _ => Examples.broken_view) (initial Examples.acme) "12345"
                          WebDriverException _ _ _ _))).
  - by vm_compute.
  - reflexivity.
  - reflexivity.
  - reflexivity.
Defined.

(** C8 as stated fails: the element formConsulta:outCNPJ is read first, and
    its CNPJ is kept when it differs from the one next to the label. *)
Lemma formatted_cnpj_counterexample :
  GetCnpj.by_label Examples.other_id_view = Return "12.345.678/0001-90" /\
  at_get (df (GetCnpj.run_loop (fun _ => Examples.other_id_view) Examples.acme
                               (GetCnpj.pending_idx Examples.acme))) 0 CNPJ
  = "99.999.999/0001-99".
Proof. by vm_compute. Qed.

(** C8, amended. When the cell next to the label CNPJ: holds
    12.345.678/0001-90 and the element formConsulta:outCNPJ yields nothing or
    the same value, the fetch returns that string with its punctuation and
    the loop stores it in the column CNPJ of the record. *)
Theorem formatted_cnpj_preserved (web : nat -> GetCnpj.View) (st : state) (i : nat) :
  let v := web (calls st) in
  GetCnpj.quiet v ->
  GetCnpj.by_label v = Return Examples.FORMATTED ->
  GetCnpj.strategy1 v = "" \/ GetCnpj.strategy1 v = Examples.FORMATTED ->
  i < length (rows (df st)) ->
  GetCnpj.fetch_cnpj v = Return Examples.FORMATTED /\
  at_get (df (GetCnpj.step web st i)) i CNPJ = Examples.FORMATTED /\
  Examples.FORMATTED <> Text.only_digits Examples.FORMATTED.
Proof.
  intros v Hq Hl H1 Hi.
  assert (Hf : GetCnpj.fetch_cnpj v = Return Examples.FORMATTED).
  { rewrite (fetch_cnpj_chain v Hq). unfold GetCnpj.strategy2. rewrite Hl.
    destruct H1 as [-> | ->]; reflexivity. }
  split; [exact Hf|]. split; [|by vm_compute].
  rewrite step_df, at_get_at_set_eq by exact Hi.
  unfold GetCnpj.try_fetch, GetCnpj.call_fetch. fold v. by rewrite Hf.
Qed.

Lemma formatted_cnpj_preserved_witness :
  at_get (df (GetCnpj.step (fun _ => Examples.label_only_view)
                           (initial Examples.acme) 0)) 0 CNPJ
  = "12.345.678/0001-90".
Proof.
  refine (proj1 (proj2 (formatted_cnpj_preserved
                          (fun _ => Examples.label_only_view)
                          (initial Examples.acme) 0 label_only_view_quiet _ _ _))).
  - reflexivity.
  - left. reflexivity.
  - simpl. lia.
Defined.

End WriteBackClaims.

(** ** The pagination crawl *)

Section CrawlerFacts.
Import Crawler.

Lemma crawl_S (env : nat -> observation) (f k : nat) :
  crawl (S f) env k =
  match table (env k) with
  | Raise e => ([], Crashed e)
  | Return data =>
      if last_page (current_of (env k)) (snd <$> indicator (env k))
      then ([(current_of (env k), data)], Finished)
      else match next (env k) with
           | Raise e => ([(current_of (env k), data)], Crashed e)
           | Return false => ([(current_of (env k), data)], NextUnavailable)
           | Return true =>
               let '(pages, s) := crawl f env (S k) in
               ((current_of (env k), data) :: pages, s)
           end
  end.
Proof. reflexivity. Qed.


Lemma crawl_stable (env : nat -> observation) (f : nat) :
  forall k g, (crawl f env k).2 <> Running -> f <= g ->
              crawl g env k = crawl f env k.
Proof.
  induction f as [|f IH]; intros k g Hr Hg; simpl in *; [done|].
  destruct g as [|g]; [lia|]. simpl.
  destruct (table (env k)); [|reflexivity].
  destruct (last_page _ _); [reflexivity|].
  destruct (next (env k)) as [[|]|]; try reflexivity.
  rewrite (IH (S k) g); [reflexivity| |lia].
  destruct (crawl f env (S k)). exact Hr.
Qed.

Section Advancing.
Variable env : nat -> observation.
Variable T : Z.
Hypothesis advances : forall k, (current_of (env k) < current_of (env (S k)))%Z.
Hypothesis bounded : forall k c t, indicator (env k) = Some (c, t) -> (t <= T)%Z.



End Advancing.




End CrawlerFacts.

(** ** Registration keys after the shard merge and after the load step *)

Section KeyFacts.

Lemma insert_by_index_perm (x : Z * DataFrame) (l : list (Z * DataFrame)) :
  Join.insert_by_index x l ≡ₚ x :: l.
Proof.
  induction l as [|y t IH]; simpl; [reflexivity|].
  destruct (y.1 <? x.1)%Z; [|reflexivity].
  rewrite IH. apply perm_swap.
Qed.

Lemma sort_by_index_perm (l : list (Z * DataFrame)) : Join.sort_by_index l ≡ₚ l.
Proof.
  unfold Join.sort_by_index. induction l as [|x l IH]; simpl; [reflexivity|].
  by rewrite insert_by_index_perm, IH.
Qed.

Lemma indexed_contents (files : list Join.csv_file) :
  (forall f, f ∈ files -> exists n, Join.page_index f = Return n) ->
  exists l, Join.indexed files = Return l /\ l.*2 = Join.content <$> files.
Proof.
  induction files as [|f files IH]; intros H; simpl.
  - by exists [].
  - destruct (H f) as [n Hn]; [left|]. rewrite Hn.
    destruct IH as (l & -> & Hl); [intros g Hg; apply H; by right|].
    exists ((n, Join.content f) :: l). split; [reflexivity|].
    rewrite !fmap_cons. f_equal. exact Hl.
Qed.

Lemma concat_keys (dfs : list DataFrame) :
  keys (Join.concat dfs) = dfs ≫= keys.
Proof.
  unfold keys, column, Join.concat. simpl.
  induction dfs as [|d dfs IH]; [reflexivity|].
  by rewrite !bind_cons, fmap_app, IH.
Qed.

Lemma cell_insert_ne (r : row) (c c' v : string) :
  c <> c' -> cell (<[c := v]> r) c' = cell r c'.
Proof. intros H. unfold cell. by rewrite lookup_insert_ne. Qed.

Lemma CNPJ_not_key : CNPJ <> REGISTRO_ANS.
Proof. discriminate. Qed.

Lemma ensure_column_keys (d : DataFrame) : keys (ensure_column CNPJ d) = keys d.
Proof.
  unfold ensure_column. destruct (decide _); [reflexivity|].
  unfold keys, column. simpl. rewrite <- list_fmap_compose.
  apply list_fmap_ext. intros i r _. simpl. apply cell_insert_ne, CNPJ_not_key.
Qed.

Lemma ensure_column_columns (c : string) (d : DataFrame) (k : string) :
  k ∈ columns d -> k ∈ columns (ensure_column c d).
Proof.
  unfold ensure_column. destruct (decide _); [done|]. simpl. intros H.
  apply elem_of_app. by left.
Qed.

Lemma merge_keys_spec (df_in df_out : DataFrame) :
  REGISTRO_ANS ∈ columns df_in -> REGISTRO_ANS ∈ columns df_out ->
  REGISTRO_ANS ∈ GetCnpj.merge_keys df_in df_out /\
  Forall (fun k => k ∈ columns df_out) (GetCnpj.merge_keys df_in df_out).
Proof.
  intros H1 H2. unfold GetCnpj.merge_keys.
  set (P := fun c => c ∈ columns df_in /\ c ∈ columns df_out).
  assert (Hin : REGISTRO_ANS ∈ filter P [REGISTRO_ANS; RAZAO_SOCIAL; NOME_FANTASIA]).
  { apply list_elem_of_filter. split; [by split|left]. }
  assert (Hall : Forall (fun k => k ∈ columns df_out)
                        (filter P [REGISTRO_ANS; RAZAO_SOCIAL; NOME_FANTASIA])).
  { apply Forall_forall. intros k Hk. apply list_elem_of_filter in Hk. apply Hk. }
  destruct (filter P [REGISTRO_ANS; RAZAO_SOCIAL; NOME_FANTASIA]) as [|k ks].
  - by apply elem_of_nil in Hin.
  - split; [exact Hin|exact Hall].
Qed.

Lemma agree_key (on : list string) (a b : row) :
  REGISTRO_ANS ∈ on -> GetCnpj.agree on a b = true ->
  cell b REGISTRO_ANS = cell a REGISTRO_ANS.
Proof.
  intros Hin H. unfold GetCnpj.agree in H. rewrite forallb_forall in H.
  symmetry. apply String.eqb_eq, H. by apply list_elem_of_In.
Qed.

Lemma filter_unique {A B} (f : A -> B) (P : A -> Prop) `{!forall x, Decision (P x)}
      (b : B) (l : list A) :
  NoDup (f <$> l) -> (forall x, P x -> f x = b) -> length (filter P l) <= 1.
Proof.
  intros Hnd HP. induction l as [|x t IH]; [simpl; lia|].
  simpl in Hnd. apply NoDup_cons in Hnd as [Hx Hnd]. specialize (IH Hnd).
  rewrite filter_cons. destruct (decide (P x)) as [Px|]; [|exact IH].
  destruct (filter P t) as [|y t'] eqn:Ht; [simpl; lia|].
  exfalso. apply Hx.
  assert (Hy : y ∈ filter P t) by (rewrite Ht; left).
  apply list_elem_of_filter in Hy as [Py Hy].
  rewrite (HP x Px), <- (HP y Py). by apply list_elem_of_fmap_2.
Qed.

Lemma left_merge_keys (on : list string) (left right : DataFrame) :
  REGISTRO_ANS ∈ on -> NoDup (keys right) ->
  keys (GetCnpj.left_merge on left right) = keys left.
Proof.
  intros Hon Hnd. unfold keys, column, GetCnpj.left_merge. simpl.
  induction (rows left) as [|l ls IH]; [reflexivity|].
  rewrite bind_cons, fmap_app, IH. simpl. f_equal.
  pose proof (filter_unique (fun r : row => cell r REGISTRO_ANS)
                            (fun m => GetCnpj.agree on l m = true)
                            (cell l REGISTRO_ANS) (rows right) Hnd
                            (fun m Hm => agree_key on l m Hon Hm)) as Hlen.
  destruct (filter _ (rows right)) as [|m [|m' ms]]; simpl in *; try lia;
    by rewrite cell_insert_ne by apply CNPJ_not_key.
Qed.

(** C3 as stated fails: two page files that list the same operator give a
    table with that key twice, and a checkpoint that holds a record twice
    doubles the record of the base table. *)
Lemma keys_unique_counterexample :
  (exists d, Join.join [Examples.shard 1; Examples.shard 2] = Return d /\
             keys d = ["12345"; "12345"]) /\
  (exists d, GetCnpj.merge_with_existing Examples.base (Some Examples.doubled) = Return d /\
             keys d = ["12345"; "12345"]) /\
  ~ NoDup ["12345"; "12345"].
Proof.
  split; [|split].
  - eexists. split; [by vm_compute|by vm_compute].
  - eexists. split; [by vm_compute|by vm_compute].
  - intros H. apply NoDup_cons in H as [H _]. apply H. left.
Qed.

(** C3, amended. The shard merge keeps every row, so its table has pairwise
    distinct keys exactly when the rows of the page files, taken together,
    have; the load step keeps the key column of the base table, same keys in
    the same order, when the base table has no column CNPJ yet and the
    checkpoint has pairwise distinct keys, or when there is no checkpoint,
    so its table has pairwise distinct keys exactly when the base table
    has. *)
Theorem working_table_keys_unique
        (files : list Join.csv_file) (df_in old : DataFrame) :
  files <> [] ->
  (forall f, f ∈ files -> exists n, Join.page_index f = Return n) ->
  REGISTRO_ANS ∈ columns df_in ->
  CNPJ ∉ columns df_in ->
  REGISTRO_ANS ∈ columns old ->
  NoDup (keys old) ->
  (exists d, Join.join files = Return d /\
             rows d ≡ₚ files ≫= (fun f => rows (Join.content f)) /\
             (NoDup (keys d) <-> NoDup (files ≫= (fun f => keys (Join.content f))))) /\
  (exists d, GetCnpj.merge_with_existing df_in (Some old) = Return d /\
             keys d = keys df_in /\
             (NoDup (keys d) <-> NoDup (keys df_in))) /\
  (exists d, GetCnpj.merge_with_existing df_in None = Return d /\
             keys d = keys df_in /\
             (NoDup (keys d) <-> NoDup (keys df_in))).
Proof.
  intros Hne Hidx Hreg Hcnpj Hregold Hold. split; [|split].
  - destruct (indexed_contents files Hidx) as (l & Hl & Hc).
    unfold Join.join. rewrite Hl.
    pose proof (sort_by_index_perm l) as Hp.
    destruct (Join.sort_by_index l) as [|x sorted] eqn:Hs.
    + apply Permutation_nil_l in Hp. subst l. destruct files; [done|discriminate].
    + eexists. split; [reflexivity|]. split.
      * unfold Join.concat. cbn [rows]. by rewrite Hp, Hc, list_fmap_bind.
      * by rewrite concat_keys, Hp, Hc, list_fmap_bind.
  - unfold GetCnpj.merge_with_existing.
    destruct (merge_keys_spec df_in (ensure_column CNPJ old) Hreg
                              (ensure_column_columns _ _ _ Hregold)) as [Hk Hall].
    rewrite decide_True by exact Hall. rewrite decide_False by exact Hcnpj.
    eexists. split; [reflexivity|].
    rewrite left_merge_keys; [by split|exact Hk|by rewrite ensure_column_keys].
  - simpl. eexists. split; [reflexivity|]. by rewrite ensure_column_keys.
Qed.

Lemma working_table_keys_unique_witness :
  (exists d, Join.join [KeyExamples.page2; KeyExamples.page1] = Return d /\
             NoDup (keys d)) /\
  (exists d, GetCnpj.merge_with_existing KeyExamples.two_base
                                         (Some KeyExamples.two_checkpoint) = Return d /\
             keys d = ["12345"; "67890"] /\ NoDup (keys d)).
Proof.
  assert (Hnd : forall a b c : string,
             a <> b -> a <> c -> b <> c -> NoDup [a; b; c]).
  { intros a b c Hab Hac Hbc. repeat constructor.
    - intros H. apply elem_of_cons in H as [H|H]; [done|].
      by apply list_elem_of_singleton in H.
    - intros H. by apply list_elem_of_singleton in H.
    - by intros H%elem_of_nil. }
  destruct (working_table_keys_unique [KeyExamples.page2; KeyExamples.page1]
                                      KeyExamples.two_base KeyExamples.two_checkpoint)
    as ((d1 & Hd1 & _ & Hu1) & (d2 & Hd2 & Hk2 & Hu2) & _).
  - discriminate.
  - intros f Hf. apply elem_of_cons in Hf as [->|Hf]; [by exists 2%Z|].
    apply list_elem_of_singleton in Hf as ->. by exists 1%Z.
  - left.
  - vm_compute. intros H. repeat (apply elem_of_cons in H as [H|H]; [discriminate|]).
    by apply elem_of_nil in H.
  - left.
  - apply (NoDup_cons_2 "12345" ["67890"]); [|apply NoDup_singleton].
    intros H. by apply list_elem_of_singleton in H.
  - split.
    + exists d1. split; [exact Hd1|]. apply Hu1.
      apply (Hnd "11111" "12345" "67890"); discriminate.
    + exists d2. split; [exact Hd2|]. split; [exact Hk2|]. apply Hu2.
      apply (NoDup_cons_2 "12345" ["67890"]); [|apply NoDup_singleton].
      intros H. by apply list_elem_of_singleton in H.
Defined.

End KeyFacts.

(** ** The added definitions on small inputs *)

Section MoreEvaluation.

Example parse_plain : Paginator.parse_current_total "1 de 139" = Some (1, 139)%Z.
Proof. reflexivity. Qed.

Example parse_no_spaces : Paginator.parse_current_total "12de3" = Some (12, 3)%Z.
Proof. reflexivity. Qed.

Example parse_leftmost :
  Paginator.parse_current_total "x1 de 2y3 de 4" = Some (1, 2)%Z /\
  Paginator.parse_current_total "3 4 de 5" = Some (4, 5)%Z /\
  Paginator.parse_current_total "34de5 de 6" = Some (34, 5)%Z.
Proof. by repeat split. Qed.

Example parse_nothing :
  Paginator.parse_current_total "1 de" = None /\
  Paginator.parse_current_total "abc" = None.
Proof. by split. Qed.

Example indicator_timeout :
  Paginator.get_current_and_total (Raise TimeoutException) = Return None.
Proof. reflexivity. Qed.

Example int_of_str_samples :
  JoinDir.int_of_str (list_ascii_of_string " +7 ") = Return 7%Z /\
  JoinDir.int_of_str (list_ascii_of_string "1_000") = Return 1000%Z /\
  JoinDir.int_of_str (list_ascii_of_string "-0") = Return 0%Z /\
  JoinDir.int_of_str (list_ascii_of_string "01") = Return 1%Z /\
  JoinDir.int_of_str (list_ascii_of_string "1__0") = Raise ValueError /\
  JoinDir.int_of_str (list_ascii_of_string "1_") = Raise ValueError /\
  JoinDir.int_of_str (list_ascii_of_string "_1") = Raise ValueError /\
  JoinDir.int_of_str (list_ascii_of_string "+ 1") = Raise ValueError /\
  JoinDir.int_of_str (list_ascii_of_string "") = Raise ValueError.
Proof. by repeat split. Qed.

Example page_index_samples :
  JoinDir.page_index_of "12-2024-01-05.csv" = Return 12%Z /\
  JoinDir.page_index_of "registro-ans-unificado-com-cnpj.csv" = Raise ValueError /\
  JoinDir.page_index_of "-x.csv" = Raise ValueError.
Proof. by repeat split. Qed.

Example csv_suffix :
  JoinDir.ends_with_csv "a.csv" = true /\ JoinDir.ends_with_csv ".csv" = true /\
  JoinDir.ends_with_csv "csv" = false /\ JoinDir.ends_with_csv "a.csv.bak" = false.
Proof. by repeat split. Qed.

Example rate_limited_samples :
  rate_limited 500 true [EFetch "a"; ESleep 500; EFetch "b"] = true /\
  rate_limited 500 true [EFetch "a"; ESleep 499; EFetch "b"] = false /\
  rate_limited 500 true [EFetch "a"; ELog true "a"; EFetch "b"] = false.
Proof. by repeat split. Qed.

End MoreEvaluation.

(** ** More on whitespace normalisation and digits *)

Section MoreTextFacts.
Import Text.

Lemma inked_cons_space (c : ascii) (l : list ascii) :
  is_space c = true -> inked (c :: l) = inked l.
Proof. intros H. unfold inked. rewrite filter_cons_False; [done|]. by rewrite H. Qed.

Lemma inked_cons_ink (c : ascii) (l : list ascii) :
  is_space c = false -> inked (c :: l) = c :: inked l.
Proof. intros H. unfold inked. by rewrite filter_cons_True. Qed.

Lemma sub_spaces_inked (l : list ascii) :
  forall b, inked (sub_spaces b l) = inked l.
Proof.
  induction l as [|c t IH]; intros b; simpl; [reflexivity|].
  destruct (is_space c) eqn:Hc.
  - rewrite (inked_cons_space c t Hc). destruct b; [apply IH|].
    rewrite (inked_cons_space space _ is_space_space). apply IH.
  - rewrite !inked_cons_ink by exact Hc. by rewrite IH.
Qed.

Lemma lstrip_inked (l : list ascii) : inked (lstrip l) = inked l.
Proof.
  induction l as [|c t IH]; simpl; [reflexivity|].
  destruct (is_space c) eqn:Hc; [|reflexivity].
  by rewrite (inked_cons_space c t Hc).
Qed.

Lemma rstrip_inked (l : list ascii) : inked (rstrip l) = inked l.
Proof.
  induction l as [|c t IH]; simpl; [reflexivity|].
  destruct (is_space c) eqn:Hc.
  - rewrite (inked_cons_space c t Hc), <- IH.
    destruct (rstrip t); [reflexivity|by rewrite (inked_cons_space c _ Hc)].
  - rewrite (inked_cons_ink c t Hc), <- IH.
    destruct (rstrip t); by rewrite (inked_cons_ink c _ Hc).
Qed.

Lemma sub_spaces_length (l : list ascii) :
  forall b, length (sub_spaces b l) <= length l.
Proof.
  induction l as [|c t IH]; intros b; simpl; [lia|].
  pose proof (IH true). pose proof (IH false).
  destruct (is_space c); [destruct b|]; simpl; lia.
Qed.

Lemma lstrip_length (l : list ascii) : length (lstrip l) <= length l.
Proof.
  induction l as [|c t IH]; simpl; [lia|]. destruct (is_space c); simpl; lia.
Qed.

Lemma rstrip_length (l : list ascii) : length (rstrip l) <= length l.
Proof.
  induction l as [|c t IH]; simpl; [lia|].
  destruct (rstrip t); [destruct (is_space c)|]; simpl in *; lia.
Qed.

Lemma string_length_chars (s : string) :
  String.length s = length (list_ascii_of_string s).
Proof. induction s as [|c s IH]; simpl; [reflexivity|by rewrite IH]. Qed.

End MoreTextFacts.

(** ** What the CNPJ stage stores and what the next stage accepts *)

Section ShapeFacts.
Import Text GetCnpj.

(** X1. Normalisation only touches whitespace: the other characters of the
    text are kept, in order, and the text never gets longer. *)
Theorem clean_keeps_ink (s : string) :
  inked (list_ascii_of_string (clean s)) = inked (list_ascii_of_string s) /\
  String.length (clean s) <= String.length s.
Proof.
  rewrite !string_length_chars, chars_of_clean. unfold clean_chars, strip. split.
  - by rewrite rstrip_inked, lstrip_inked, sub_spaces_inked.
  - pose proof (rstrip_length (lstrip (sub_spaces false (list_ascii_of_string s)))).
    pose proof (lstrip_length (sub_spaces false (list_ascii_of_string s))).
    pose proof (sub_spaces_length (list_ascii_of_string s) false). lia.
Qed.

Lemma digit_not_space (c : ascii) : is_digit c = true -> is_space c = false.
Proof.
  destruct c as [[] [] [] [] [] [] [] []]; intros H; try reflexivity; discriminate H.
Qed.

Lemma no_space_spaced (l : list ascii) :
  Forall (fun c => is_space c = false) l -> forall b, spaced b l = true.
Proof.
  induction 1 as [|c l Hc _ IH]; intros b; simpl; [reflexivity|].
  rewrite Hc. apply IH.
Qed.

Lemma no_space_fixed (l : list ascii) :
  Forall (fun c => is_space c = false) l -> clean_chars l = l.
Proof.
  intros H. apply clean_chars_fixed.
  - by apply no_space_spaced.
  - destruct H; simpl; [done|assumption].
  - unfold no_trailing_space. destruct (last l) as [c|] eqn:Hl; [|done].
    rewrite Forall_forall in H. apply H. rewrite last_lookup in Hl.
    by apply list_elem_of_lookup_2 in Hl.
Qed.

Lemma CNPJ_ATOMS_plain : Forall plain_atom CNPJ_ATOMS.
Proof. unfold CNPJ_ATOMS. repeat constructor. Qed.

Lemma atoms_no_space (p : list atom) (m : list ascii) :
  Forall plain_atom p ->
  Forall2 (fun a c => atom_matches a c = true) p m ->
  Forall (fun c => is_space c = false) m.
Proof.
  intros Hp H. induction H as [|a c p m Hc _ IH]; [constructor|].
  apply Forall_cons in Hp as [Ha Hp]. constructor; [|by apply IH].
  destruct a as [|x]; simpl in *.
  - by apply digit_not_space.
  - apply Ascii.eqb_eq in Hc as <-. apply Ha.
Qed.

Lemma atoms_digits (p : list atom) (m : list ascii) :
  Forall plain_atom p ->
  Forall2 (fun a c => atom_matches a c = true) p m ->
  length (filter (fun c => is_digit c = true) m) = digit_atoms p.
Proof.
  intros Hp H. unfold digit_atoms. induction H as [|a c p m Hc _ IH]; [reflexivity|].
  apply Forall_cons in Hp as [Ha Hp]. specialize (IH Hp).
  destruct a as [|x]; simpl in Hc, Ha.
  - rewrite (filter_cons_True _ c) by exact Hc.
    rewrite (filter_cons_True _ Digit) by reflexivity.
    simpl. by rewrite IH.
  - apply Ascii.eqb_eq in Hc as <-. destruct Ha as [_ Hd].
    rewrite (filter_cons_False _ x) by (by rewrite Hd).
    rewrite (filter_cons_False _ (Lit x)) by discriminate. exact IH.
Qed.

Lemma string_of_chars_length (l : list ascii) :
  String.length (string_of_list_ascii l) = length l.
Proof. by rewrite string_length_chars, list_ascii_of_string_of_list_ascii. Qed.

Lemma shaped_valid (m : list ascii) :
  shaped m ->
  clean (string_of_list_ascii m) = string_of_list_ascii m /\
  String.length (only_digits (clean (string_of_list_ascii m))) = 14 /\
  CnpjBiz.invalid_cnpj (only_digits (clean (string_of_list_ascii m))) = false.
Proof.
  intros H.
  assert (Hc : clean (string_of_list_ascii m) = string_of_list_ascii m).
  { unfold clean. rewrite list_ascii_of_string_of_list_ascii.
    by rewrite (no_space_fixed m (atoms_no_space _ _ CNPJ_ATOMS_plain H)). }
  assert (Hl : String.length (only_digits (string_of_list_ascii m)) = 14).
  { unfold only_digits.
    rewrite list_ascii_of_string_of_list_ascii, string_of_chars_length.
    by rewrite (atoms_digits _ _ CNPJ_ATOMS_plain H). }
  rewrite Hc. split; [reflexivity|]. split; [exact Hl|].
  unfold CnpjBiz.invalid_cnpj. rewrite Hl. simpl.
  destruct (only_digits (string_of_list_ascii m)); [discriminate Hl|reflexivity].
Qed.

(** X2. A text that matches the CNPJ pattern is left as it is by the
    normalisation, has 14 digits once the punctuation is removed, and passes
    the validity test of the address and phone stage. *)
Theorem formatted_cnpj_is_accepted (m : list ascii) :
  shaped m ->
  clean (string_of_list_ascii m) = string_of_list_ascii m /\
  String.length (only_digits (clean (string_of_list_ascii m))) = 14 /\
  CnpjBiz.invalid_cnpj (only_digits (clean (string_of_list_ascii m))) = false.
Proof. apply shaped_valid. Qed.

Lemma formatted_cnpj_is_accepted_witness :
  CnpjBiz.invalid_cnpj (only_digits (clean "12.345.678/0001-90")) = false.
Proof.
  refine (proj2 (proj2 (formatted_cnpj_is_accepted
                          (list_ascii_of_string "12.345.678/0001-90") _))).
  unfold shaped. simpl. repeat constructor.
Defined.

Lemma extract_cnpj_text_shape (text : string) :
  extract_cnpj_text text = "" \/
  shaped (list_ascii_of_string (extract_cnpj_text text)).
Proof.
  destruct (truthy (extract_cnpj_text text)) eqn:Ht.
  - right. destruct (extract_cnpj_text_sound text Ht) as (pre & post & _ & Ho). apply Ho.
  - left. by apply truthy_false.
Qed.

Lemma fetch_cnpj_shape (v : View) (s : string) :
  fetch_cnpj v = Return s -> s = "" \/ shaped (list_ascii_of_string s).
Proof.
  unfold fetch_cnpj, from_label, from_page_source. simpl.
  pose proof extract_cnpj_text_shape as Hx.
  destruct (get v); [|discriminate].
  destruct (by_id v 0) as [t0|e0]; [destruct (truthy (extract_cnpj_text t0))|
                                    destruct (is_Timeout_or_Stale e0)];
    try discriminate; try (intros [= <-]; apply Hx);
    (destruct (by_id v 1) as [t1|e1]; [destruct (truthy (extract_cnpj_text t1))|
                                       destruct (is_Timeout_or_Stale e1)]);
    try discriminate; try (intros [= <-]; apply Hx);
    (destruct (by_label v) as [t2|e2]; [destruct (truthy (extract_cnpj_text t2))|
                                        destruct (is_Timeout_or_Stale e2)]);
    try discriminate; try (intros [= <-]; apply Hx);
    (destruct (page_source v) as [t3|e3]; [destruct (truthy (extract_cnpj_text t3))|]);
    intros [= <-]; first [apply Hx|by left].
Qed.

Lemma try_fetch_shape (web : nat -> View) (reg : string) (st : state) :
  (try_fetch web reg st).1 = "" \/
  shaped (list_ascii_of_string (try_fetch web reg st).1).
Proof.
  unfold try_fetch, call_fetch.
  destruct (fetch_cnpj (web (calls st))) as [c|e] eqn:H1; simpl; [|by left].
  destruct (truthy c) eqn:Hc; simpl.
  - by apply fetch_cnpj_shape in H1.
  - destruct (fetch_cnpj (web (S (calls st)))) as [c2|e2] eqn:H2; simpl; [|by left].
    by apply fetch_cnpj_shape in H2.
Qed.

(** X3. Whatever one iteration of the CNPJ stage stores in the column CNPJ
    is either empty or a text of the form dd.ddd.ddd/dddd-dd, which the
    address and phone stage accepts as a valid CNPJ. *)
Theorem stored_cnpj_is_empty_or_formatted
        (web : nat -> View) (st : state) (i : nat) :
  i < length (rows (df st)) ->
  let stored := at_get (df (step web st i)) i CNPJ in
  stored = "" \/
  (shaped (list_ascii_of_string stored) /\
   CnpjBiz.invalid_cnpj (only_digits (clean stored)) = false).
Proof.
  intros Hi. simpl. rewrite step_df, at_get_at_set_eq by exact Hi.
  destruct (try_fetch_shape web (clean (at_get (df st) i REGISTRO_ANS)) st) as [H|H].
  - by left.
  - right. split; [exact H|].
    pose proof (shaped_valid _ H) as (_ & _ & Hv).
    by rewrite string_of_list_ascii_of_string in Hv.
Qed.

Lemma stored_cnpj_is_empty_or_formatted_witness :
  let stored := at_get (df (step (fun _ => Examples.label_only_view)
                                 (initial Examples.acme) 0)) 0 CNPJ in
  stored = "" \/
  (shaped (list_ascii_of_string stored) /\
   CnpjBiz.invalid_cnpj (only_digits (clean stored)) = false).
Proof.
  apply (stored_cnpj_is_empty_or_formatted (fun _ => Examples.label_only_view)
                                            (initial Examples.acme) 0).
  simpl. lia.
Defined.

(** X4. An exception that leaves [fetch_cnpj] comes from loading the page,
    or is an exception other than a timeout or a stale element raised while
    looking up one of the two anchors; reading the page source never makes
    the function fail. *)
Theorem fetch_cnpj_raises (v : View) (e : exn) :
  fetch_cnpj v = Raise e ->
  get v = Raise e \/
  (is_Timeout_or_Stale e = false /\
   (by_id v 0 = Raise e \/ by_id v 1 = Raise e \/ by_label v = Raise e)).
Proof.
  unfold fetch_cnpj, from_label, from_page_source. simpl.
  destruct (get v) as [|eg]; [|intros [= <-]; by left].
  intros H. right.
  destruct (by_id v 0) as [t0|e0]; [destruct (truthy (extract_cnpj_text t0))|
                                    destruct (is_Timeout_or_Stale e0) eqn:?];
    try discriminate; try (injection H as <-; by auto);
    (destruct (by_id v 1) as [t1|e1]; [destruct (truthy (extract_cnpj_text t1))|
                                       destruct (is_Timeout_or_Stale e1) eqn:?]);
    try discriminate; try (injection H as <-; by auto);
    (destruct (by_label v) as [t2|e2]; [destruct (truthy (extract_cnpj_text t2))|
                                        destruct (is_Timeout_or_Stale e2) eqn:?]);
    try discriminate; try (injection H as <-; by auto);
    (destruct (page_source v) as [t3|e3]; [destruct (truthy (extract_cnpj_text t3))|]);
    discriminate.
Qed.

Lemma fetch_cnpj_raises_witness :
  get Examples.broken_view = Raise WebDriverException \/
  (is_Timeout_or_Stale WebDriverException = false /\
   (by_id Examples.broken_view 0 = Raise WebDriverException \/
    by_id Examples.broken_view 1 = Raise WebDriverException \/
    by_label Examples.broken_view = Raise WebDriverException)).
Proof. apply (fetch_cnpj_raises Examples.broken_view WebDriverException). reflexivity. Defined.

End ShapeFacts.

(** ** More on the search for the pattern *)

Section MoreRegexFacts.
Import GetCnpj.

(** X5. [extract_cnpj_text] returns the empty string exactly when the text
    has no match of the pattern between word boundaries, and otherwise the
    leftmost match. *)
Theorem extract_cnpj_text_leftmost (text : string) :
  (extract_cnpj_text text = "" <->
   ~ exists pre m post, list_ascii_of_string text = pre ++ m ++ post /\ occurs pre m post) /\
  (forall pre m post,
      list_ascii_of_string text = pre ++ m ++ post -> occurs pre m post ->
      exists pre' post',
        list_ascii_of_string text
        = pre' ++ list_ascii_of_string (extract_cnpj_text text) ++ post' /\
        occurs pre' (list_ascii_of_string (extract_cnpj_text text)) post' /\
        length pre' <= length pre).
Proof.
  split.
  - split.
    + intros He (pre & m & post & Hl & Ho).
      destruct (extract_cnpj_text_complete text pre m post Hl Ho)
        as (_ & _ & _ & _ & Ht & _).
      rewrite He in Ht. discriminate.
    + intros Hn. apply truthy_false.
      destruct (Text.truthy (extract_cnpj_text text)) eqn:Ht; [|reflexivity].
      exfalso. apply Hn.
      destruct (extract_cnpj_text_sound text Ht) as (pre & post & Hl & Ho). eauto.
  - intros pre m post Hl Ho.
    destruct (extract_cnpj_text_complete text pre m post Hl Ho)
      as (pre' & m' & post' & He & _ & Hl' & Ho' & Hlen).
    exists pre', post'. rewrite He, list_ascii_of_string_of_list_ascii.
    split; [exact Hl'|split; [exact Ho'|exact Hlen]].
Qed.

End MoreRegexFacts.

(** ** Traces of the two loops *)

Section MoreTraceFacts.

Lemma fetches_app (a b : list event) : fetches (a ++ b) = fetches a + fetches b.
Proof. unfold fetches. by rewrite filter_app, length_app. Qed.

Lemma saved_app (a b : list event) : saved (a ++ b) = saved a ++ saved b.
Proof. unfold saved. apply omap_app. Qed.

Lemma last_saved_snoc_save (tr : list event) (d : DataFrame) :
  last_saved (tr ++ [ESave d]) = Some d.
Proof. unfold last_saved. rewrite saved_app. simpl. apply last_snoc. Qed.

Lemma last_saved_snoc_sleep (tr : list event) (ms : nat) :
  last_saved (tr ++ [ESleep ms]) = last_saved tr.
Proof. unfold last_saved. rewrite saved_app. simpl. by rewrite app_nil_r. Qed.

Lemma rate_limited_app (min : nat) (a b : list event) :
  forall r, rate_limited min r (a ++ b)
            = rate_limited min r a && rate_limited min (ready_after min r a) b.
Proof.
  induction a as [|e a IH]; intros r; simpl; [reflexivity|].
  destruct e; simpl; rewrite ?IH; try reflexivity. by rewrite andb_assoc.
Qed.

Lemma ready_after_app (min : nat) (a b : list event) :
  forall r, ready_after min r (a ++ b) = ready_after min (ready_after min r a) b.
Proof.
  induction a as [|e a IH]; intros r; simpl; [reflexivity|].
  destruct e; simpl; by rewrite ?IH.
Qed.

(** The state of a trace that respects the pacing and ends after a pause. *)
Lemma paced_extend (min : nat) (tr evs : list event) :
  rate_limited min true tr = true -> ready_after min true tr = true ->
  rate_limited min true evs = true ->
  rate_limited min true (tr ++ evs) = true /\
  ready_after min true (tr ++ evs) = ready_after min true evs.
Proof.
  intros H1 H2 H3. by rewrite rate_limited_app, ready_after_app, H1, H2, H3.
Qed.




End MoreTraceFacts.

(** ** The loop of the CNPJ stage, as a whole *)

Section GetCnpjRun.
Import GetCnpj.

Lemma try_fetch_events (web : nat -> View) (reg : string) (st : state) :
  exists evs,
    (evs = [EFetch reg] \/ evs = [EFetch reg; ESleep 1000; EFetch reg]) /\
    trace (try_fetch web reg st).2 = trace st ++ evs /\
    df (try_fetch web reg st).2 = df st /\
    processed_since_save (try_fetch web reg st).2 = processed_since_save st.
Proof.
  unfold try_fetch, call_fetch.
  destruct (fetch_cnpj (web (calls st))) as [c|e]; simpl.
  - destruct (Text.truthy c); simpl.
    + exists [EFetch reg]. by repeat split; [left|..].
    + destruct (fetch_cnpj (web (S (calls st)))); simpl;
        exists [EFetch reg; ESleep 1000; EFetch reg];
        rewrite <- !app_assoc; by repeat split; [right|..].
  - exists [EFetch reg]. by repeat split; [left|..].
Qed.

Lemma step_events (web : nat -> View) (st : state) (i : nat) :
  let reg := Text.clean (at_get (df st) i REGISTRO_ANS) in
  exists evs b sv,
    (evs = [EFetch reg] \/ evs = [EFetch reg; ESleep 1000; EFetch reg]) /\
    (sv = [] /\ processed_since_save (step web st i) <> 0 \/
     sv = [ESave (df (step web st i))]) /\
    trace (step web st i) = trace st ++ evs ++ [ELog b reg] ++ sv ++ [ESleep 500].
Proof.
  intros reg. unfold step. fold reg.
  destruct (try_fetch_events web reg st) as (evs & Hevs & Ht & Hd & Hc).
  destruct (try_fetch web reg st) as [cnpj st1]. simpl in *.
  exists evs, (Text.truthy cnpj). unfold save_batch. simpl.
  destruct (decide (BATCH_SIZE <= S (processed_since_save st1))); simpl.
  - exists [ESave (at_set (df st1) i CNPJ cnpj)].
    split; [exact Hevs|]. split; [by right|]. rewrite Ht, <- !app_assoc. reflexivity.
  - exists []. split; [exact Hevs|]. split; [left; split; [done|lia]|].
    rewrite Ht, <- !app_assoc. reflexivity.
Qed.

Lemma step_well_paced (web : nat -> View) (st : state) (i : nat) :
  well_paced 500 (trace st) -> well_paced 500 (trace (step web st i)).
Proof.
  intros [H1 H2]. destruct (step_events web st i) as (evs & b & sv & He & Hs & ->).
  unfold well_paced. rewrite rate_limited_app, ready_after_app, H1, H2.
  destruct He as [-> | ->]; destruct Hs as [[-> _] | ->]; by simpl.
Qed.

Lemma step_fetches (web : nat -> View) (st : state) (i : nat) :
  S (fetches (trace st)) <= fetches (trace (step web st i)) <= 2 + fetches (trace st).
Proof.
  destruct (step_events web st i) as (evs & b & sv & He & Hs & ->).
  rewrite fetches_app.
  destruct He as [-> | ->]; destruct Hs as [[-> _] | ->]; unfold fetches; simpl; lia.
Qed.

Lemma step_last_saved (web : nat -> View) (st : state) (i : nat) :
  processed_since_save (step web st i) = 0 ->
  last_saved (trace (step web st i)) = Some (df (step web st i)).
Proof.
  intros H0. destruct (step_events web st i) as (evs & b & sv & He & Hs & Ht).
  destruct Hs as [[_ Hn] | ->]; [done|]. rewrite Ht.
  rewrite !app_assoc, last_saved_snoc_sleep. apply last_saved_snoc_save.
Qed.

Lemma fold_step_frame (web : nat -> View) (pending : list nat) :
  forall st j f,
    j ∉ pending \/ f <> CNPJ ->
    at_get (df (fold_left (step web) pending st)) j f = at_get (df st) j f.
Proof.
  induction pending as [|i pending IH]; intros st j f H; simpl; [reflexivity|].
  rewrite IH.
  - rewrite step_df. apply at_get_at_set_ne.
    destruct H as [H|H]; [left|right; congruence].
    intros ->. apply H. left.
  - destruct H as [H|H]; [left|by right]. intros Hin. apply H. by right.
Qed.

Lemma fold_step_length (web : nat -> View) (pending : list nat) :
  forall st, length (rows (df (fold_left (step web) pending st))) = length (rows (df st)).
Proof.
  induction pending as [|i pending IH]; intros st; simpl; [reflexivity|].
  by rewrite IH, step_df, at_set_length.
Qed.

Lemma final_flush_df (st : state) : df (final_flush st) = df st.
Proof. unfold final_flush. by destruct (decide _). Qed.

Lemma fold_left_snoc_step {A B} (f : A -> B -> A) (l : list B) (a : A) :
  l <> [] -> exists a' x, fold_left f l a = f a' x.
Proof.
  intros Hl. destruct (exists_last Hl) as (l' & x & ->).
  rewrite fold_left_app. simpl. eauto.
Qed.

End GetCnpjRun.

(** ** The loop of the address and phone stage, as a whole *)

Section CnpjBizRun.
Import CnpjBiz.

Lemma biz_try_fetch_events (web : nat -> View) (digits : string) (st : state) :
  exists evs,
    (evs = [EFetch digits] \/ evs = [EFetch digits; ESleep 1200; EFetch digits]) /\
    trace (try_fetch web digits st).2 = trace st ++ evs /\
    df (try_fetch web digits st).2 = df st /\
    processed_since_save (try_fetch web digits st).2 = processed_since_save st /\
    (forall e, (try_fetch web digits st).1 = Raise e -> evs = [EFetch digits]).
Proof.
  unfold try_fetch, call_fetch.
  destruct (fetch_from_cnpjbiz (web (calls st))) as [data|e]; simpl.
  - exists [EFetch digits]. by repeat split; [left|..].
  - destruct (is_WebDriverException e); simpl.
    + destruct (fetch_from_cnpjbiz (web (S (calls st)))); simpl;
        exists [EFetch digits; ESleep 1200; EFetch digits];
        rewrite <- !app_assoc; (repeat split; [by right|..]); try done.
    + exists [EFetch digits]. by repeat split; [left|..].
Qed.

Lemma count_and_save_events (st : state) :
  exists sv,
    (sv = [] /\ processed_since_save (count_and_save st) <> 0 \/
     sv = [ESave (df st)]) /\
    trace (count_and_save st) = trace st ++ sv.
Proof.
  unfold count_and_save.
  destruct (decide (BATCH_SIZE <= S (processed_since_save st))); simpl.
  - exists [ESave (df st)]. split; [by right|reflexivity].
  - exists []. split; [left; split; [done|lia]|by rewrite app_nil_r].
Qed.

(** The three ways an iteration can go: the record is skipped, it is
    fetched and written, or an exception leaves the loop. *)
Lemma biz_step_cases (web : nat -> View) (st : state) (i : nat) :
  let masked := Text.clean (at_get (df st) i CNPJ) in
  let digits := Text.only_digits masked in
  let r := step web st i in
  (exists sv,
      r.1 = None /\ df r.2 = df st /\
      (sv = [] /\ processed_since_save r.2 <> 0 \/ sv = [ESave (df r.2)]) /\
      trace r.2 = trace st ++ [ELog false masked] ++ sv) \/
  (exists evs sv data,
      r.1 = None /\ data.*1 = target_cols /\ df r.2 = write_back (df st) i data /\
      (evs = [EFetch digits] \/ evs = [EFetch digits; ESleep 1200; EFetch digits]) /\
      (sv = [] /\ processed_since_save r.2 <> 0 \/ sv = [ESave (df r.2)]) /\
      trace r.2 = trace st ++ evs ++ [ELog true digits] ++ sv ++ [ESleep 1000]) \/
  (exists e,
      r.1 = Some e /\ df r.2 = df st /\ trace r.2 = trace st ++ [EFetch digits]).
Proof.
  intros masked digits r. subst r. unfold step. fold masked. fold digits.
  destruct (invalid_cnpj digits).
  - left. simpl.
    destruct (count_and_save_events (emit (ELog false masked) st)) as (sv & Hs & Ht).
    exists sv. rewrite count_and_save_df in *. simpl in *.
    split; [reflexivity|]. split; [reflexivity|]. split; [exact Hs|].
    by rewrite Ht, <- app_assoc.
  - right.
    destruct (biz_try_fetch_events web digits st) as (evs & He & Ht & Hd & Hc & Hr).
    pose proof (biz_try_fetch_keys web digits st) as Hk.
    destruct (try_fetch web digits st) as [[data|e] st1]; simpl in *.
    + left.
      set (st2 := {| df := write_back (df st1) i data;
                     processed_since_save := processed_since_save st1;
                     calls := calls st1;
                     trace := trace st1 ++ [ELog true digits] |}).
      destruct (count_and_save_events st2) as (sv & Hs & Hts).
      exists evs, sv, data. rewrite count_and_save_df in *. simpl in *.
      split; [reflexivity|]. split; [by apply Hk|]. split; [by rewrite Hd|].
      split; [exact He|]. split; [exact Hs|].
      rewrite Hts, Ht, <- !app_assoc. reflexivity.
    + right. exists e. rewrite (Hr e eq_refl) in Ht. by repeat split.
Qed.

Lemma biz_step_well_paced (web : nat -> View) (st : state) (i : nat) :
  well_paced 1000 (trace st) ->
  rate_limited 1000 true (trace (step web st i).2) = true /\
  ((step web st i).1 = None -> well_paced 1000 (trace (step web st i).2)).
Proof.
  intros [H1 H2]. unfold well_paced.
  destruct (biz_step_cases web st i)
    as [(sv & Hr & _ & Hs & ->) | [(evs & sv & data & Hr & _ & _ & He & Hs & ->) |
                                   (e & Hr & _ & ->)]];
    rewrite ?rate_limited_app, ?ready_after_app, ?H1, ?H2.
  - destruct Hs as [[-> _] | ->]; by simpl.
  - destruct He as [-> | ->]; destruct Hs as [[-> _] | ->]; by simpl.
  - split; [reflexivity|]. rewrite Hr. discriminate.
Qed.

Lemma biz_loop_well_paced (web : nat -> View) (pending : list nat) :
  forall st, well_paced 1000 (trace st) ->
             rate_limited 1000 true (trace (loop web st pending).2) = true /\
             ((loop web st pending).1 = None ->
              well_paced 1000 (trace (loop web st pending).2)).
Proof.
  induction pending as [|i pending IH]; intros st Hst; simpl.
  - split; [apply Hst|done].
  - destruct (biz_step_well_paced web st i Hst) as [H1 H2].
    destruct (step web st i) as [[e|] st']; simpl in *.
    + split; [exact H1|discriminate].
    + apply IH. by apply H2.
Qed.

Lemma biz_step_fetches (web : nat -> View) (st : state) (i : nat) :
  fetches (trace (step web st i).2) <= 2 + fetches (trace st).
Proof.
  destruct (biz_step_cases web st i)
    as [(sv & _ & _ & Hs & ->) | [(evs & sv & data & _ & _ & _ & He & Hs & ->) |
                                  (e & _ & _ & ->)]];
    rewrite ?fetches_app.
  - destruct Hs as [[-> _] | ->]; unfold fetches; simpl; lia.
  - destruct He as [-> | ->]; destruct Hs as [[-> _] | ->]; unfold fetches; simpl; lia.
  - unfold fetches. simpl. lia.
Qed.

Lemma biz_loop_fetches (web : nat -> View) (pending : list nat) :
  forall st, fetches (trace (loop web st pending).2)
             <= 2 * length pending + fetches (trace st).
Proof.
  induction pending as [|i pending IH]; intros st; simpl; [lia|].
  pose proof (biz_step_fetches web st i) as H.
  destruct (step web st i) as [[e|] st']; simpl in *; [lia|].
  specialize (IH st'). lia.
Qed.

Lemma biz_step_last_saved (web : nat -> View) (st : state) (i : nat) :
  (step web st i).1 = None ->
  processed_since_save (step web st i).2 = 0 ->
  last_saved (trace (step web st i).2) = Some (df (step web st i).2).
Proof.
  intros Hn H0.
  destruct (biz_step_cases web st i)
    as [(sv & _ & _ & Hs & Ht) | [(evs & sv & data & _ & _ & _ & He & Hs & Ht) |
                                  (e & Hr & _)]].
  - destruct Hs as [[_ Hc] | ->]; [done|]. rewrite Ht, app_assoc.
    apply last_saved_snoc_save.
  - destruct Hs as [[_ Hc] | ->]; [done|]. rewrite Ht, !app_assoc.
    rewrite last_saved_snoc_sleep. apply last_saved_snoc_save.
  - congruence.
Qed.

Lemma biz_loop_last_saved (web : nat -> View) (pending : list nat) :
  forall st st', pending <> [] ->
                 loop web st pending = (None, st') ->
                 processed_since_save st' = 0 ->
                 last_saved (trace st') = Some (df st').
Proof.
  induction pending as [|i pending IH]; intros st st' Hne Hl H0; [done|].
  simpl in Hl.
  pose proof (biz_step_last_saved web st i) as Hs.
  destruct (step web st i) as [[e|] st1]; simpl in *; [discriminate|].
  destruct pending as [|j pending].
  - simpl in Hl. injection Hl as <-. by apply Hs.
  - by apply (IH st1 st').
Qed.

Lemma biz_step_frame (web : nat -> View) (st : state) (i j : nat) (f : string) :
  j <> i \/ f ∉ target_cols ->
  at_get (df (step web st i).2) j f = at_get (df st) j f.
Proof.
  intros H.
  destruct (biz_step_cases web st i)
    as [(sv & _ & -> & _) | [(evs & sv & data & _ & Hk & -> & _) | (e & _ & -> & _)]];
    try reflexivity.
  apply write_back_other. by rewrite Hk.
Qed.

Lemma biz_loop_frame (web : nat -> View) (pending : list nat) :
  forall st j f,
    j ∉ pending \/ f ∉ target_cols ->
    at_get (df (loop web st pending).2) j f = at_get (df st) j f.
Proof.
  induction pending as [|i pending IH]; intros st j f H; simpl; [reflexivity|].
  pose proof (biz_step_frame web st i j f) as Hs.
  destruct (step web st i) as [[e|] st1]; simpl in *.
  - apply Hs. destruct H as [H|H]; [left|by right]. intros ->. apply H. left.
  - rewrite IH.
    + apply Hs. destruct H as [H|H]; [left|by right]. intros ->. apply H. left.
    + destruct H as [H|H]; [left|by right]. intros Hin. apply H. by right.
Qed.

Lemma biz_step_length (web : nat -> View) (st : state) (i : nat) :
  length (rows (df (step web st i).2)) = length (rows (df st)).
Proof.
  destruct (biz_step_cases web st i)
    as [(sv & _ & -> & _) | [(evs & sv & data & _ & _ & -> & _) | (e & _ & -> & _)]];
    try reflexivity.
  apply write_back_length.
Qed.

Lemma biz_loop_length (web : nat -> View) (pending : list nat) :
  forall st, length (rows (df (loop web st pending).2)) = length (rows (df st)).
Proof.
  induction pending as [|i pending IH]; intros st; simpl; [reflexivity|].
  pose proof (biz_step_length web st i) as Hs.
  destruct (step web st i) as [[e|] st1]; simpl in *; [exact Hs|].
  by rewrite IH.
Qed.

Lemma biz_final_flush_df (st : state) : df (final_flush st) = df st.
Proof. unfold final_flush. by destruct (decide _). Qed.

End CnpjBizRun.

(** ** Whole runs of the two stages *)

Section RunTheorems.

Lemma fold_well_paced (web : nat -> GetCnpj.View) (pending : list nat) :
  forall st, well_paced 500 (trace st) ->
             well_paced 500 (trace (fold_left (GetCnpj.step web) pending st)).
Proof.
  induction pending as [|i pending IH]; intros st H; simpl; [exact H|].
  by apply IH, step_well_paced.
Qed.

Lemma fold_fetches (web : nat -> GetCnpj.View) (pending : list nat) :
  forall st,
    length pending + fetches (trace st)
    <= fetches (trace (fold_left (GetCnpj.step web) pending st))
    <= 2 * length pending + fetches (trace st).
Proof.
  induction pending as [|i pending IH]; intros st; simpl; [lia|].
  pose proof (step_fetches web st i). specialize (IH (GetCnpj.step web st i)). lia.
Qed.

Lemma final_flush_trace (st : state) :
  exists evs, trace (GetCnpj.final_flush st) = trace st ++ evs /\
              fetches evs = 0 /\ rate_limited 500 true evs = true /\
              forall r, rate_limited 500 r evs = true.
Proof.
  unfold GetCnpj.final_flush. destruct (decide _); simpl.
  - eexists. rewrite <- app_assoc. split; [reflexivity|]. by repeat split.
  - exists []. rewrite app_nil_r. by repeat split.
Qed.

Lemma biz_final_flush_trace (st : state) :
  exists evs, trace (CnpjBiz.final_flush st) = trace st ++ evs /\
              fetches evs = 0 /\ forall r, rate_limited 1000 r evs = true.
Proof.
  unfold CnpjBiz.final_flush. destruct (decide _); simpl.
  - eexists. split; [reflexivity|]. by split.
  - exists []. rewrite app_nil_r. by split.
Qed.

(** X6. The detail pages are opened at a bounded rate in every run: in the
    CNPJ stage a call of [fetch_cnpj], which opens the page with
    [driver.get], comes only after a pause of at least 0.5 s since the
    previous call, in the address and phone stage a call of
    [fetch_from_cnpjbiz] after a pause of at least 1 s, whether the loop ends
    normally or is left by an exception. (The [driver.refresh] that
    [fetch_cnpj] may do after a timeout is inside one call.) *)
Theorem page_loads_are_paced
        (web1 : nat -> GetCnpj.View) (d1 : DataFrame) (p1 : list nat)
        (web2 : nat -> CnpjBiz.View) (d2 : DataFrame) (p2 : list nat) :
  rate_limited 500 true (trace (GetCnpj.run_loop web1 d1 p1)) = true /\
  rate_limited 1000 true (trace (CnpjBiz.run_loop web2 d2 p2).2) = true.
Proof.
  split.
  - unfold GetCnpj.run_loop.
    destruct (fold_well_paced web1 p1 (initial d1)) as [H1 H2]; [by split|].
    destruct (final_flush_trace (fold_left (GetCnpj.step web1) p1 (initial d1)))
      as (evs & -> & _ & _ & Hr).
    by rewrite rate_limited_app, H1, Hr.
  - unfold CnpjBiz.run_loop.
    destruct (biz_loop_well_paced web2 p2 (initial d2)) as [H1 H2]; [by split|].
    destruct (CnpjBiz.loop web2 (initial d2) p2) as [[e|] st]; simpl in *; [exact H1|].
    destruct (biz_final_flush_trace st) as (evs & -> & _ & Hr).
    by rewrite rate_limited_app, H1, Hr.
Qed.

(** X7. A run of the CNPJ stage calls [fetch_cnpj] at least once and at
    most twice per pending record; a run of the address and phone stage
    calls [fetch_from_cnpjbiz] at most twice per pending record. *)
Theorem page_load_budget
        (web1 : nat -> GetCnpj.View) (d1 : DataFrame) (p1 : list nat)
        (web2 : nat -> CnpjBiz.View) (d2 : DataFrame) (p2 : list nat) :
  length p1 <= fetches (trace (GetCnpj.run_loop web1 d1 p1)) <= 2 * length p1 /\
  fetches (trace (CnpjBiz.run_loop web2 d2 p2).2) <= 2 * length p2.
Proof.
  split.
  - unfold GetCnpj.run_loop.
    pose proof (fold_fetches web1 p1 (initial d1)) as H.
    destruct (final_flush_trace (fold_left (GetCnpj.step web1) p1 (initial d1)))
      as (evs & -> & He & _).
    rewrite fetches_app, He. unfold fetches in *. simpl in *. lia.
  - unfold CnpjBiz.run_loop.
    pose proof (biz_loop_fetches web2 p2 (initial d2)) as H.
    destruct (CnpjBiz.loop web2 (initial d2) p2) as [[e|] st]; simpl in *.
    + unfold fetches in *. simpl in *. lia.
    + destruct (biz_final_flush_trace st) as (evs & -> & He & _).
      rewrite fetches_app, He. unfold fetches in *. simpl in *. lia.
Qed.

(** X8. When a loop with at least one pending record ends normally, the
    last checkpoint written is the final table: nothing that was collected
    is left unsaved. *)
Theorem final_table_is_saved
        (web1 : nat -> GetCnpj.View) (d1 : DataFrame) (p1 : list nat)
        (web2 : nat -> CnpjBiz.View) (d2 : DataFrame) (p2 : list nat) :
  p1 <> [] ->
  p2 <> [] ->
  (CnpjBiz.run_loop web2 d2 p2).1 = None ->
  last_saved (trace (GetCnpj.run_loop web1 d1 p1)) = Some (df (GetCnpj.run_loop web1 d1 p1)) /\
  last_saved (trace (CnpjBiz.run_loop web2 d2 p2).2) = Some (df (CnpjBiz.run_loop web2 d2 p2).2).
Proof.
  intros Hp1 Hp2 Hn. split.
  - unfold GetCnpj.run_loop.
    destruct (fold_left_snoc_step (GetCnpj.step web1) p1 (initial d1) Hp1)
      as (st & i & ->).
    pose proof (step_last_saved web1 st i) as Hs.
    unfold GetCnpj.final_flush.
    destruct (decide (0 < processed_since_save (GetCnpj.step web1 st i))); simpl.
    + rewrite last_saved_snoc_sleep. apply last_saved_snoc_save.
    + apply Hs. lia.
  - unfold CnpjBiz.run_loop in *.
    pose proof (biz_loop_last_saved web2 p2 (initial d2)) as Hl.
    destruct (CnpjBiz.loop web2 (initial d2) p2) as [[e|] st]; simpl in *; [discriminate|].
    unfold CnpjBiz.final_flush.
    destruct (decide (0 < processed_since_save st)); simpl.
    + apply last_saved_snoc_save.
    + apply (Hl st Hp2 eq_refl). lia.
Qed.

Lemma final_table_is_saved_witness :
  last_saved (trace (GetCnpj.run_loop (fun _ => Examples.label_only_view)
                                      Examples.acme25 (seq 0 25)))
  = Some (df (GetCnpj.run_loop (fun _ => Examples.label_only_view)
                               Examples.acme25 (seq 0 25))).
Proof.
  refine (proj1 (final_table_is_saved
                   (fun _ => Examples.label_only_view) Examples.acme25 (seq 0 25)
                   (fun _ => Examples.rua_a_view) Examples.partly_filled [0] _ _ _)).
  - discriminate.
  - discriminate.
  - by vm_compute.
Defined.





(** X10. A run changes only the cells it is in charge of: the CNPJ stage
    the column CNPJ of the pending rows, the address and phone stage the
    seven target columns of the pending rows. Every other cell, the keys and
    the CNPJ column of the second stage included, and the number of rows are
    as before, also when an exception ends the second loop. *)
Theorem only_pending_cells_change
        (web1 : nat -> GetCnpj.View) (d1 : DataFrame) (p1 : list nat) (j1 : nat) (f1 : string)
        (web2 : nat -> CnpjBiz.View) (d2 : DataFrame) (p2 : list nat) (j2 : nat) (f2 : string) :
  j1 ∉ p1 \/ f1 <> CNPJ ->
  j2 ∉ p2 \/ f2 ∉ CnpjBiz.target_cols ->
  at_get (df (GetCnpj.run_loop web1 d1 p1)) j1 f1 = at_get d1 j1 f1 /\
  length (rows (df (GetCnpj.run_loop web1 d1 p1))) = length (rows d1) /\
  at_get (df (CnpjBiz.run_loop web2 d2 p2).2) j2 f2 = at_get d2 j2 f2 /\
  length (rows (df (CnpjBiz.run_loop web2 d2 p2).2)) = length (rows d2).
Proof.
  intros H1 H2. unfold GetCnpj.run_loop. rewrite final_flush_df.
  split; [by apply fold_step_frame|]. split; [apply fold_step_length|].
  unfold CnpjBiz.run_loop.
  pose proof (biz_loop_frame web2 p2 (initial d2) j2 f2 H2) as H.
  pose proof (biz_loop_length web2 p2 (initial d2)) as Hlen.
  destruct (CnpjBiz.loop web2 (initial d2) p2) as [[e|] st]; simpl in *;
    [by split|].
  by rewrite biz_final_flush_df.
Qed.

Lemma only_pending_cells_change_witness :
  at_get (df (CnpjBiz.run_loop (fun _ => Examples.rua_a_view)
                               Examples.partly_filled [0]).2) 0 CNPJ
  = at_get Examples.partly_filled 0 CNPJ.
Proof.
  refine (proj1 (proj2 (proj2 (only_pending_cells_change
                                 (fun _ => Examples.label_only_view) Examples.acme [0] 0
                                 REGISTRO_ANS
                                 (fun _ => Examples.rua_a_view) Examples.partly_filled
                                 [0] 0 CNPJ _ _)))).
  - right. discriminate.
  - right. vm_compute. intros H.
    repeat (apply elem_of_cons in H as [H|H]; [discriminate|]).
    by apply elem_of_nil in H.
Defined.

End RunTheorems.

(** ** The load step of the CNPJ stage *)

Section LoadFacts.
Import GetCnpj.

Lemma left_merge_rows (on : list string) (left right : DataFrame) :
  REGISTRO_ANS ∈ on -> NoDup (keys right) ->
  rows (left_merge on left right)
  = (fun l : row =>
       <[CNPJ := match filter (fun m => agree on l m = true) (rows right) with
                 | m :: _ => cell m CNPJ
                 | [] => ""
                 end]> l) <$> rows left.
Proof.
  intros Hon Hnd. unfold left_merge. simpl.
  induction (rows left) as [|l ls IH]; [reflexivity|].
  rewrite bind_cons, IH, fmap_cons.
  pose proof (filter_unique (fun r : row => cell r REGISTRO_ANS)
                            (fun m => agree on l m = true)
                            (cell l REGISTRO_ANS) (rows right) Hnd
                            (fun m Hm => agree_key on l m Hon Hm)) as Hlen.
  destruct (filter _ (rows right)) as [|m [|m' ms]]; simpl in *; try lia; reflexivity.
Qed.

Lemma merge_keys_no_cnpj (a b : DataFrame) : CNPJ ∉ merge_keys a b.
Proof.
  unfold merge_keys.
  set (P := fun c => c ∈ columns a /\ c ∈ columns b).
  assert (H : forall k, k ∈ filter P [REGISTRO_ANS; RAZAO_SOCIAL; NOME_FANTASIA] -> k <> CNPJ).
  { intros k Hk. apply list_elem_of_filter in Hk as [_ Hk].
    repeat (apply elem_of_cons in Hk as [->|Hk]; [discriminate|]).
    by apply elem_of_nil in Hk. }
  destruct (filter P _) as [|k ks].
  - intros Hin. apply list_elem_of_singleton in Hin. discriminate.
  - intros Hin. by apply (H CNPJ).
Qed.

Lemma agree_insert_cnpj (on : list string) (l m : row) (v : string) :
  CNPJ ∉ on -> agree on l (<[CNPJ := v]> m) = agree on l m.
Proof.
  unfold agree. induction on as [|k on IH]; intros Hn; simpl; [reflexivity|].
  rewrite IH by (intros H; apply Hn; by right).
  rewrite cell_insert_ne; [reflexivity|]. intros <-. apply Hn. left.
Qed.

Lemma agree_refl (on : list string) (l : row) : agree on l l = true.
Proof.
  unfold agree. apply forallb_forall. intros k _. apply String.eqb_refl.
Qed.

Lemma checkpoint_keys (base d : DataFrame) :
  checkpoint_of base d -> keys d = keys base.
Proof.
  intros (_ & vs & Hlen & Hr). unfold keys, column. rewrite Hr.
  apply list_eq. intros i. rewrite !list_lookup_fmap, lookup_zip_with.
  destruct (rows base !! i) as [l|] eqn:Hl; simpl; [|reflexivity].
  destruct (lookup_lt_is_Some_2 vs i) as [v ->].
  { rewrite Hlen. by apply lookup_lt_Some in Hl. }
  simpl. by rewrite cell_insert_ne by apply CNPJ_not_key.
Qed.

Lemma ensure_column_checkpoint (base : DataFrame) :
  CNPJ ∉ columns base -> checkpoint_of base (ensure_column CNPJ base).
Proof.
  intros Hn. unfold ensure_column. rewrite decide_False by exact Hn.
  split; [reflexivity|]. exists (replicate (length (rows base)) "").
  split; [apply length_replicate|]. simpl.
  by rewrite zip_with_replicate_r_eq.
Qed.

Lemma at_set_checkpoint (base d : DataFrame) (i : nat) (v : string) :
  checkpoint_of base d -> checkpoint_of base (at_set d i CNPJ v).
Proof.
  intros (Hc & vs & Hlen & Hr). split.
  - unfold at_set. simpl. rewrite decide_True; [exact Hc|].
    rewrite Hc. apply elem_of_app. right. left.
  - exists (<[i := v]> vs). split; [by rewrite length_insert|].
    unfold at_set. simpl. rewrite Hr. apply list_eq. intros j.
    rewrite lookup_zip_with.
    destruct (decide (i = j)) as [->|Hij].
    + rewrite list_lookup_alter_eq, lookup_zip_with.
      destruct (rows base !! j) as [l|] eqn:Hl; simpl; [|reflexivity].
      destruct (lookup_lt_is_Some_2 vs j) as [w Hw].
      { rewrite Hlen. by apply lookup_lt_Some in Hl. }
      rewrite Hw, list_lookup_insert_eq by (by apply lookup_lt_Some in Hw).
      simpl. by rewrite insert_insert_eq.
    + rewrite list_lookup_alter_ne, lookup_zip_with by exact Hij.
      by rewrite list_lookup_insert_ne by exact Hij.
Qed.

Lemma run_loop_checkpoint (web : nat -> View) (base d : DataFrame) (pending : list nat) :
  checkpoint_of base d -> checkpoint_of base (df (run_loop web d pending)).
Proof.
  intros H. unfold run_loop. rewrite final_flush_df.
  assert (Hi : checkpoint_of base (df (initial d))) by exact H.
  revert Hi. generalize (initial d).
  induction pending as [|i pending IH]; intros st Hst; simpl; [exact Hst|].
  apply IH. rewrite step_df. by apply at_set_checkpoint.
Qed.

Lemma main_checkpoint (web : nat -> View) (base d : DataFrame) (tr : list event) :
  CNPJ ∉ columns base ->
  main (Some base) None web = Return (d, tr) ->
  checkpoint_of base d.
Proof.
  intros Hn. unfold main, load_inputs.
  destruct (decide (REGISTRO_ANS ∈ columns base)); [|discriminate]. simpl.
  pose proof (ensure_column_checkpoint base Hn) as Hc.
  destruct (pending_idx (ensure_column CNPJ base)) as [|i pending] eqn:Hp.
  - by intros [= <- <-].
  - intros [= <- <-]. by apply run_loop_checkpoint.
Qed.

Lemma DataFrame_eq (a b : DataFrame) :
  columns a = columns b -> rows a = rows b -> a = b.
Proof. destruct a, b. simpl. by intros -> ->. Qed.

Lemma cell_insert_eq (r : row) (c v : string) : cell (<[c := v]> r) c = v.
Proof. unfold cell. by rewrite lookup_insert_eq. Qed.

Lemma reload_checkpoint (base d : DataFrame) :
  REGISTRO_ANS ∈ columns base -> CNPJ ∉ columns base -> NoDup (keys base) ->
  checkpoint_of base d ->
  merge_with_existing base (Some d) = Return d.
Proof.
  intros Hreg Hn Hnd Hcp. pose proof (checkpoint_keys base d Hcp) as Hk.
  destruct Hcp as (Hc & vs & Hlen & Hr).
  assert (Hcd : CNPJ ∈ columns d) by (rewrite Hc; apply elem_of_app; right; left).
  assert (Hrd : REGISTRO_ANS ∈ columns d) by (rewrite Hc; apply elem_of_app; by left).
  unfold merge_with_existing, ensure_column. rewrite (decide_True _ _ Hcd).
  destruct (merge_keys_spec base d Hreg Hrd) as [Hon Hall].
  rewrite (decide_True _ _ Hall), (decide_False _ _ Hn). f_equal.
  apply DataFrame_eq; [by rewrite Hc|].
  rewrite left_merge_rows by (try done; by rewrite Hk).
  apply list_eq. intros i. rewrite list_lookup_fmap, Hr, lookup_zip_with.
  destruct (rows base !! i) as [l|] eqn:Hl; simpl; [|reflexivity].
  destruct (lookup_lt_is_Some_2 vs i) as [v Hv].
  { rewrite Hlen. by apply lookup_lt_Some in Hl. }
  rewrite Hv. simpl. do 2 f_equal.
  set (on := merge_keys base d).
  assert (Hmi : <[CNPJ := v]> l ∈
                filter (fun m => agree on l m = true)
                       (zip_with (fun (l : row) v => <[CNPJ := v]> l) (rows base) vs)).
  { apply list_elem_of_filter. split.
    - rewrite agree_insert_cnpj by apply merge_keys_no_cnpj. apply agree_refl.
    - apply (list_elem_of_lookup_2 _ i). by rewrite lookup_zip_with, Hl, Hv. }
  pose proof (filter_unique (fun r : row => cell r REGISTRO_ANS)
                            (fun m => agree on l m = true)
                            (cell l REGISTRO_ANS) (rows d)
                            ltac:(fold (column d REGISTRO_ANS); fold (keys d); by rewrite Hk)
                            (fun m Hm => agree_key on l m Hon Hm)) as Hlen1.
  rewrite Hr in Hlen1.
  destruct (filter _ (zip_with _ (rows base) vs)) as [|m [|m' ms]]; simpl in *; try lia.
  - by apply elem_of_nil in Hmi.
  - apply list_elem_of_singleton in Hmi as <-. apply cell_insert_eq.
Qed.

(** X11. Resuming reproduces the checkpoint: when a first run over a base
    table with pairwise distinct keys ends with the table d, the load step
    of the next run over the same base table and the checkpoint d yields d
    itself, so the next run starts from everything the first one
    collected. *)
Theorem resume_reloads_checkpoint
        (web : nat -> View) (base d : DataFrame) (tr : list event) :
  REGISTRO_ANS ∈ columns base ->
  CNPJ ∉ columns base ->
  NoDup (keys base) ->
  main (Some base) None web = Return (d, tr) ->
  merge_with_existing base (Some d) = Return d.
Proof.
  intros Hreg Hn Hnd Hm. apply reload_checkpoint; try done.
  by apply (main_checkpoint web base d tr).
Qed.

Lemma resume_reloads_checkpoint_witness :
  merge_with_existing Examples.base
    (Some (df (run_loop (fun _ => Examples.label_only_view)
                        (ensure_column CNPJ Examples.base) [0])))
  = Return (df (run_loop (fun _ => Examples.label_only_view)
                         (ensure_column CNPJ Examples.base) [0])).
Proof.
  refine (resume_reloads_checkpoint
            (fun _ => Examples.label_only_view) Examples.base _
            ((ESave (ensure_column CNPJ Examples.base))
               :: trace (run_loop (fun _ => Examples.label_only_view)
                                  (ensure_column CNPJ Examples.base) [0])) _ _ _ _).
  - left.
  - vm_compute. intros H. repeat (apply elem_of_cons in H as [H|H]; [discriminate|]).
    by apply elem_of_nil in H.
  - vm_compute. apply NoDup_singleton.
  - by vm_compute.
Defined.

(** X12. The load step keeps the base table and brings the collected values
    along: with a checkpoint that has the columns Registro ANS and CNPJ and
    pairwise distinct keys, the result has the rows of the base table in
    the same order with their cells unchanged, and the cell CNPJ of a row is
    the CNPJ of the checkpoint row that agrees with it on the merge keys,
    or empty when no checkpoint row does. *)
Theorem load_carries_cnpj_over (df_in old : DataFrame) :
  REGISTRO_ANS ∈ columns df_in ->
  CNPJ ∉ columns df_in ->
  REGISTRO_ANS ∈ columns old ->
  CNPJ ∈ columns old ->
  NoDup (keys old) ->
  exists d,
    merge_with_existing df_in (Some old) = Return d /\
    columns d = columns df_in ++ [CNPJ] /\
    length (rows d) = length (rows df_in) /\
    forall i l,
      rows df_in !! i = Some l ->
      (forall c, c <> CNPJ -> at_get d i c = cell l c) /\
      (forall m, m ∈ rows old -> agree (merge_keys df_in old) l m = true ->
                 at_get d i CNPJ = cell m CNPJ) /\
      ((forall m, m ∈ rows old -> agree (merge_keys df_in old) l m = false) ->
       at_get d i CNPJ = "").
Proof.
  intros Hreg Hn Hrold Hcold Hnd.
  unfold merge_with_existing, ensure_column. rewrite (decide_True _ _ Hcold).
  destruct (merge_keys_spec df_in old Hreg Hrold) as [Hon Hall].
  rewrite (decide_True _ _ Hall), (decide_False _ _ Hn).
  eexists. split; [reflexivity|]. split; [reflexivity|].
  rewrite (left_merge_rows _ _ _ Hon Hnd), length_fmap. split; [reflexivity|].
  intros i l Hl. unfold at_get. rewrite (left_merge_rows _ _ _ Hon Hnd).
  rewrite list_lookup_fmap, Hl. simpl.
  set (on := merge_keys df_in old).
  pose proof (filter_unique (fun r : row => cell r REGISTRO_ANS)
                            (fun m => agree on l m = true)
                            (cell l REGISTRO_ANS) (rows old) Hnd
                            (fun m Hm => agree_key on l m Hon Hm)) as Hlen.
  split; [|split].
  - intros c Hc. apply cell_insert_ne. congruence.
  - intros m Hm Ha. rewrite cell_insert_eq.
    assert (Hin : m ∈ filter (fun m => agree on l m = true) (rows old))
      by (by apply list_elem_of_filter).
    destruct (filter _ (rows old)) as [|m1 [|m2 ms]]; simpl in *; try lia.
    + by apply elem_of_nil in Hin.
    + by apply list_elem_of_singleton in Hin as <-.
  - intros Hno. rewrite cell_insert_eq.
    destruct (filter _ (rows old)) as [|m1 ms] eqn:Hf; [reflexivity|].
    assert (Hin : m1 ∈ filter (fun m => agree on l m = true) (rows old))
      by (rewrite Hf; left).
    apply list_elem_of_filter in Hin as [Ha Hin]. rewrite (Hno m1 Hin) in Ha.
    discriminate.
Qed.

Lemma load_carries_cnpj_over_witness :
  exists d, merge_with_existing Examples.base (Some Examples.acme) = Return d /\
            length (rows d) = 1.
Proof.
  destruct (load_carries_cnpj_over Examples.base Examples.acme)
    as (d & Hd & _ & Hl & _).
  - left.
  - vm_compute. intros H. repeat (apply elem_of_cons in H as [H|H]; [discriminate|]).
    by apply elem_of_nil in H.
  - left.
  - vm_compute. do 2 right. left.
  - vm_compute. apply NoDup_singleton.
  - exists d. split; [exact Hd|exact Hl].
Defined.

Lemma main_with_browser (input existing : option DataFrame) (web : nat -> View) :
  GetCnpjRun.main input existing (Return tt) web = main input existing web.
Proof.
  unfold GetCnpjRun.main, main. destruct (load_inputs input) as [df_base|]; [|done].
  destruct (merge_with_existing df_base existing) as [df_out|]; [|done].
  by destruct (pending_idx df_out).
Qed.

Lemma load_failures (input existing : option DataFrame) (e : exn) :
  (load_inputs input = Raise e \/
   exists d, load_inputs input = Return d /\ merge_with_existing d existing = Raise e) ->
  (input = None /\ e = FileNotFoundError) \/
  (exists d, input = Some d /\ (REGISTRO_ANS ∉ columns d) /\ e = ValueError) \/
  (exists d old, input = Some d /\ existing = Some old /\ e = KeyError /\
                 (CNPJ ∈ columns d \/ REGISTRO_ANS ∉ columns old)).
Proof.
  unfold load_inputs. destruct input as [d|].
  - destruct (decide (REGISTRO_ANS ∈ columns d)) as [Hreg|Hreg].
    + intros [[=]|(d' & [= <-] & Hm)]. right. right.
      unfold merge_with_existing in Hm. destruct existing as [old|]; [|discriminate].
      exists d, old. destruct (decide (Forall _ _)) as [Hall|Hall].
      * destruct (decide (CNPJ ∈ columns d)) as [Hc|Hc]; [|discriminate].
        injection Hm as <-. by auto.
      * injection Hm as <-. split; [done|]. split; [done|]. split; [done|].
        right. intros Hold. apply Hall.
        apply (merge_keys_spec d (ensure_column CNPJ old) Hreg
                               (ensure_column_columns _ _ _ Hold)).
    + intros [[= <-]|(d' & [=] & _)]. right. left. by exists d.
  - intros [[= <-]|(d' & [=] & _)]. by left.
Qed.

Lemma load_returns_table (d : DataFrame) (existing : option DataFrame) :
  REGISTRO_ANS ∈ columns d -> CNPJ ∉ columns d ->
  (forall old, existing = Some old -> REGISTRO_ANS ∈ columns old) ->
  load_inputs (Some d) = Return d /\
  exists df_out, merge_with_existing d existing = Return df_out.
Proof.
  intros Hreg Hn Hold. unfold load_inputs. rewrite (decide_True _ _ Hreg).
  split; [reflexivity|]. unfold merge_with_existing. destruct existing as [old|].
  - destruct (merge_keys_spec d (ensure_column CNPJ old) Hreg
                              (ensure_column_columns _ _ _ (Hold old eq_refl)))
      as [_ Hall].
    rewrite (decide_True _ _ Hall), (decide_False _ _ Hn). by eexists.
  - by eexists.
Qed.

(** X13. [main] fails only before its loop: while loading, with one of
    three errors (no input file; an input without the column Registro ANS;
    a KeyError of the merge when the input already has a column CNPJ or the
    checkpoint lacks the column Registro ANS), or, the table being loaded
    and some record pending, with the exception of [make_driver] when the
    browser cannot be started. With an input that has the column Registro
    ANS and no column CNPJ, and a checkpoint, if any, that has the column
    Registro ANS, it returns when the browser starts, and also when nothing
    is pending, the browser then never being started. The writes of the
    table are taken to succeed. *)
Theorem main_fails_before_the_loop
        (input existing : option DataFrame) (make_driver : outcome unit)
        (web : nat -> View) :
  (forall e, GetCnpjRun.main input existing make_driver web = Raise e ->
             (input = None /\ e = FileNotFoundError) \/
             (exists d, input = Some d /\ (REGISTRO_ANS ∉ columns d) /\ e = ValueError) \/
             (exists d old, input = Some d /\ existing = Some old /\ e = KeyError /\
                            (CNPJ ∈ columns d \/ REGISTRO_ANS ∉ columns old)) \/
             (exists d df_out, input = Some d /\
                               merge_with_existing d existing = Return df_out /\
                               pending_idx df_out <> [] /\
                               make_driver = Raise e)) /\
  (forall d, input = Some d ->
             REGISTRO_ANS ∈ columns d -> CNPJ ∉ columns d ->
             (forall old, existing = Some old -> REGISTRO_ANS ∈ columns old) ->
             exists df_out,
               merge_with_existing d existing = Return df_out /\
               (make_driver = Return tt \/ pending_idx df_out = [] ->
                exists r, GetCnpjRun.main input existing make_driver web = Return r) /\
               (forall e, make_driver = Raise e -> pending_idx df_out <> [] ->
                          GetCnpjRun.main input existing make_driver web = Raise e)).
Proof.
  split.
  - intros e Hmain.
    assert (Hcases :
              (load_inputs input = Raise e \/
               exists d, load_inputs input = Return d /\
                         merge_with_existing d existing = Raise e) \/
              (exists d df_out, input = Some d /\
                                merge_with_existing d existing = Return df_out /\
                                pending_idx df_out <> [] /\ make_driver = Raise e)).
    { unfold GetCnpjRun.main in Hmain.
      destruct (load_inputs input) as [d|e'] eqn:Hload; [|left; left; congruence].
      destruct (merge_with_existing d existing) as [df_out|e'] eqn:Hmerge;
        [|left; right; exists d; split; congruence].
      right. exists d, df_out.
      assert (input = Some d) as ->.
      { unfold load_inputs in Hload. destruct input as [d'|]; [|discriminate].
        destruct (decide _); [|discriminate]. by injection Hload as ->. }
      destruct (pending_idx df_out) as [|i pending]; [discriminate|].
      destruct make_driver as [[]|e']; [discriminate|].
      injection Hmain as ->. by repeat split. }
    destruct Hcases as [Hload|Hdriver].
    + destruct (load_failures input existing e Hload) as [H|[H|H]]; by auto.
    + by auto.
  - intros d -> Hreg Hn Hold.
    destruct (load_returns_table d existing Hreg Hn Hold) as [Hload [df_out Hmerge]].
    exists df_out. split; [exact Hmerge|]. unfold GetCnpjRun.main.
    rewrite Hload, Hmerge. split.
    + intros [-> | ->]; [|by eexists]. destruct (pending_idx df_out); by eexists.
    + intros e -> Hp. by destruct (pending_idx df_out).
Qed.

Lemma main_fails_before_the_loop_witness :
  GetCnpjRun.main (Some KeyExamples.two_base) (Some KeyExamples.two_checkpoint)
                  (Raise WebDriverException) (fun _ => Examples.label_only_view)
  = Raise WebDriverException.
Proof.
  destruct (proj2 (main_fails_before_the_loop
                     (Some KeyExamples.two_base) (Some KeyExamples.two_checkpoint)
                     (Raise WebDriverException) (fun _ => Examples.label_only_view))
                  KeyExamples.two_base eq_refl)
    as (df_out & Hmerge & _ & Hraise).
  - left.
  - vm_compute. intros H. repeat (apply elem_of_cons in H as [H|H]; [discriminate|]).
    by apply elem_of_nil in H.
  - intros old [= <-]. left.
  - apply (Hraise WebDriverException eq_refl).
    assert (Hd : GetCnpj.merge_with_existing KeyExamples.two_base
                                             (Some KeyExamples.two_checkpoint)
                 = Return (GetCnpj.left_merge
                             [REGISTRO_ANS; RAZAO_SOCIAL] KeyExamples.two_base
                             KeyExamples.two_checkpoint)) by reflexivity.
    rewrite Hd in Hmerge. injection Hmerge as <-. by vm_compute.
Defined.

End LoadFacts.

(** ** The shard merge and the crawl on a well-behaved site *)

Section JoinOrder.

Lemma insert_by_index_sorted (x : Z * DataFrame) (l : list (Z * DataFrame)) :
  StronglySorted (fun a b => (a.1 <= b.1)%Z) l ->
  StronglySorted (fun a b => (a.1 <= b.1)%Z) (Join.insert_by_index x l).
Proof.
  induction 1 as [|y t Ht IH Hy]; simpl; [repeat constructor|].
  destruct (y.1 <? x.1)%Z eqn:Hlt.
  - apply Z.ltb_lt in Hlt. constructor; [exact IH|].
    rewrite (insert_by_index_perm x t). constructor; [lia|exact Hy].
  - apply Z.ltb_ge in Hlt. constructor; [by constructor|].
    constructor; [exact Hlt|]. eapply Forall_impl; [exact Hy|]. simpl. intros; lia.
Qed.

Lemma sort_by_index_sorted (l : list (Z * DataFrame)) :
  StronglySorted (fun a b => (a.1 <= b.1)%Z) (Join.sort_by_index l).
Proof.
  unfold Join.sort_by_index. induction l as [|x l IH]; simpl; [constructor|].
  by apply insert_by_index_sorted.
Qed.

Lemma indexed_raises (files : list Join.csv_file) (f : Join.csv_file) (e : exn) :
  f ∈ files -> Join.page_index f = Raise e -> exists e', Join.indexed files = Raise e'.
Proof.
  intros Hin Hf. induction files as [|g files IH]; [by apply elem_of_nil in Hin|].
  simpl. apply elem_of_cons in Hin as [->|Hin].
  - rewrite Hf. by eexists.
  - destruct (Join.page_index g); [|by eexists].
    destruct (IH Hin) as [e' ->]. by eexists.
Qed.

Lemma join_returns (files : list Join.csv_file) :
  files <> [] ->
  (forall f, f ∈ files -> exists n, Join.page_index f = Return n) ->
  exists d, Join.join files = Return d.
Proof.
  intros Hne Hidx. destruct (indexed_contents files Hidx) as (l & Hl & Hc).
  unfold Join.join. rewrite Hl.
  pose proof (sort_by_index_perm l) as Hp.
  destruct (Join.sort_by_index l) as [|x sorted]; [|by eexists].
  apply Permutation_nil_l in Hp. subst l. destruct files; [done|discriminate].
Qed.

Lemma join_returns_inv (files : list Join.csv_file) (d : DataFrame) :
  Join.join files = Return d ->
  files <> [] /\ forall f, f ∈ files -> exists n, Join.page_index f = Return n.
Proof.
  intros Hd. unfold Join.join in Hd. split.
  - intros ->. simpl in Hd. discriminate.
  - intros f Hf. destruct (Join.page_index f) as [n|e] eqn:Hp; [by eexists|].
    destruct (indexed_raises files f e Hf Hp) as [e' He]. rewrite He in Hd.
    discriminate.
Qed.

(** X14. [join] succeeds exactly when the directory holds at least one CSV
    file and every file name starts with a number; otherwise it fails before
    anything is written. *)
Theorem join_succeeds_iff (files : list Join.csv_file) :
  (exists d, Join.join files = Return d) <->
  files <> [] /\ forall f, f ∈ files -> exists n, Join.page_index f = Return n.
Proof.
  split.
  - intros [d Hd]. by apply (join_returns_inv files d).
  - intros [Hne Hidx]. by apply join_returns.
Qed.

(** X15. The table written by [join] holds the rows of the page files in
    the order of their page numbers, each file's rows together and in their
    own order, and has as many rows as the files have in all. *)
Theorem join_orders_pages (files : list Join.csv_file) (d : DataFrame) :
  Join.join files = Return d ->
  exists l sorted,
    Join.indexed files = Return l /\
    l.*2 = Join.content <$> files /\
    sorted ≡ₚ l /\
    StronglySorted (fun a b => (a.1 <= b.1)%Z) sorted /\
    rows d = sorted.*2 ≫= rows /\
    length (rows d) = sum_list ((fun f => length (rows (Join.content f))) <$> files).
Proof.
  intros Hj.
  destruct (join_returns_inv files d Hj) as [Hne Hidx].
  destruct (indexed_contents files Hidx) as (l & Hl & Hc).
  unfold Join.join in Hj. rewrite Hl in Hj.
  pose proof (sort_by_index_perm l) as Hp.
  pose proof (sort_by_index_sorted l) as Hs.
  assert (Hd : d = Join.concat (Join.sort_by_index l).*2).
  { destruct (Join.sort_by_index l); [discriminate|]. by injection Hj as <-. }
  exists l, (Join.sort_by_index l).
  split; [exact Hl|]. split; [exact Hc|]. split; [exact Hp|]. split; [exact Hs|].
  subst d. split; [reflexivity|].
  unfold Join.concat. simpl. rewrite Hp, Hc.
  clear. induction files as [|f files IH]; [reflexivity|].
  rewrite !fmap_cons, bind_cons, length_app, IH. reflexivity.
Qed.

Lemma join_orders_pages_witness :
  exists d, Join.join [Examples.shard 2; Examples.shard 1] = Return d /\
            length (rows d) = 2.
Proof.
  eexists. split; [by vm_compute|].
  destruct (join_orders_pages [Examples.shard 2; Examples.shard 1] _ eq_refl)
    as (l & sorted & _ & _ & _ & _ & _ & H).
  exact H.
Defined.

End JoinOrder.

Section IdealSite.
Import Crawler.

Lemma crawl_S_last (env : nat -> observation) (f k : nat) (c t : Z) (data : list row) :
  table (env k) = Return data -> indicator (env k) = Some (c, t) -> (t <= c)%Z ->
  crawl (S f) env k = ([(c, data)], Finished).
Proof.
  intros Ht Hi Hc. rewrite crawl_S. unfold current_of. rewrite Ht, Hi. simpl.
  by rewrite (proj2 (Z.leb_le _ _) Hc).
Qed.

Lemma crawl_S_next (env : nat -> observation) (f k : nat) (c t : Z) (data : list row) :
  table (env k) = Return data -> indicator (env k) = Some (c, t) -> (c < t)%Z ->
  next (env k) = Return true ->
  crawl (S f) env k = ((c, data) :: (crawl f env (S k)).1, (crawl f env (S k)).2).
Proof.
  intros Ht Hi Hc Hn. rewrite crawl_S. unfold current_of. rewrite Ht, Hi, Hn.
  unfold last_page. cbn [fmap option_fmap option_map snd].
  rewrite (proj2 (Z.leb_gt _ _) Hc). by destruct (crawl f env (S k)).
Qed.

Lemma crawl_ideal (env : nat -> observation) (T : nat) :
  (forall k, k < T ->
             indicator (env k) = Some (Z.of_nat k + 1, Z.of_nat T)%Z /\
             (exists data, table (env k) = Return data) /\
             next (env k) = Return true) ->
  forall n k, k + S n = T ->
    (crawl (S n) env k).2 = Finished /\
    (crawl (S n) env k).1.*1 = (fun j => Z.of_nat j + 1)%Z <$> seq k (S n).
Proof.
  intros Henv. induction n as [|n IH]; intros k Hk.
  - destruct (Henv k) as (Hi & [data Ht] & _); [lia|].
    rewrite (crawl_S_last env 0 k _ _ data Ht Hi) by lia. by split.
  - destruct (Henv k) as (Hi & [data Ht] & Hn); [lia|].
    rewrite (crawl_S_next env (S n) k _ _ data Ht Hi) by (try done; lia).
    destruct (IH (S k)) as [H1 H2]; [lia|].
    split; [exact H1|]. cbn [fst snd]. rewrite fmap_cons, H2. reflexivity.
Qed.

(** X16. On a listing of T pages whose indicator reads k of T on the k-th
    visit and whose next button works, the crawl makes exactly T iterations,
    writes the pages 1, 2, ..., T in this order, each once, and ends in the
    final state. *)
Theorem crawl_walks_all_pages (env : nat -> observation) (T : nat) :
  0 < T ->
  (forall k, k < T ->
             indicator (env k) = Some (Z.of_nat k + 1, Z.of_nat T)%Z /\
             (exists data, table (env k) = Return data) /\
             next (env k) = Return true) ->
  (crawl T env 0).2 = Finished /\
  (crawl T env 0).1.*1 = (fun j => Z.of_nat j + 1)%Z <$> seq 0 T /\
  forall fuel, T <= fuel -> crawl fuel env 0 = crawl T env 0.
Proof.
  intros HT Henv. destruct T as [|n]; [lia|].
  destruct (crawl_ideal env (S n) Henv n 0) as [H1 H2]; [lia|].
  split; [exact H1|]. split; [exact H2|].
  intros fuel Hf. apply crawl_stable; [|exact Hf]. rewrite H1. discriminate.
Qed.

Lemma crawl_walks_all_pages_witness :
  (crawl 3 Examples.three_pages 0).1.*1 = [1; 2; 3]%Z.
Proof.
  refine (proj1 (proj2 (crawl_walks_all_pages Examples.three_pages 3 _ _))).
  - lia.
  - intros k Hk. split; [reflexivity|]. split; [by eexists|reflexivity].
Defined.

End IdealSite.

(** ** Reading the page indicator *)

Section PaginatorFacts.
Import Paginator.



Lemma span_digits_spec (l : list ascii) :
  forall ds rest, span_digits l = (ds, rest) ->
                  l = ds ++ rest /\ Forall (fun c => Text.is_digit c = true) ds.
Proof.
  induction l as [|c t IH]; intros ds rest H; simpl in H.
  - injection H as <- <-. by split.
  - destruct (Text.is_digit c) eqn:Hc.
    + destruct (span_digits t) as [ds' rest'] eqn:Hs. injection H as <- <-.
      destruct (IH ds' rest' eq_refl) as [-> Hf]. split; [reflexivity|by constructor].
    + injection H as <- <-. by split.
Qed.


Lemma lstrip_spec (l : list ascii) :
  exists ws, l = ws ++ Text.lstrip l /\ spaces ws.
Proof.
  induction l as [|c t IH]; simpl.
  - exists []. split; [reflexivity|constructor].
  - destruct (Text.is_space c) eqn:Hc.
    + destruct IH as (ws & Ht & Hw). exists (c :: ws). split.
      * simpl. by rewrite <- Ht.
      * by constructor.
    + exists []. split; [reflexivity|constructor].
Qed.

Lemma digit_value_range (c : ascii) :
  Text.is_digit c = true -> (0 <= digit_value c <= 9)%Z.
Proof.
  unfold Text.is_digit, digit_value. intros H.
  apply andb_prop in H as [H1 H2]. apply N.leb_le in H1, H2. lia.
Qed.

Lemma fold_digits_nonneg (ds : list ascii) :
  forall acc, (0 <= acc)%Z ->
              Forall (fun c => Text.is_digit c = true) ds ->
              (0 <= fold_left (fun a c => 10 * a + digit_value c) ds acc)%Z.
Proof.
  induction ds as [|c ds IH]; intros acc Ha Hf; simpl; [exact Ha|].
  apply Forall_cons in Hf as [Hc Hf]. apply IH; [|exact Hf].
  pose proof (digit_value_range c Hc). lia.
Qed.

Lemma int_of_digits_nonneg (ds : list ascii) :
  Forall (fun c => Text.is_digit c = true) ds -> (0 <= int_of_digits ds)%Z.
Proof. intros H. by apply fold_digits_nonneg. Qed.



Lemma indicator_search_unfold (l : list ascii) :
  search l = match match_here l with
             | Some r => Some r
             | None => match l with [] => None | _ :: t => search t end
             end.
Proof. destruct l; reflexivity. Qed.





Lemma match_here_sound (l : list ascii) (c t : Z) :
  match_here l = Some (c, t) ->
  exists d1 ws1 ws2 d2 post,
    l = d1 ++ ws1 ++ ["d"; "e"]%char ++ ws2 ++ d2 ++ post /\
    digits d1 /\ spaces ws1 /\ spaces ws2 /\ digits d2 /\
    c = int_of_digits d1 /\ t = int_of_digits d2.
Proof.
  unfold match_here. intros H.
  destruct (span_digits l) as [d1 r1] eqn:H1.
  apply span_digits_spec in H1 as [-> Hd1].
  destruct d1 as [|a d1]; [discriminate|].
  destruct (lstrip_spec r1) as (ws1 & Hr1 & Hw1).
  destruct (Text.lstrip r1) as [|x [|y r2]]; try discriminate.
  destruct (Ascii.eqb x "d" && Ascii.eqb y "e") eqn:Hxy; [|discriminate].
  apply andb_prop in Hxy as [Hx Hy]. apply Ascii.eqb_eq in Hx, Hy. subst x y.
  destruct (lstrip_spec r2) as (ws2 & Hr2 & Hw2).
  destruct (span_digits (Text.lstrip r2)) as [d2 post] eqn:H2.
  apply span_digits_spec in H2 as [Hl2 Hd2].
  destruct d2 as [|b d2]; simpl in H; [discriminate|]. injection H as <- <-.
  exists (a :: d1), ws1, ws2, (b :: d2), post.
  split; [|by repeat split].
  rewrite Hr1. do 2 f_equal. simpl. do 2 f_equal. by rewrite Hr2, Hl2.
Qed.

(** X18. Whatever [parse_current_total] returns was read from the text:
    the pair comes from two runs of digits with the word "de" between them,
    and neither number is negative. A text without such a part gives
    [(None, None)]. *)
Theorem parse_current_total_sound (texto : string) (c t : Z) :
  parse_current_total texto = Some (c, t) ->
  (exists pre d1 ws1 ws2 d2 post,
      list_ascii_of_string texto = label pre d1 ws1 ws2 d2 post /\
      digits d1 /\ spaces ws1 /\ spaces ws2 /\ digits d2 /\
      c = int_of_digits d1 /\ t = int_of_digits d2) /\
  (0 <= c)%Z /\ (0 <= t)%Z.
Proof.
  unfold parse_current_total. generalize (list_ascii_of_string texto) as l.
  assert (Hs : forall l, search l = Some (c, t) ->
                         exists pre d1 ws1 ws2 d2 post,
                           l = label pre d1 ws1 ws2 d2 post /\
                           digits d1 /\ spaces ws1 /\ spaces ws2 /\ digits d2 /\
                           c = int_of_digits d1 /\ t = int_of_digits d2).
  { induction l as [|x l IH]; intros H; rewrite indicator_search_unfold in H.
    - destruct (match_here []) eqn:Hm; [|discriminate].
      injection H as ->. apply match_here_sound in Hm as (d1 & ws1 & ws2 & d2 & post & H).
      exists [], d1, ws1, ws2, d2, post. exact H.
    - destruct (match_here (x :: l)) as [r|] eqn:Hm.
      + injection H as ->.
        apply match_here_sound in Hm as (d1 & ws1 & ws2 & d2 & post & H).
        exists [], d1, ws1, ws2, d2, post. exact H.
      + destruct (IH H) as (pre & d1 & ws1 & ws2 & d2 & post & -> & Hrest).
        exists (x :: pre), d1, ws1, ws2, d2, post. by split. }
  intros l H. destruct (Hs l H) as (pre & d1 & ws1 & ws2 & d2 & post & Hl & Hd1 & Hw1 & Hw2 & Hd2 & -> & ->).
  split; [by exists pre, d1, ws1, ws2, d2, post|].
  split; apply int_of_digits_nonneg; [apply Hd1|apply Hd2].
Qed.

Lemma parse_current_total_sound_witness :
  (0 <= 1)%Z /\ (0 <= 139)%Z.
Proof.
  exact (proj2 (parse_current_total_sound "1 de 139" 1 139 eq_refl)).
Defined.

End PaginatorFacts.

(** ** The names of the page files *)

Section NameFacts.
Import JoinDir.

Lemma digit_plain (c : ascii) :
  Text.is_digit c = true ->
  Ascii.eqb c "-" = false /\ Ascii.eqb c "+" = false /\ Ascii.eqb c "_" = false /\
  is_int_space c = false.
Proof.
  destruct c as [[] [] [] [] [] [] [] []]; intros H; try discriminate H; by repeat split.
Qed.

Lemma before_dash_digits (ds rest : list ascii) :
  Forall (fun c => Text.is_digit c = true) ds ->
  before_dash (ds ++ "-"%char :: rest) = ds.
Proof.
  induction 1 as [|c ds Hc _ IH]; simpl; [reflexivity|].
  destruct (digit_plain c Hc) as (-> & _). by rewrite IH.
Qed.

Lemma drop_int_space_digits (ds : list ascii) :
  Forall (fun c => Text.is_digit c = true) ds -> drop_int_space ds = ds.
Proof.
  destruct 1 as [|c ds Hc _]; simpl; [reflexivity|].
  by destruct (digit_plain c Hc) as (_ & _ & _ & ->).
Qed.

Lemma literal_digits (ds : list ascii) :
  Forall (fun c => Text.is_digit c = true) ds ->
  forall acc b, ds <> [] \/ b = true ->
    literal acc b ds
    = Some (fold_left (fun a c => (10 * a + Paginator.digit_value c)%Z) ds acc).
Proof.
  induction 1 as [|c ds Hc _ IH]; intros acc b Hb; simpl.
  - destruct Hb as [Hb| ->]; [done|reflexivity].
  - rewrite Hc. apply IH. by right.
Qed.

Lemma int_of_str_digits (ds : list ascii) :
  Paginator.digits ds -> int_of_str ds = Return (Paginator.int_of_digits ds).
Proof.
  intros [Hne Hd]. unfold int_of_str.
  rewrite (drop_int_space_digits ds Hd).
  rewrite (drop_int_space_digits (rev ds)) by (by apply Forall_rev).
  rewrite rev_involutive.
  destruct ds as [|c ds]; [done|].
  apply Forall_cons in Hd as [Hc Hd].
  destruct (digit_plain c Hc) as (-> & -> & _). simpl snd. simpl fst.
  rewrite (literal_digits (c :: ds)) by (first [by constructor|by left]).
  reflexivity.
Qed.

Lemma page_file_name_round_trip_helper (number date : list ascii) :
  Paginator.digits number ->
  ends_with_csv (page_file_name number date) = true /\
  page_index_of (page_file_name number date) = Return (Paginator.int_of_digits number).
Proof.
  intros Hn. unfold ends_with_csv, page_index_of, page_file_name.
  rewrite !list_ascii_of_string_of_list_ascii. split.
  - rewrite !rev_app_distr. reflexivity.
  - simpl app. rewrite (before_dash_digits number _ (proj2 Hn)).
    by apply int_of_str_digits.
Qed.

(** X19. The name that main.py gives to the file of a page is read back by
    join.py: it ends in ".csv" and the number in front of its first hyphen
    is the page number, whatever the date part is. *)
Theorem page_file_name_round_trip (number date : list ascii) :
  Paginator.digits number ->
  ends_with_csv (page_file_name number date) = true /\
  page_index_of (page_file_name number date) = Return (Paginator.int_of_digits number).
Proof. apply page_file_name_round_trip_helper. Qed.

Lemma page_file_name_round_trip_witness :
  page_index_of "12-2024-01-05.csv" = Return 12%Z.
Proof.
  refine (proj2 (page_file_name_round_trip (list_ascii_of_string "12")
                                           (list_ascii_of_string "2024-01-05") _)).
  split; [discriminate|by repeat constructor].
Defined.

Lemma page_index_of_raises (name : string) (e : exn) :
  page_index_of name = Raise e -> e = ValueError.
Proof.
  unfold page_index_of, int_of_str. by destruct (literal _ _ _); intros [=].
Qed.

Lemma indexed_value_error (files : list Join.csv_file) (e : exn) :
  (forall f e', f ∈ files -> Join.page_index f = Raise e' -> e' = ValueError) ->
  Join.indexed files = Raise e -> e = ValueError.
Proof.
  induction files as [|f files IH]; intros Hf; simpl; [discriminate|].
  destruct (Join.page_index f) as [n|e'] eqn:Hp.
  - destruct (Join.indexed files) as [l|e''] eqn:Hi; [discriminate|].
    intros [= <-]. apply IH; [|reflexivity]. intros g e' Hg. apply Hf. by right.
  - intros [= <-]. apply (Hf f e'); [left|exact Hp].
Qed.

(** X20. A CSV file whose name does not start with a number makes join.py
    fail with a ValueError before anything is read or written; the file
    that join.py itself writes, registro-ans-unificado.csv, is such a file,
    so the script fails whenever its own output is in the folder. *)
Theorem join_dir_rejects_unnumbered
        (dir : list (string * DataFrame)) (name : string) (d : DataFrame) :
  (name, d) ∈ dir ->
  ends_with_csv name = true ->
  page_index_of name = Raise ValueError ->
  join_dir dir = Raise ValueError /\
  page_index_of OUTPUT_NAME = Raise ValueError /\
  ends_with_csv OUTPUT_NAME = true.
Proof.
  intros Hin Hcsv Hidx. split; [|by split].
  unfold join_dir.
  set (files := csv_file_of <$> filter (fun entry => ends_with_csv entry.1 = true) dir).
  assert (Hf : csv_file_of (name, d) ∈ files).
  { apply list_elem_of_fmap_2, list_elem_of_filter. by split. }
  destruct (indexed_raises files _ ValueError Hf Hidx) as [e He].
  assert (e = ValueError) as ->.
  { apply (indexed_value_error files e); [|exact He].
    intros f e' Hf' Hp. apply list_elem_of_fmap in Hf' as (entry & -> & _).
    by apply (page_index_of_raises entry.1). }
  unfold Join.join. by rewrite He.
Qed.

Lemma join_dir_rejects_unnumbered_witness :
  join_dir [("1-2024-01-05.csv", Examples.base); (OUTPUT_NAME, Examples.base)]
  = Raise ValueError.
Proof.
  refine (proj1 (join_dir_rejects_unnumbered _ OUTPUT_NAME Examples.base _ _ _)).
  - right. left.
  - reflexivity.
  - reflexivity.
Defined.

(** X21. A folder whose CSV files are all page files written by main.py,
    and which holds at least one, is merged without error, whatever other
    files (join.py itself among them) it holds. *)
Theorem join_dir_accepts_page_files (dir : list (string * DataFrame)) :
  (exists entry, entry ∈ dir /\ ends_with_csv entry.1 = true) ->
  (forall entry, entry ∈ dir -> ends_with_csv entry.1 = true ->
                 exists number date, Paginator.digits number /\
                                     entry.1 = page_file_name number date) ->
  exists d, join_dir dir = Return d.
Proof.
  intros (entry0 & Hin0 & Hcsv0) Hdir. unfold join_dir. apply join_returns.
  - intros Hnil.
    assert (Hin : csv_file_of entry0
                  ∈ csv_file_of <$> filter (fun entry => ends_with_csv entry.1 = true) dir).
    { apply list_elem_of_fmap_2, list_elem_of_filter. by split. }
    rewrite Hnil in Hin. by apply elem_of_nil in Hin.
  - intros f Hf. apply list_elem_of_fmap in Hf as (entry & -> & Hin).
    apply list_elem_of_filter in Hin as [Hcsv Hin].
    destruct (Hdir entry Hin Hcsv) as (number & date & Hn & Hname).
    exists (Paginator.int_of_digits number). simpl. rewrite Hname.
    apply (page_file_name_round_trip_helper number date Hn).
Qed.

Lemma join_dir_accepts_page_files_witness :
  exists d, join_dir [("join.py", Examples.base); ("12-2024-01-05.csv", Examples.base)]
            = Return d.
Proof.
  apply (join_dir_accepts_page_files
           [("join.py", Examples.base); ("12-2024-01-05.csv", Examples.base)]).
  - exists ("12-2024-01-05.csv", Examples.base). split; [right; left|reflexivity].
  - intros entry He Hcsv. apply elem_of_cons in He as [->|He]; [discriminate Hcsv|].
    apply list_elem_of_singleton in He as ->.
    exists (list_ascii_of_string "12"), (list_ascii_of_string "2024-01-05").
    split; [|reflexivity]. split; [discriminate|by repeat constructor].
Defined.

End NameFacts.

(** ** The load step of the address and phone stage *)

Section BizLoadFacts.
Import CnpjBizLoad.

Lemma fold_insert_cell (f : string -> string) (cs : list string) :
  forall (l : row) k,
    cell (fold_left (fun acc c => <[c := f c]> acc) cs l) k
    = if decide (k ∈ cs) then f k else cell l k.
Proof.
  induction cs as [|c cs IH]; intros l k; simpl fold_left.
  - destruct (decide (k ∈ [])) as [H|H]; [by apply elem_of_nil in H|reflexivity].
  - rewrite IH.
    destruct (decide (k ∈ cs)) as [Hin|Hin];
      destruct (decide (k ∈ c :: cs)) as [Hin'|Hin']; try reflexivity.
    + exfalso. apply Hin'. by right.
    + apply elem_of_cons in Hin' as [->|?]; [apply cell_insert_eq|done].
    + apply cell_insert_ne. intros ->. apply Hin'. left.
Qed.

Lemma keep_or_old_cell (l : row) (m : option row) (k : string) :
  cell (keep_or_old l m) k
  = if decide (k ∈ CnpjBiz.target_cols)
    then (if Text.truthy (cell l k) then cell l k else old_value m k)
    else cell l k.
Proof.
  unfold keep_or_old.
  apply (fold_insert_cell
           (fun c => if Text.truthy (cell l c) then cell l c else old_value m c)).
Qed.

Lemma ensure_column_keys_ne (c : string) (d : DataFrame) :
  c <> REGISTRO_ANS -> keys (ensure_column c d) = keys d.
Proof.
  intros Hc. unfold ensure_column. destruct (decide _); [reflexivity|].
  unfold keys, column. simpl. rewrite <- list_fmap_compose.
  apply list_fmap_ext. intros i r _. simpl. by apply cell_insert_ne.
Qed.

Lemma ensure_column_length (c : string) (d : DataFrame) :
  length (rows (ensure_column c d)) = length (rows d).
Proof.
  unfold ensure_column. destruct (decide _); [reflexivity|]. simpl. apply length_fmap.
Qed.

Lemma ensure_column_elem (c : string) (d : DataFrame) (k : string) :
  k ∈ columns (ensure_column c d) -> k ∈ columns d \/ k = c.
Proof.
  unfold ensure_column. destruct (decide _); [by left|]. simpl. intros H.
  apply elem_of_app in H as [H|H]; [by left|right]. by apply list_elem_of_singleton in H.
Qed.

Lemma ensure_fold_mono (cs : list string) :
  forall d k, k ∈ columns d ->
              k ∈ columns (fold_left (fun out c => ensure_column c out) cs d).
Proof.
  induction cs as [|c cs IH]; intros d k H; simpl; [exact H|].
  by apply IH, ensure_column_columns.
Qed.

Lemma ensure_fold_elem (cs : list string) :
  forall d k, k ∈ columns (fold_left (fun out c => ensure_column c out) cs d) ->
              k ∈ columns d \/ k ∈ cs.
Proof.
  induction cs as [|c cs IH]; intros d k H; simpl in *; [by left|].
  destruct (IH _ _ H) as [Hk|Hk]; [|right; by right].
  destruct (ensure_column_elem c d k Hk) as [?| ->]; [by left|right; left].
Qed.

Lemma ensure_fold_keys (cs : list string) :
  REGISTRO_ANS ∉ cs ->
  forall d, keys (fold_left (fun out c => ensure_column c out) cs d) = keys d.
Proof.
  induction cs as [|c cs IH]; intros Hn d; simpl; [reflexivity|].
  rewrite IH by (intros H; apply Hn; by right).
  apply ensure_column_keys_ne. intros ->. apply Hn. left.
Qed.

Lemma ensure_fold_length (cs : list string) :
  forall d, length (rows (fold_left (fun out c => ensure_column c out) cs d))
            = length (rows d).
Proof.
  induction cs as [|c cs IH]; intros d; simpl; [reflexivity|].
  by rewrite IH, ensure_column_length.
Qed.

Lemma ensure_output_mono (d : DataFrame) (k : string) :
  k ∈ columns d -> k ∈ columns (ensure_output_columns d).
Proof. exact (ensure_fold_mono CnpjBiz.target_cols d k). Qed.

Lemma ensure_output_elem (d : DataFrame) (k : string) :
  k ∈ columns (ensure_output_columns d) -> k ∈ columns d \/ k ∈ CnpjBiz.target_cols.
Proof. exact (ensure_fold_elem CnpjBiz.target_cols d k). Qed.

Lemma ensure_output_length (d : DataFrame) :
  length (rows (ensure_output_columns d)) = length (rows d).
Proof. exact (ensure_fold_length CnpjBiz.target_cols d). Qed.

Lemma key_labels_not_target :
  (REGISTRO_ANS ∉ CnpjBiz.target_cols) /\ (CNPJ ∉ CnpjBiz.target_cols).
Proof.
  split; intros H; repeat (apply elem_of_cons in H as [H|H]; [discriminate|]);
    by apply elem_of_nil in H.
Qed.

Lemma ensure_output_keys (d : DataFrame) :
  keys (ensure_output_columns d) = keys d.
Proof.
  exact (ensure_fold_keys CnpjBiz.target_cols (proj1 key_labels_not_target) d).
Qed.

Lemma ensure_output_has_targets (d : DataFrame) :
  Forall (fun c => c ∈ columns (ensure_output_columns d)) CnpjBiz.target_cols.
Proof.
  unfold ensure_output_columns. generalize d.
  induction CnpjBiz.target_cols as [|c cs IH]; intros d'; [constructor|].
  cbn [fold_left]. constructor; [|apply IH].
  apply ensure_fold_mono. unfold ensure_column.
  destruct (decide (c ∈ columns d')); [done|]. cbn [columns].
  apply elem_of_app. right. left.
Qed.

Lemma old_labels_not_target :
  Forall (fun c => old_label c ∉ CnpjBiz.target_cols) CnpjBiz.target_cols.
Proof.
  unfold CnpjBiz.target_cols.
  repeat (constructor;
          [intros H; repeat (apply elem_of_cons in H as [H|H]; [discriminate|]);
           by apply elem_of_nil in H|]).
  constructor.
Qed.

Lemma load_keys_spec (df_out old : DataFrame) :
  REGISTRO_ANS ∈ columns df_out -> REGISTRO_ANS ∈ columns old ->
  REGISTRO_ANS ∈ load_keys df_out old /\
  Forall (fun k => k ∈ columns old) (load_keys df_out old) /\
  Forall (fun k => k ∉ CnpjBiz.target_cols) (load_keys df_out old).
Proof.
  intros H1 H2. unfold load_keys.
  set (P := fun k => k ∈ columns df_out /\ k ∈ columns old).
  assert (Hin : REGISTRO_ANS ∈ filter P [REGISTRO_ANS; CNPJ]).
  { apply list_elem_of_filter. split; [by split|left]. }
  assert (Hall : forall k, k ∈ filter P [REGISTRO_ANS; CNPJ] ->
                           k ∈ columns old /\ k ∉ CnpjBiz.target_cols).
  { intros k Hk. apply list_elem_of_filter in Hk as [[_ Hk1] Hk2]. split; [exact Hk1|].
    apply elem_of_cons in Hk2 as [->|Hk2]; [apply key_labels_not_target|].
    apply list_elem_of_singleton in Hk2 as ->. apply key_labels_not_target. }
  destruct (filter P [REGISTRO_ANS; CNPJ]) as [|k ks]; [by apply elem_of_nil in Hin|].
  split; [exact Hin|]. split; apply Forall_forall; intros x Hx; by apply Hall.
Qed.

Lemma merged_rows_unique (on : list string) (df_out old : DataFrame) :
  REGISTRO_ANS ∈ on -> NoDup (keys old) ->
  merged_rows on df_out old
  = (fun l : row =>
       keep_or_old l (head (filter (fun m => GetCnpj.agree on l m = true) (rows old))))
      <$> rows df_out.
Proof.
  intros Hon Hnd. unfold merged_rows.
  induction (rows df_out) as [|l ls IH]; [reflexivity|].
  rewrite bind_cons, IH, fmap_cons.
  pose proof (filter_unique (fun r : row => cell r REGISTRO_ANS)
                            (fun m => GetCnpj.agree on l m = true)
                            (cell l REGISTRO_ANS) (rows old) Hnd
                            (fun m Hm => agree_key on l m Hon Hm)) as Hlen.
  destruct (filter _ (rows old)) as [|m [|m' ms]]; simpl in *; try lia; reflexivity.
Qed.

Lemma merge_with_existing_some (df_in old0 df_out old : DataFrame) :
  df_out = ensure_output_columns df_in ->
  old = ensure_output_columns old0 ->
  merge_with_existing df_in (Some old0)
  = if decide (Forall (fun k => k ∈ columns old) (load_keys df_out old))
    then if decide (Forall (fun k => k ∉ CnpjBiz.target_cols) (load_keys df_out old) /\
                    Forall (fun c => old_label c ∉ columns df_out) CnpjBiz.target_cols)
         then Return {| columns := columns df_out;
                        rows := merged_rows (load_keys df_out old) df_out old |}
         else Raise ValueError
    else Raise KeyError.
Proof. intros -> ->. reflexivity. Qed.

Lemma merge_with_existing_returns (df_in old0 df_out old : DataFrame) :
  df_out = ensure_output_columns df_in ->
  old = ensure_output_columns old0 ->
  REGISTRO_ANS ∈ columns df_in ->
  REGISTRO_ANS ∈ columns old0 ->
  Forall (fun c => old_label c ∉ columns df_in) CnpjBiz.target_cols ->
  REGISTRO_ANS ∈ load_keys df_out old /\
  merge_with_existing df_in (Some old0)
  = Return {| columns := columns df_out;
              rows := merged_rows (load_keys df_out old) df_out old |}.
Proof.
  intros Edf Eold Hreg Hrold Hclash.
  assert (H1 : REGISTRO_ANS ∈ columns df_out)
    by (rewrite Edf; by apply ensure_output_mono).
  assert (H2 : REGISTRO_ANS ∈ columns old)
    by (rewrite Eold; by apply ensure_output_mono).
  destruct (load_keys_spec df_out old H1 H2) as (Hon & Hall & Hnt).
  assert (Hc : Forall (fun c => old_label c ∉ columns df_out) CnpjBiz.target_cols).
  { pose proof old_labels_not_target as Ho.
    rewrite Forall_forall in *. intros c Hcin Hin. rewrite Edf in Hin.
    apply ensure_output_elem in Hin as [Hin|Hin]; [by apply (Hclash c)|by apply (Ho c)]. }
  split; [exact Hon|].
  rewrite (merge_with_existing_some df_in old0 df_out old Edf Eold).
  by rewrite (decide_True _ _ Hall), (decide_True _ _ (conj Hnt Hc)).
Qed.

Lemma biz_load_cells (df_in old0 df_out old : DataFrame) :
  df_out = ensure_output_columns df_in ->
  old = ensure_output_columns old0 ->
  REGISTRO_ANS ∈ columns df_in ->
  REGISTRO_ANS ∈ columns old0 ->
  NoDup (keys old0) ->
  Forall (fun c => old_label c ∉ columns df_in) CnpjBiz.target_cols ->
  exists d,
    merge_with_existing df_in (Some old0) = Return d /\
    columns d = columns df_out /\
    length (rows d) = length (rows df_in) /\
    forall i l,
      rows df_out !! i = Some l ->
      (forall c, c ∉ CnpjBiz.target_cols -> at_get d i c = cell l c) /\
      (forall c, c ∈ CnpjBiz.target_cols -> cell l c <> "" -> at_get d i c = cell l c) /\
      (forall c m, c ∈ CnpjBiz.target_cols -> cell l c = "" ->
                   m ∈ rows old -> GetCnpj.agree (load_keys df_out old) l m = true ->
                   at_get d i c = cell m c) /\
      (forall c, c ∈ CnpjBiz.target_cols -> cell l c = "" ->
                 (forall m, m ∈ rows old ->
                            GetCnpj.agree (load_keys df_out old) l m = false) ->
                 at_get d i c = "").
Proof.
  intros Edf Eold Hreg Hrold Hnd Hclash.
  destruct (merge_with_existing_returns df_in old0 df_out old Edf Eold Hreg Hrold Hclash)
    as [Hon Hret].
  assert (Hk : NoDup (keys old)).
  { rewrite Eold, ensure_output_keys. exact Hnd. }
  assert (Hlen0 : length (rows df_out) = length (rows df_in))
    by (rewrite Edf; apply ensure_output_length).
  clear Edf Eold. generalize dependent (load_keys df_out old). intros keys_ Hon Hret.
  eexists. split; [exact Hret|]. split; [reflexivity|]. cbn [rows].
  rewrite (merged_rows_unique keys_ df_out old Hon Hk), length_fmap.
  split; [exact Hlen0|].
  intros i l Hl. unfold at_get. cbn [rows].
  rewrite list_lookup_fmap, Hl. cbn [fmap option_fmap option_map default].
  pose proof (filter_unique (fun r : row => cell r REGISTRO_ANS)
                            (fun m => GetCnpj.agree keys_ l m = true)
                            (cell l REGISTRO_ANS) (rows old) Hk
                            (fun m Hm => agree_key keys_ l m Hon Hm)) as Hlen.
  split; [|split; [|split]].
  - intros c Hcn. rewrite keep_or_old_cell. by rewrite decide_False.
  - intros c Hcin Hne. rewrite keep_or_old_cell, decide_True by exact Hcin.
    destruct (cell l c); [done|reflexivity].
  - intros c m Hcin He Hm Ha. rewrite keep_or_old_cell, decide_True by exact Hcin.
    rewrite He. cbn [Text.truthy].
    assert (Hin : m ∈ filter (fun m => GetCnpj.agree keys_ l m = true) (rows old))
      by (by apply list_elem_of_filter).
    destruct (filter _ (rows old)) as [|m1 [|m2 ms]]; simpl in Hlen; try lia.
    + by apply elem_of_nil in Hin.
    + by apply list_elem_of_singleton in Hin as <-.
  - intros c Hcin He Hno. rewrite keep_or_old_cell, decide_True by exact Hcin.
    rewrite He. cbn [Text.truthy].
    destruct (filter _ (rows old)) as [|m1 ms] eqn:Hf; [reflexivity|].
    assert (Hin : m1 ∈ filter (fun m => GetCnpj.agree keys_ l m = true) (rows old))
      by (rewrite Hf; left).
    apply list_elem_of_filter in Hin as [Ha Hin]. rewrite (Hno m1 Hin) in Ha.
    discriminate.
Qed.

(** X22. The load step of the address and phone stage loses nothing: with a
    checkpoint that has the column Registro ANS and pairwise distinct keys,
    the result has the rows of the input in the same order; outside the
    seven target columns every cell is the input's; a target cell that is
    not empty in the input keeps its value; an empty one takes the value of
    the checkpoint row that agrees with the row on the merge keys, and stays
    empty when no checkpoint row does. *)
Theorem load_is_non_destructive (df_in old0 : DataFrame) :
  let df_out := ensure_output_columns df_in in
  let old := ensure_output_columns old0 in
  let keys_ := load_keys df_out old in
  REGISTRO_ANS ∈ columns df_in ->
  REGISTRO_ANS ∈ columns old0 ->
  NoDup (keys old0) ->
  Forall (fun c => old_label c ∉ columns df_in) CnpjBiz.target_cols ->
  exists d,
    merge_with_existing df_in (Some old0) = Return d /\
    columns d = columns df_out /\
    length (rows d) = length (rows df_in) /\
    forall i l,
      rows df_out !! i = Some l ->
      (forall c, c ∉ CnpjBiz.target_cols -> at_get d i c = cell l c) /\
      (forall c, c ∈ CnpjBiz.target_cols -> cell l c <> "" -> at_get d i c = cell l c) /\
      (forall c m, c ∈ CnpjBiz.target_cols -> cell l c = "" ->
                   m ∈ rows old -> GetCnpj.agree keys_ l m = true ->
                   at_get d i c = cell m c) /\
      (forall c, c ∈ CnpjBiz.target_cols -> cell l c = "" ->
                 (forall m, m ∈ rows old -> GetCnpj.agree keys_ l m = false) ->
                 at_get d i c = "").
Proof. intros df_out old keys_. by apply biz_load_cells. Qed.

Lemma load_is_non_destructive_witness :
  exists d, merge_with_existing Examples.partly_filled (Some Examples.partly_filled)
            = Return d /\ length (rows d) = 1.
Proof.
  destruct (load_is_non_destructive Examples.partly_filled Examples.partly_filled)
    as (d & Hd & _ & Hl & _).
  - left.
  - left.
  - vm_compute. apply NoDup_singleton.
  - unfold CnpjBiz.target_cols.
    repeat (constructor;
            [vm_compute; intros H;
             repeat (apply elem_of_cons in H as [H|H]; [discriminate|]);
             by apply elem_of_nil in H|]).
    constructor.
  - exists d. split; [exact Hd|exact Hl].
Defined.

(** X23. A record that the checkpoint holds complete is not fetched again:
    when the target cells of an input row are empty and the checkpoint row
    that agrees with it on the merge keys has a value other than whitespace
    in each of the seven target columns, the row is not pending in the
    loaded table. *)
Theorem complete_records_are_not_pending
        (df_in old0 : DataFrame) (i : nat) (l m : row) :
  let df_out := ensure_output_columns df_in in
  let old := ensure_output_columns old0 in
  REGISTRO_ANS ∈ columns df_in ->
  REGISTRO_ANS ∈ columns old0 ->
  NoDup (keys old0) ->
  Forall (fun c => old_label c ∉ columns df_in) CnpjBiz.target_cols ->
  rows df_out !! i = Some l ->
  m ∈ rows old ->
  GetCnpj.agree (load_keys df_out old) l m = true ->
  (forall c, c ∈ CnpjBiz.target_cols ->
             cell l c = "" /\ Text.truthy (Text.clean (cell m c)) = true) ->
  exists d, merge_with_existing df_in (Some old0) = Return d /\
            i ∉ CnpjBiz.pending_idx d.
Proof.
  intros df_out old Hreg Hrold Hnd Hclash Hl Hm Ha Hcells.
  destruct (biz_load_cells df_in old0 df_out old eq_refl eq_refl Hreg Hrold Hnd Hclash)
    as (d & Hd & _ & _ & Hrows).
  exists d. split; [exact Hd|]. intros Hp.
  apply biz_pending_elem in Hp as (r & Hr & c & Hc & Hblank).
  destruct (Hrows i l Hl) as (_ & _ & Hfill & _).
  destruct (Hcells c Hc) as [He Ht].
  specialize (Hfill c m Hc He Hm Ha). unfold at_get in Hfill. rewrite Hr in Hfill.
  simpl in Hfill. rewrite Hfill in Hblank. congruence.
Qed.

Lemma complete_records_are_not_pending_witness :
  exists d, merge_with_existing Examples.base (Some LoadExamples.complete) = Return d /\
            0 ∉ CnpjBiz.pending_idx d.
Proof.
  refine (complete_records_are_not_pending
            Examples.base LoadExamples.complete 0
            LoadExamples.blank_row LoadExamples.complete_row _ _ _ _ _ _ _ _).
  - left.
  - left.
  - vm_compute. apply NoDup_singleton.
  - unfold CnpjBiz.target_cols.
    repeat (constructor;
            [vm_compute; intros H;
             repeat (apply elem_of_cons in H as [H|H]; [discriminate|]);
             by apply elem_of_nil in H|]).
    constructor.
  - reflexivity.
  - left.
  - reflexivity.
  - intros c Hc. unfold CnpjBiz.target_cols in Hc.
    repeat (apply elem_of_cons in Hc as [->|Hc]; [by vm_compute|]).
    by apply elem_of_nil in Hc.
Defined.

Lemma columns_mk (cs : list string) (rs : list row) :
  columns {| columns := cs; rows := rs |} = cs.
Proof. reflexivity. Qed.

Lemma merge_with_existing_none (df_in : DataFrame) :
  merge_with_existing df_in None = Return (ensure_output_columns df_in).
Proof. reflexivity. Qed.

Lemma load_returns (d : DataFrame) (existing : option DataFrame) :
  CNPJ ∈ columns d -> REGISTRO_ANS ∈ columns d ->
  Forall (fun c => old_label c ∉ columns d) CnpjBiz.target_cols ->
  (forall old, existing = Some old -> REGISTRO_ANS ∈ columns old) ->
  exists out, load (Some d) existing = Return out /\
              Forall (fun c => c ∈ columns out) CnpjBiz.target_cols.
Proof.
  intros Hc Hreg Hclash Hold. unfold load. rewrite (decide_True _ _ Hc).
  pose proof (ensure_output_has_targets d) as Ht.
  destruct existing as [old0|].
  - destruct (merge_with_existing_returns d old0 _ _ eq_refl eq_refl Hreg
                                          (Hold old0 eq_refl) Hclash) as [_ Hret].
    exists {| columns := columns (ensure_output_columns d);
              rows := merged_rows (load_keys (ensure_output_columns d)
                                             (ensure_output_columns old0))
                                  (ensure_output_columns d)
                                  (ensure_output_columns old0) |}.
    split; [exact Hret|]. rewrite columns_mk. exact Ht.
  - exists (ensure_output_columns d). split; [apply merge_with_existing_none|exact Ht].
Qed.

(** X24. The load step of the address and phone stage fails exactly as
    follows: without an input file with FileNotFoundError, with an input
    that lacks the column CNPJ with ValueError; with an input that has the
    columns Registro ANS and CNPJ, no column named like a suffixed target
    column, and no checkpoint or one with the column Registro ANS, it
    returns a table that has the seven target columns. *)
Theorem load_errors (input existing : option DataFrame) :
  (input = None -> load input existing = Raise FileNotFoundError) /\
  (forall d, input = Some d -> CNPJ ∉ columns d -> load input existing = Raise ValueError) /\
  (forall d, input = Some d ->
             CNPJ ∈ columns d -> REGISTRO_ANS ∈ columns d ->
             Forall (fun c => old_label c ∉ columns d) CnpjBiz.target_cols ->
             (forall old, existing = Some old -> REGISTRO_ANS ∈ columns old) ->
             exists out, load input existing = Return out /\
                         Forall (fun c => c ∈ columns out) CnpjBiz.target_cols).
Proof.
  split; [by intros ->|]. split.
  - intros d -> Hn. unfold load. by rewrite decide_False.
  - intros d ->. apply load_returns.
Qed.

End BizLoadFacts.

(** ** get-operadora.py *)

Section OperadoraFacts.
Import Operadora.
Context {V : Type} (of_str : string -> V).

Lemma run_loop_snoc_free (web : nat -> reply V) (rows : list (gmap string V)) :
  forall st : state V,
    (forall i row, rows !! i = Some row ->
                   is_Some (row !! REGISTRO_ANS) /\
                   fetch_ans_data of_str (web (calls st + i)) <> NoMapping) ->
    exists recs,
      run_loop of_str web rows st
      = ({| results := results st ++ recs;
            calls := calls st + length rows;
            trace := trace st ++ paced_requests rows |}, None) /\
      length recs = length rows /\
      forall i row data,
        rows !! i = Some row ->
        fetch_ans_data of_str (web (calls st + i)) = Mapping data ->
        recs !! i = Some (data ∪ row).
Proof.
  induction rows as [|row rows IH]; intros st Hgood.
  - exists []. cbn [run_loop paced_requests length]. rewrite !app_nil_r, Nat.add_0_r.
    split; [by destruct st|]. split; [reflexivity|]. intros i r d Hi. by destruct i.
  - destruct (Hgood 0 row eq_refl) as [[registro Hreg] Hmap].
    rewrite Nat.add_0_r in Hmap.
    destruct (fetch_ans_data of_str (web (calls st))) as [data|] eqn:Hdata; [|done].
    cbn [run_loop]. unfold step. rewrite Hreg, Hdata. cbn [results calls trace].
    destruct (IH {| results := results st ++ [data ∪ row]; calls := S (calls st);
                    trace := (trace st ++ [Request registro]) ++ [Sleep 800] |})
      as (recs & Hrun & Hlen & Hrecs).
    { intros i r Hi. cbn [calls].
      replace (S (calls st) + i) with (calls st + S i) by lia. by apply (Hgood (S i)). }
    rewrite Hrun. cbn [results calls trace].
    exists ((data ∪ row) :: recs). split; [|split].
    + f_equal. f_equal.
      * by rewrite <- app_assoc.
      * cbn [length]. lia.
      * unfold paced_requests. rewrite bind_cons, Hreg. by rewrite <- !app_assoc.
    + cbn [length]. by rewrite Hlen.
    + intros [|i] r d Hi Hd.
      * injection Hi as <-. rewrite Nat.add_0_r, Hdata in Hd. by injection Hd as <-.
      * cbn. apply (Hrecs i r d Hi). cbn [calls].
        by replace (S (calls st) + i) with (calls st + S i) by lia.
Qed.

Lemma step_no_save (web : nat -> reply V) (row : gmap string V) (st : state V) :
  Forall (fun ev => is_save ev = false) (trace st) ->
  Forall (fun ev => is_save ev = false) (trace (step of_str web row st).1) /\
  match (step of_str web row st).2 with
  | Some e => e = KeyError \/ e = OtherError
  | None => True
  end.
Proof.
  intros Hst. unfold step. destruct (row !! REGISTRO_ANS) as [registro|]; cbn.
  - destruct (fetch_ans_data of_str (web (calls st))); cbn.
    + split; [|done]. rewrite !Forall_app. by repeat split; [|repeat constructor..].
    + split; [|by right]. rewrite Forall_app. by split; [|repeat constructor].
  - split; [done|by left].
Qed.

Lemma run_loop_no_save (web : nat -> reply V) (rows : list (gmap string V)) :
  forall st : state V,
    Forall (fun ev => is_save ev = false) (trace st) ->
    Forall (fun ev => is_save ev = false) (trace (run_loop of_str web rows st).1) /\
    match (run_loop of_str web rows st).2 with
    | Some e => e = KeyError \/ e = OtherError
    | None => True
    end.
Proof.
  induction rows as [|row rows IH]; intros st Hst; cbn [run_loop]; [done|].
  pose proof (step_no_save web row st Hst) as [Htr He].
  destruct (step of_str web row st) as [st' [e|]]; cbn in *; [done|].
  by apply IH.
Qed.

(** X25. When every record of the input has a value in the column Registro
    ANS and no query is answered with status 200 and a JSON value that is
    no object, get-operadora.py ends normally: it makes one request per
    record, in order, each followed by a pause of 0.8 s, and writes its
    table once, at the end; the table has one record per input record, and
    that record holds the items of the answer on top of those of the input
    row. *)
Theorem operadora_run
        (web : nat -> reply V) (rows : list (gmap string V)) :
  (forall i row, rows !! i = Some row ->
                 is_Some (row !! REGISTRO_ANS) /\
                 fetch_ans_data of_str (web i) <> NoMapping) ->
  exists recs,
    main of_str web (Some rows) = (paced_requests rows ++ [Save recs], None) /\
    length recs = length rows /\
    forall i row data,
      rows !! i = Some row ->
      fetch_ans_data of_str (web i) = Mapping data ->
      recs !! i = Some (data ∪ row) /\
      forall k, (data ∪ row) !! k = match data !! k with
                                    | Some v => Some v
                                    | None => row !! k
                                    end.
Proof.
  intros Hgood.
  destruct (run_loop_snoc_free web rows initial Hgood) as (recs & Hrun & Hlen & Hrecs).
  exists recs. unfold main. rewrite Hrun. cbn [results trace initial app].
  split; [reflexivity|]. split; [exact Hlen|].
  intros i row data Hi Hd. split; [by apply (Hrecs i row data)|].
  intros k. rewrite lookup_union. by destruct (data !! k), (row !! k).
Qed.

(** X26. get-operadora.py keeps no checkpoint: whenever it ends with an
    exception it has written nothing, and the exception is the
    FileNotFoundError of a missing input, the KeyError of a table without
    the column Registro ANS, or the TypeError of an answer that is no
    mapping; when it ends normally the table is the last thing it did and
    the only table it wrote. *)
Theorem operadora_all_or_nothing
        (web : nat -> reply V) (input : option (list (gmap string V)))
        (tr : list (event V)) (result : option exn) :
  main of_str web input = (tr, result) ->
  match result with
  | Some e => Forall (fun ev => is_save ev = false) tr /\
              (e = FileNotFoundError \/ e = KeyError \/ e = OtherError)
  | None => exists done recs, tr = done ++ [Save recs] /\
                              Forall (fun ev => is_save ev = false) done
  end.
Proof.
  unfold main. destruct input as [rows|].
  - pose proof (run_loop_no_save web rows initial (Forall_nil_2 _)) as [Htr He].
    destruct (run_loop of_str web rows initial) as [st [e|]]; cbn in *;
      intros [= <- <-].
    + split; [exact Htr|by right].
    + by exists (trace st), (results st).
  - intros [= <- <-]. split; [constructor|by left].
Qed.

(** X27. A query that fails never stops the loop and costs one cell: when
    the request raises, the status is not 200 or the body is no JSON text,
    the iteration ends normally after the pause, and its record is the
    input row with the field erro set to a message, every other cell as it
    was. *)
Theorem operadora_failure_is_recorded
        (web : nat -> reply V) (row : gmap string V) (st : state V) (registro : V) :
  row !! REGISTRO_ANS = Some registro ->
  (forall o, web (calls st) <> Response 200 (JsonObject o)) ->
  web (calls st) <> Response 200 JsonOther ->
  exists msg,
    step of_str web row st
    = ({| results := results st ++ [<[ERRO := of_str msg]> row];
          calls := S (calls st);
          trace := trace st ++ [Request registro; Sleep 800] |}, None).
Proof.
  intros Hreg Hobj Hother. unfold step. rewrite Hreg.
  assert (Hmsg : exists msg, fetch_ans_data of_str (web (calls st))
                             = Mapping {[ ERRO := of_str msg ]}).
  { destruct (web (calls st)) as [msg|code json]; [by exists msg|].
    unfold fetch_ans_data. destruct (code =? 200)%Z eqn:Hc; [|by eexists].
    apply Z.eqb_eq in Hc as ->.
    destruct json as [msg|o|]; [by exists msg|by destruct (Hobj o)|done]. }
  destruct Hmsg as [msg ->]. exists msg. cbn [results calls trace].
  rewrite <- insert_union_singleton_l, <- app_assoc. reflexivity.
Qed.

End OperadoraFacts.

Lemma operadora_run_witness :
  exists recs,
    Operadora.main id OperadoraExamples.answers (Some OperadoraExamples.two_rows)
    = (Operadora.paced_requests OperadoraExamples.two_rows ++ [Operadora.Save recs], None) /\
    length recs = 2.
Proof.
  destruct (operadora_run (V := string) id OperadoraExamples.answers
                          OperadoraExamples.two_rows) as (recs & Hmain & Hlen & _).
  - intros [|[|i]] row Hi; [| |discriminate Hi]; injection Hi as <-;
      (split; [eexists; reflexivity|discriminate]).
  - exists recs. split; [exact Hmain|exact Hlen].
Defined.

Lemma operadora_all_or_nothing_witness :
  Forall (fun ev => Operadora.is_save ev = false) [Operadora.Request "12345"] /\
  (OtherError = FileNotFoundError \/ OtherError = KeyError \/ OtherError = OtherError).
Proof.
  exact (operadora_all_or_nothing
           (V := string) id OperadoraExamples.list_answer
           (Some OperadoraExamples.two_rows) [Operadora.Request "12345"]
           (Some OtherError) eq_refl).
Defined.

Lemma operadora_failure_is_recorded_witness :
  exists msg,
    Operadora.step id OperadoraExamples.answers
         {[ REGISTRO_ANS := "67890"; CNPJ := "" ]}
         {| Operadora.results := []; Operadora.calls := 1; Operadora.trace := [] |}
    = ({| Operadora.results :=
            [<[Operadora.ERRO := msg]> {[ REGISTRO_ANS := "67890"; CNPJ := "" ]}];
          Operadora.calls := 2;
          Operadora.trace := [Operadora.Request "67890"; Operadora.Sleep 800] |}, None).
Proof.
  refine (operadora_failure_is_recorded
            (V := string) id OperadoraExamples.answers
            {[ REGISTRO_ANS := "67890"; CNPJ := "" ]}
            {| Operadora.results := []; Operadora.calls := 1; Operadora.trace := [] |}
            "67890" _ _ _).
  - reflexivity.
  - intros o. discriminate.
  - discriminate.
Defined.
